(** * swpt_creditors: ledger reconciliation, running transfers, change log

  A shallow embedding of the creditor-side bookkeeping procedures of
  [swpt_creditors] (procedures/account_updates.py, procedures/creditors.py,
  models/transfers.py) and the properties of them that the specification
  states.

  Conventions.
  - Python [int] is [Z]; a [BigInteger] column is a [Z] that the database
    keeps within [MIN_INT64 .. MAX_INT64].
  - [datetime] is the number of microseconds since the epoch, [timedelta]
    a number of microseconds, [date] a number of days: all [Z].
  - Python [float] is the binary64 primitive [float].
  - A table keyed by its primary key is a [gmap]; the marker table
    [PendingLedgerUpdate] is a [gset] of keys; append-only tables and the
    objects added to the session are lists, oldest first.
  - A procedure that can raise returns a [result]; [@atomic] rolls the
    transaction back on an exception, so a raised result carries no state.
  - [datetime.now] is read by the caller and passed as [current_ts]. *)

From Stdlib Require Import ZArith String List Floats Lia Sorted.
From Stdlib.Strings Require Byte.
From stdpp Require Import base decidable option list strings gmap.

Open Scope Z_scope.

(** ** Common definitions *)

Module Common.

Definition datetime := Z.
Definition timedelta := Z.
Definition date := Z.

(** models/common.py *)
Definition MIN_INT32 : Z := - Z.shiftl 1 31.
Definition MAX_INT32 : Z := Z.shiftl 1 31 - 1.
Definition MIN_INT64 : Z := - Z.shiftl 1 63.
Definition MAX_INT64 : Z := Z.shiftl 1 63 - 1.
Definition SECONDS_IN_DAY : Z := 24 * 60 * 60.
Definition TS0 : datetime := 0.
Definition DATE0 : date := 0.

Definition is_int64 (n : Z) : Prop := MIN_INT64 <= n <= MAX_INT64.

Definition days (n : Z) : timedelta := n * SECONDS_IN_DAY * 1000000.
Definition seconds (n : Z) : timedelta := n * 1000000.

(** The exceptions that the modelled procedures raise. [DataError] is the
    database refusing a statement (a negative [LIMIT]). *)
Inductive exn : Type :=
| AssertionError
| NoResultFound
| DataError
| CreditorDoesNotExist
| UpdateConflict
| AlreadyUpToDate
| TransferDoesNotExist
| ForbiddenTransferCancellation.

Inductive result (A : Type) : Type :=
| Ok (a : A)
| Raise (e : exn).
Arguments Ok {A} a.
Arguments Raise {A} e.

#[export] Instance result_ret : MRet result := fun _ a => Ok a.
#[export] Instance result_bind : MBind result := fun _ _ f m =>
  match m with
  | Ok a => f a
  | Raise e => Raise e
  end.

Definition assert (b : bool) : result unit :=
  if b then Ok tt else Raise AssertionError.

Definition returns {A} (m : result A) : Prop := exists a, m = Ok a.

(** [x or y] on optional objects: a model object is always truthy. *)
Definition or_else {A} (x y : option A) : option A :=
  match x with
  | Some _ => x
  | None => y
  end.

(** [ORDER BY key]: a stable insertion sort on an integer key. *)
Section OrderBy.
Context {A : Type} (key : A -> Z).

Fixpoint insert_by (x : A) (l : list A) : list A :=
  match l with
  | [] => [x]
  | y :: l' => if key x <? key y then x :: l else y :: insert_by x l'
  end.

Fixpoint order_by (l : list A) : list A :=
  match l with
  | [] => []
  | x :: l' => insert_by x (order_by l')
  end.
End OrderBy.

(** [.limit(max_count)]: the database refuses a negative limit. *)
Definition limit {A} (max_count : Z) (l : list A) : result (list A) :=
  if max_count <? 0 then Raise DataError
  else Ok (firstn (Z.to_nat max_count) l).

(** Modelled from the spec: [Seqnum] of swpt_pythonlib, which is not part
    of the sources at hand.  4.1 describes it as a 32-bit signed counter
    that wraps, its ordering decided by the signed difference and not by
    the raw magnitude. *)
Definition seqnum_diff (a b : Z) : Z :=
  (a - b + Z.shiftl 1 31) mod (Z.shiftl 1 32) - Z.shiftl 1 31.
Definition Seqnum_eq (a b : Z) : bool := a =? b.
Definition Seqnum_le (a b : Z) : bool := seqnum_diff a b <=? 0.
Definition Seqnum_gt (a b : Z) : bool := 0 <? seqnum_diff a b.

(** Python compares tuples lexicographically: the first pair of items
    that are not [==] decides, and equal tuples are [<=]. *)
Definition event := (date * datetime * Z)%type.
Definition event_le (this_event prev_event : event) : bool :=
  let '(d1, t1, s1) := this_event in
  let '(d2, t2, s2) := prev_event in
  if negb (d1 =? d2) then d1 <=? d2
  else if negb (t1 =? t2) then t1 <=? t2
  else if negb (Seqnum_eq s1 s2) then Seqnum_le s1 s2
  else true.

(** Modelled from the spec: [contain_principal_overflow] of
    procedures/common.py, which is not part of the sources at hand.  4.2
    ("Overflow-safe correction") clamps each step of a correction to the
    largest magnitude that cannot overflow a signed 64-bit amount. *)
Definition contain_principal_overflow (value : Z) : Z :=
  if value <=? MIN_INT64 then - MAX_INT64
  else if MAX_INT64 <? value then MAX_INT64
  else value.

End Common.
Export Common.

(** ** models/transfers.py *)

Definition SC_OK : string := "OK".
Definition SC_UNEXPECTED_ERROR : string := "UNEXPECTED_ERROR".
Definition SC_INSUFFICIENT_AVAILABLE_AMOUNT : string :=
  "INSUFFICIENT_AVAILABLE_AMOUNT".
Definition SC_CANCELED_BY_THE_SENDER : string := "CANCELED_BY_THE_SENDER".

Module CommittedTransfer.
Record t : Type := mk {
  creditor_id : Z;
  debtor_id : Z;
  creation_date : date;
  transfer_number : Z;
  acquired_amount : Z;
  principal : Z;
  committed_at : datetime;
  previous_transfer_number : Z;
  coordinator_type : string;
  sender : string;
  recipient : string;
  transfer_note_format : string;
  transfer_note : string
}.
End CommittedTransfer.

Module RunningTransfer.
Record t : Type := mk {
  creditor_id : Z;
  transfer_uuid : Z;
  debtor_id : Z;
  amount : Z;
  recipient_uri : string;
  recipient : string;
  transfer_note_format : string;
  transfer_note : string;
  initiated_at : datetime;
  finalized_at : option datetime;
  error_code : option string;
  total_locked_amount : option Z;
  deadline : option datetime;
  final_interest_rate_ts : datetime;
  locked_amount : Z;
  coordinator_request_id : Z;
  transfer_id : option Z;
  latest_update_id : Z;
  latest_update_ts : datetime
}.

(** [bool(self.finalized_at)]: a [datetime] is always truthy. *)
Definition is_finalized (rt : t) : bool :=
  match finalized_at rt with
  | Some _ => true
  | None => false
  end.

Definition is_settled (rt : t) : bool :=
  match transfer_id rt with
  | Some _ => true
  | None => false
  end.
End RunningTransfer.

(** The object type hints of [LogEntry] that the sources and the tests
    name, and the columns of a durable [LogEntry] as procedures/creditors.py
    writes them.  [data] is an opaque JSON object. *)
Module LogEntry.
Inductive object_type_hint : Type :=
| OTH_TRANSFER
| OTH_COMMITTED_TRANSFER
| OTH_ACCOUNT_LEDGER.

Record t : Type := mk {
  creditor_id : Z;
  entry_id : Z;
  object_type : string;
  object_uri : string;
  object_update_id : option Z;
  added_at_ts : datetime;
  is_deleted : bool;
  data : option string
}.
End LogEntry.

(** ** procedures/account_updates.py *)

Module AccountUpdates.

#[export] Instance byte_eq_dec : EqDecision Byte.byte :=
  Stdlib.Strings.Byte.byte_eq_dec.

(** The columns of [AccountData] that account_updates.py reads or writes. *)
Module AccountData.
Record t : Type := mk {
  creditor_id : Z;
  debtor_id : Z;
  creation_date : date;
  last_change_ts : datetime;
  last_change_seqnum : Z;
  principal : Z;
  interest : float;
  interest_rate : float;
  last_interest_rate_change_ts : datetime;
  transfer_note_max_bytes : Z;
  last_config_ts : datetime;
  last_config_seqnum : Z;
  negligible_amount : float;
  config_flags : Z;
  config_data : string;
  config_error : option string;
  account_id : string;
  debtor_info_iri : option string;
  debtor_info_content_type : option string;
  debtor_info_sha256 : option (list Byte.byte);
  last_transfer_number : Z;
  last_transfer_committed_at : datetime;
  last_heartbeat_ts : datetime;
  has_server_account : bool;
  is_config_effectual : bool;
  ledger_principal : Z;
  ledger_last_entry_id : Z;
  ledger_last_transfer_number : Z;
  ledger_latest_update_id : Z;
  ledger_latest_update_ts : datetime;
  ledger_pending_transfer_ts : option datetime
}.

Definition set_last_heartbeat_ts (v : datetime) (d : t) : t :=
  mk (creditor_id d) (debtor_id d) (creation_date d) (last_change_ts d)
    (last_change_seqnum d) (principal d) (interest d) (interest_rate d)
    (last_interest_rate_change_ts d) (transfer_note_max_bytes d)
    (last_config_ts d) (last_config_seqnum d) (negligible_amount d)
    (config_flags d) (config_data d) (config_error d) (account_id d)
    (debtor_info_iri d) (debtor_info_content_type d) (debtor_info_sha256 d)
    (last_transfer_number d) (last_transfer_committed_at d) v
    (has_server_account d) (is_config_effectual d) (ledger_principal d)
    (ledger_last_entry_id d) (ledger_last_transfer_number d)
    (ledger_latest_update_id d) (ledger_latest_update_ts d)
    (ledger_pending_transfer_ts d).

Definition set_ledger_principal (v : Z) (d : t) : t :=
  mk (creditor_id d) (debtor_id d) (creation_date d) (last_change_ts d)
    (last_change_seqnum d) (principal d) (interest d) (interest_rate d)
    (last_interest_rate_change_ts d) (transfer_note_max_bytes d)
    (last_config_ts d) (last_config_seqnum d) (negligible_amount d)
    (config_flags d) (config_data d) (config_error d) (account_id d)
    (debtor_info_iri d) (debtor_info_content_type d) (debtor_info_sha256 d)
    (last_transfer_number d) (last_transfer_committed_at d)
    (last_heartbeat_ts d) (has_server_account d) (is_config_effectual d) v
    (ledger_last_entry_id d) (ledger_last_transfer_number d)
    (ledger_latest_update_id d) (ledger_latest_update_ts d)
    (ledger_pending_transfer_ts d).

Definition set_ledger_last_entry_id (v : Z) (d : t) : t :=
  mk (creditor_id d) (debtor_id d) (creation_date d) (last_change_ts d)
    (last_change_seqnum d) (principal d) (interest d) (interest_rate d)
    (last_interest_rate_change_ts d) (transfer_note_max_bytes d)
    (last_config_ts d) (last_config_seqnum d) (negligible_amount d)
    (config_flags d) (config_data d) (config_error d) (account_id d)
    (debtor_info_iri d) (debtor_info_content_type d) (debtor_info_sha256 d)
    (last_transfer_number d) (last_transfer_committed_at d)
    (last_heartbeat_ts d) (has_server_account d) (is_config_effectual d)
    (ledger_principal d) v (ledger_last_transfer_number d)
    (ledger_latest_update_id d) (ledger_latest_update_ts d)
    (ledger_pending_transfer_ts d).

Definition set_ledger_last_transfer_number (v : Z) (d : t) : t :=
  mk (creditor_id d) (debtor_id d) (creation_date d) (last_change_ts d)
    (last_change_seqnum d) (principal d) (interest d) (interest_rate d)
    (last_interest_rate_change_ts d) (transfer_note_max_bytes d)
    (last_config_ts d) (last_config_seqnum d) (negligible_amount d)
    (config_flags d) (config_data d) (config_error d) (account_id d)
    (debtor_info_iri d) (debtor_info_content_type d) (debtor_info_sha256 d)
    (last_transfer_number d) (last_transfer_committed_at d)
    (last_heartbeat_ts d) (has_server_account d) (is_config_effectual d)
    (ledger_principal d) (ledger_last_entry_id d) v
    (ledger_latest_update_id d) (ledger_latest_update_ts d)
    (ledger_pending_transfer_ts d).

Definition set_ledger_latest_update_id (v : Z) (d : t) : t :=
  mk (creditor_id d) (debtor_id d) (creation_date d) (last_change_ts d)
    (last_change_seqnum d) (principal d) (interest d) (interest_rate d)
    (last_interest_rate_change_ts d) (transfer_note_max_bytes d)
    (last_config_ts d) (last_config_seqnum d) (negligible_amount d)
    (config_flags d) (config_data d) (config_error d) (account_id d)
    (debtor_info_iri d) (debtor_info_content_type d) (debtor_info_sha256 d)
    (last_transfer_number d) (last_transfer_committed_at d)
    (last_heartbeat_ts d) (has_server_account d) (is_config_effectual d)
    (ledger_principal d) (ledger_last_entry_id d)
    (ledger_last_transfer_number d) v (ledger_latest_update_ts d)
    (ledger_pending_transfer_ts d).

Definition set_ledger_latest_update_ts (v : datetime) (d : t) : t :=
  mk (creditor_id d) (debtor_id d) (creation_date d) (last_change_ts d)
    (last_change_seqnum d) (principal d) (interest d) (interest_rate d)
    (last_interest_rate_change_ts d) (transfer_note_max_bytes d)
    (last_config_ts d) (last_config_seqnum d) (negligible_amount d)
    (config_flags d) (config_data d) (config_error d) (account_id d)
    (debtor_info_iri d) (debtor_info_content_type d) (debtor_info_sha256 d)
    (last_transfer_number d) (last_transfer_committed_at d)
    (last_heartbeat_ts d) (has_server_account d) (is_config_effectual d)
    (ledger_principal d) (ledger_last_entry_id d)
    (ledger_last_transfer_number d) (ledger_latest_update_id d) v
    (ledger_pending_transfer_ts d).

Definition set_ledger_pending_transfer_ts (v : option datetime) (d : t) : t :=
  mk (creditor_id d) (debtor_id d) (creation_date d) (last_change_ts d)
    (last_change_seqnum d) (principal d) (interest d) (interest_rate d)
    (last_interest_rate_change_ts d) (transfer_note_max_bytes d)
    (last_config_ts d) (last_config_seqnum d) (negligible_amount d)
    (config_flags d) (config_data d) (config_error d) (account_id d)
    (debtor_info_iri d) (debtor_info_content_type d) (debtor_info_sha256 d)
    (last_transfer_number d) (last_transfer_committed_at d)
    (last_heartbeat_ts d) (has_server_account d) (is_config_effectual d)
    (ledger_principal d) (ledger_last_entry_id d)
    (ledger_last_transfer_number d) (ledger_latest_update_id d)
    (ledger_latest_update_ts d) v.

Definition set_config_error (v : option string) (d : t) : t :=
  mk (creditor_id d) (debtor_id d) (creation_date d) (last_change_ts d)
    (last_change_seqnum d) (principal d) (interest d) (interest_rate d)
    (last_interest_rate_change_ts d) (transfer_note_max_bytes d)
    (last_config_ts d) (last_config_seqnum d) (negligible_amount d)
    (config_flags d) (config_data d) v (account_id d) (debtor_info_iri d)
    (debtor_info_content_type d) (debtor_info_sha256 d)
    (last_transfer_number d) (last_transfer_committed_at d)
    (last_heartbeat_ts d) (has_server_account d) (is_config_effectual d)
    (ledger_principal d) (ledger_last_entry_id d)
    (ledger_last_transfer_number d) (ledger_latest_update_id d)
    (ledger_latest_update_ts d) (ledger_pending_transfer_ts d).

Definition set_has_server_account (v : bool) (d : t) : t :=
  mk (creditor_id d) (debtor_id d) (creation_date d) (last_change_ts d)
    (last_change_seqnum d) (principal d) (interest d) (interest_rate d)
    (last_interest_rate_change_ts d) (transfer_note_max_bytes d)
    (last_config_ts d) (last_config_seqnum d) (negligible_amount d)
    (config_flags d) (config_data d) (config_error d) (account_id d)
    (debtor_info_iri d) (debtor_info_content_type d) (debtor_info_sha256 d)
    (last_transfer_number d) (last_transfer_committed_at d)
    (last_heartbeat_ts d) v (is_config_effectual d) (ledger_principal d)
    (ledger_last_entry_id d) (ledger_last_transfer_number d)
    (ledger_latest_update_id d) (ledger_latest_update_ts d)
    (ledger_pending_transfer_ts d).

Definition set_principal (v : Z) (d : t) : t :=
  mk (creditor_id d) (debtor_id d) (creation_date d) (last_change_ts d)
    (last_change_seqnum d) v (interest d) (interest_rate d)
    (last_interest_rate_change_ts d) (transfer_note_max_bytes d)
    (last_config_ts d) (last_config_seqnum d) (negligible_amount d)
    (config_flags d) (config_data d) (config_error d) (account_id d)
    (debtor_info_iri d) (debtor_info_content_type d) (debtor_info_sha256 d)
    (last_transfer_number d) (last_transfer_committed_at d)
    (last_heartbeat_ts d) (has_server_account d) (is_config_effectual d)
    (ledger_principal d) (ledger_last_entry_id d)
    (ledger_last_transfer_number d) (ledger_latest_update_id d)
    (ledger_latest_update_ts d) (ledger_pending_transfer_ts d).

Definition set_interest (v : float) (d : t) : t :=
  mk (creditor_id d) (debtor_id d) (creation_date d) (last_change_ts d)
    (last_change_seqnum d) (principal d) v (interest_rate d)
    (last_interest_rate_change_ts d) (transfer_note_max_bytes d)
    (last_config_ts d) (last_config_seqnum d) (negligible_amount d)
    (config_flags d) (config_data d) (config_error d) (account_id d)
    (debtor_info_iri d) (debtor_info_content_type d) (debtor_info_sha256 d)
    (last_transfer_number d) (last_transfer_committed_at d)
    (last_heartbeat_ts d) (has_server_account d) (is_config_effectual d)
    (ledger_principal d) (ledger_last_entry_id d)
    (ledger_last_transfer_number d) (ledger_latest_update_id d)
    (ledger_latest_update_ts d) (ledger_pending_transfer_ts d).
End AccountData.

(** A correcting entry has neither [creation_date] nor [transfer_number]. *)
Module LedgerEntry.
Record t : Type := mk {
  creditor_id : Z;
  debtor_id : Z;
  entry_id : Z;
  acquired_amount : Z;
  principal : Z;
  added_at : datetime;
  creation_date : option date;
  transfer_number : option Z
}.
End LedgerEntry.

Module PendingLogEntry.
Record t : Type := mk {
  creditor_id : Z;
  added_at : datetime;
  object_type_hint : option LogEntry.object_type_hint;
  debtor_id : option Z;
  object_update_id : option Z;
  data_principal : option Z;
  data_next_entry_id : option Z
}.
End PendingLogEntry.

Module UpdatedLedgerSignal.
Record t : Type := mk {
  creditor_id : Z;
  debtor_id : Z;
  update_id : Z;
  account_id : string;
  creation_date : date;
  principal : Z;
  last_transfer_number : Z;
  ts : datetime
}.
End UpdatedLedgerSignal.

Module ConfigureAccountSignal.
Record t : Type := mk {
  creditor_id : Z;
  debtor_id : Z;
  ts : datetime;
  seqnum : Z;
  negligible_amount : float;
  config_flags : Z
}.
End ConfigureAccountSignal.

(** The keyword arguments of [process_account_update_signal]. *)
Module AccountUpdateSignal.
Record t : Type := mk {
  debtor_id : Z;
  creditor_id : Z;
  creation_date : date;
  last_change_ts : datetime;
  last_change_seqnum : Z;
  principal : Z;
  interest : float;
  interest_rate : float;
  last_interest_rate_change_ts : datetime;
  transfer_note_max_bytes : Z;
  last_config_ts : datetime;
  last_config_seqnum : Z;
  negligible_amount : float;
  config_flags : Z;
  config_data : string;
  account_id : string;
  debtor_info_iri : option string;
  debtor_info_content_type : option string;
  debtor_info_sha256 : option (list Byte.byte);
  last_transfer_number : Z;
  last_transfer_committed_at : datetime;
  ts : datetime;
  ttl : Z
}.
End AccountUpdateSignal.

(** The tables and the session.  Objects added to the session are appended
    to their table; [uid_seq] is the last value that the sequence gave. *)
Record db : Type := mkdb {
  account_data : gmap (Z * Z) AccountData.t;
  committed_transfer : list CommittedTransfer.t;
  pending_ledger_update : gset (Z * Z);
  ledger_entry : list LedgerEntry.t;
  pending_log_entry : list PendingLogEntry.t;
  updated_ledger_signal : list UpdatedLedgerSignal.t;
  configure_account_signal : list ConfigureAccountSignal.t;
  uid_seq : Z
}.

Definition set_account_data (v : gmap (Z * Z) AccountData.t) (s : db) : db :=
  mkdb v (committed_transfer s) (pending_ledger_update s) (ledger_entry s)
    (pending_log_entry s) (updated_ledger_signal s)
    (configure_account_signal s) (uid_seq s).

Definition set_pending_ledger_update (v : gset (Z * Z)) (s : db) : db :=
  mkdb (account_data s) (committed_transfer s) v (ledger_entry s)
    (pending_log_entry s) (updated_ledger_signal s)
    (configure_account_signal s) (uid_seq s).

Definition add_ledger_entry (e : LedgerEntry.t) (s : db) : db :=
  mkdb (account_data s) (committed_transfer s) (pending_ledger_update s)
    (ledger_entry s ++ [e]) (pending_log_entry s) (updated_ledger_signal s)
    (configure_account_signal s) (uid_seq s).

Definition add_pending_log_entry (e : PendingLogEntry.t) (s : db) : db :=
  mkdb (account_data s) (committed_transfer s) (pending_ledger_update s)
    (ledger_entry s) (pending_log_entry s ++ [e]) (updated_ledger_signal s)
    (configure_account_signal s) (uid_seq s).

Definition add_updated_ledger_signal (e : UpdatedLedgerSignal.t) (s : db)
  : db :=
  mkdb (account_data s) (committed_transfer s) (pending_ledger_update s)
    (ledger_entry s) (pending_log_entry s) (updated_ledger_signal s ++ [e])
    (configure_account_signal s) (uid_seq s).

Definition add_configure_account_signal (e : ConfigureAccountSignal.t)
  (s : db) : db :=
  mkdb (account_data s) (committed_transfer s) (pending_ledger_update s)
    (ledger_entry s) (pending_log_entry s) (updated_ledger_signal s)
    (configure_account_signal s ++ [e]) (uid_seq s).

Definition set_uid_seq (v : Z) (s : db) : db :=
  mkdb (account_data s) (committed_transfer s) (pending_ledger_update s)
    (ledger_entry s) (pending_log_entry s) (updated_ledger_signal s)
    (configure_account_signal s) v.

(** A mapped [AccountData] object in the hands of a procedure, and the
    session it belongs to.  The object is written back to its row when the
    transaction commits. *)
Definition txn : Type := (AccountData.t * db)%type.

Definition commit (key : Z * Z) (st : txn) : db :=
  set_account_data (<[key := fst st]> (account_data (snd st))) (snd st).

(** [EPS = 1e-5]: the binary64 value nearest to the decimal literal. *)
Definition EPS : float := 0x1.4f8b588e368f1p-17%float.

(** The [while correction_amount != 0] loop of
    [_make_correcting_ledger_entry_if_necessary], over its local variables
    [correction_amount], [ledger_principal] and
    [made_correcting_ledger_entry].  [fuel] bounds the number of rounds;
    [correcting_fuel] is enough for every amount (see
    [correcting_fuel_enough]). *)
Fixpoint correcting_entries (fuel : nat) (current_ts : datetime)
  (correction_amount ledger_principal : Z)
  (made_correcting_ledger_entry : bool) (st : txn) : Z * bool * txn :=
  match fuel with
  | O => (correction_amount, made_correcting_ledger_entry, st)
  | S fuel' =>
    if correction_amount =? 0
    then (correction_amount, made_correcting_ledger_entry, st)
    else
      let safe_correction_amount :=
        contain_principal_overflow correction_amount in
      let correction_amount := correction_amount - safe_correction_amount in
      let ledger_principal := ledger_principal + safe_correction_amount in
      let data :=
        AccountData.set_ledger_last_entry_id
          (AccountData.ledger_last_entry_id (fst st) + 1) (fst st) in
      let s :=
        add_ledger_entry
          (LedgerEntry.mk
             (AccountData.creditor_id data)
             (AccountData.debtor_id data)
             (AccountData.ledger_last_entry_id data)
             safe_correction_amount
             ledger_principal
             current_ts
             None
             None)
          (snd st) in
      correcting_entries fuel' current_ts correction_amount ledger_principal
        true (data, s)
  end.

Definition correcting_fuel (correction_amount : Z) : nat :=
  Z.to_nat (Z.abs correction_amount / MAX_INT64 + 1).

Definition _make_correcting_ledger_entry_if_necessary (st : txn)
  (acquired_amount principal : Z) (current_ts : datetime) : bool * txn :=
  let previous_principal := principal - acquired_amount in
  if (MIN_INT64 <=? previous_principal) && (previous_principal <=? MAX_INT64)
  then
    let ledger_principal := AccountData.ledger_principal (fst st) in
    let correction_amount := previous_principal - ledger_principal in
    let '(_, made_correcting_ledger_entry, st) :=
      correcting_entries (correcting_fuel correction_amount) current_ts
        correction_amount ledger_principal false st in
    (made_correcting_ledger_entry, st)
  else (false, st).

Definition _update_ledger (st : txn)
  (transfer_number acquired_amount principal : Z) (current_ts : datetime)
  (always_insert_ledger_update_log_entry : bool)
  : result (option PendingLogEntry.t * txn) :=
  let '(should_insert_ledger_update_log_entry, (data, s)) :=
    _make_correcting_ledger_entry_if_necessary st acquired_amount principal
      current_ts in
  let '(should_insert_ledger_update_log_entry, (data, s)) :=
    if negb (acquired_amount =? 0) then
      let data :=
        AccountData.set_ledger_last_entry_id
          (AccountData.ledger_last_entry_id data + 1) data in
      (true,
       (data,
        add_ledger_entry
          (LedgerEntry.mk
             (AccountData.creditor_id data)
             (AccountData.debtor_id data)
             (AccountData.ledger_last_entry_id data)
             acquired_amount
             principal
             current_ts
             (Some (AccountData.creation_date data))
             (Some transfer_number))
          s))
    else (should_insert_ledger_update_log_entry, (data, s)) in
  assert (should_insert_ledger_update_log_entry
          || (AccountData.ledger_principal data =? principal));;
  let data := AccountData.set_ledger_principal principal data in
  let data :=
    AccountData.set_ledger_last_transfer_number transfer_number data in
  if should_insert_ledger_update_log_entry
     || always_insert_ledger_update_log_entry
  then
    let data :=
      AccountData.set_ledger_latest_update_id
        (AccountData.ledger_latest_update_id data + 1) data in
    let data := AccountData.set_ledger_latest_update_ts current_ts data in
    Ok (Some
          (PendingLogEntry.mk
             (AccountData.creditor_id data)
             current_ts
             (Some LogEntry.OTH_ACCOUNT_LEDGER)
             (Some (AccountData.debtor_id data))
             (Some (AccountData.ledger_latest_update_id data))
             (Some principal)
             (Some (AccountData.ledger_last_entry_id data + 1))),
        (data, s))
  else Ok (None, (data, s)).

Definition _fix_missing_last_transfer_if_necessary (st : txn)
  (max_delay : timedelta) (current_ts : datetime)
  : result (option PendingLogEntry.t * txn) :=
  let data := fst st in
  let has_no_pending_transfers :=
    match AccountData.ledger_pending_transfer_ts data with
    | None => true
    | Some _ => false
    end in
  let last_transfer_is_missing :=
    AccountData.ledger_last_transfer_number data
    <? AccountData.last_transfer_number data in
  let last_transfer_is_old :=
    AccountData.last_transfer_committed_at data <? current_ts - max_delay in
  if has_no_pending_transfers && last_transfer_is_missing
     && last_transfer_is_old
  then
    _update_ledger st (AccountData.last_transfer_number data) 0
      (AccountData.principal data) current_ts false
  else Ok (None, st).

(** A row of the query of [_get_sorted_pending_transfers]:
    [(previous_transfer_number, transfer_number, acquired_amount, principal,
      committed_at)]. *)
Definition pending_transfer : Type := (Z * Z * Z * Z * datetime)%type.

Definition _get_sorted_pending_transfers (s : db) (data : AccountData.t)
  (max_count : Z) : result (list pending_transfer) :=
  rows ← limit max_count
    (order_by CommittedTransfer.transfer_number
       (filter
          (fun ct =>
             CommittedTransfer.creditor_id ct = AccountData.creditor_id data
             /\ CommittedTransfer.debtor_id ct = AccountData.debtor_id data
             /\ CommittedTransfer.creation_date ct
                = AccountData.creation_date data
             /\ AccountData.ledger_last_transfer_number data
                < CommittedTransfer.transfer_number ct)
          (committed_transfer s)));
  Ok (map
        (fun ct =>
           (CommittedTransfer.previous_transfer_number ct,
            CommittedTransfer.transfer_number ct,
            CommittedTransfer.acquired_amount ct,
            CommittedTransfer.principal ct,
            CommittedTransfer.committed_at ct))
        rows).

(** The body of the [for ... in transfers] loop of
    [process_pending_ledger_update].  The boolean of the result tells
    whether the loop left through [break]. *)
Fixpoint walk_pending_transfers (committed_at_cutoff current_ts : datetime)
  (transfers : list pending_transfer)
  (log_entry : option PendingLogEntry.t) (st : txn)
  : result (bool * option PendingLogEntry.t * txn) :=
  match transfers with
  | [] => Ok (false, log_entry, st)
  | (previous_transfer_number, transfer_number, acquired_amount, principal,
     committed_at) :: transfers' =>
    if negb (previous_transfer_number
             =? AccountData.ledger_last_transfer_number (fst st))
       && (committed_at_cutoff <=? committed_at)
    then
      Ok (true, log_entry,
          (AccountData.set_ledger_pending_transfer_ts (Some committed_at)
             (fst st),
           snd st))
    else
      '(new_entry, st) ←
        _update_ledger st transfer_number acquired_amount principal
          current_ts false;
      walk_pending_transfers committed_at_cutoff current_ts transfers'
        (or_else new_entry log_entry) st
  end.

(** [while db.session.scalar(uid_seq) < data.ledger_latest_update_id]: the
    sequence gives [uid_seq + 1], [uid_seq + 2], ... until a value reaches
    [ledger_latest_update_id]; at least one value is drawn. *)
Definition advance_uid_seq (ledger_latest_update_id : Z) (s : db) : db :=
  set_uid_seq (Z.max (uid_seq s + 1) ledger_latest_update_id) s.

(** [process_pending_ledger_update] with
    [APP_USE_PGPLSQL_FUNCTIONS] off: the Python path.  Returns [is_done]
    and the committed state. *)
Definition process_pending_ledger_update (current_ts : datetime)
  (creditor_id debtor_id : Z) (burst_count : Z) (max_delay : timedelta)
  (s : db) : result (bool * db) :=
  if decide ((creditor_id, debtor_id) ∈ pending_ledger_update s) then
    match account_data s !! (creditor_id, debtor_id) with
    | None => Raise NoResultFound
    | Some data =>
      let committed_at_cutoff := current_ts - max_delay in
      transfers ← _get_sorted_pending_transfers s data burst_count;
      '(broke, log_entry, (data, s)) ←
        walk_pending_transfers committed_at_cutoff current_ts transfers None
          (data, s);
      let '(is_done, data) :=
        if broke : bool then (true, data)
        else
          (Z.of_nat (length transfers) <? burst_count,
           AccountData.set_ledger_pending_transfer_ts None data) in
      '(log_entry, (data, s)) ←
        (if is_done then
           '(fix_entry, (data, s)) ←
             _fix_missing_last_transfer_if_necessary (data, s) max_delay
               current_ts;
           Ok (or_else fix_entry log_entry,
               (data,
                set_pending_ledger_update
                  (pending_ledger_update s ∖ {[ (creditor_id, debtor_id) ]})
                  s))
         else Ok (log_entry, (data, s)));
      let s :=
        match log_entry with
        | Some log_entry =>
          let s :=
            add_updated_ledger_signal
              (UpdatedLedgerSignal.mk
                 creditor_id
                 debtor_id
                 (AccountData.ledger_latest_update_id data)
                 (AccountData.account_id data)
                 (AccountData.creation_date data)
                 (AccountData.ledger_principal data)
                 (AccountData.ledger_last_transfer_number data)
                 current_ts)
              s in
          let s := add_pending_log_entry log_entry s in
          advance_uid_seq (AccountData.ledger_latest_update_id data) s
        | None => s
        end in
      Ok (is_done, commit (creditor_id, debtor_id) (data, s))
    end
  else Ok (true, s).

(** Modelled from the spec: [ensure_pending_ledger_update] of
    procedures/transfers.py, which is not part of the sources at hand.  3
    keeps at most one [PendingLedgerUpdate] marker per account, and 4.2
    marks the account for further reconciliation. *)
Definition ensure_pending_ledger_update (creditor_id debtor_id : Z) (s : db)
  : db :=
  set_pending_ledger_update
    ({[ (creditor_id, debtor_id) ]} ∪ pending_ledger_update s) s.

Section AccountUpdateSignals.

(** Constants of models/accounts.py, the [is_deletion_safe] attribute of
    [AccountData] and [_insert_info_update_pending_log_entry] of
    procedures/accounts.py are not part of the sources at hand: they are
    parameters here. *)
Context (HUGE_NEGLIGIBLE_AMOUNT : float).
Context (DEFAULT_CONFIG_FLAGS CONFIG_SCHEDULED_FOR_DELETION_FLAG : Z).
Context (is_deletion_safe : AccountData.t -> bool).
Context (_insert_info_update_pending_log_entry : txn -> datetime -> txn).

(** [now] is the clock as [_discard_orphaned_account] reads it. *)
Definition _discard_orphaned_account (now : datetime)
  (creditor_id debtor_id config_flags : Z) (negligible_amount : float)
  (s : db) : db :=
  let scheduled_for_deletion_flag := CONFIG_SCHEDULED_FOR_DELETION_FLAG in
  let safely_huge_amount := ((1 - EPS) * HUGE_NEGLIGIBLE_AMOUNT)%float in
  let is_already_discarded :=
    negb (Z.land config_flags scheduled_for_deletion_flag =? 0)
    && (safely_huge_amount <=? negligible_amount)%float in
  if negb is_already_discarded then
    add_configure_account_signal
      (ConfigureAccountSignal.mk
         creditor_id
         debtor_id
         now
         0
         HUGE_NEGLIGIBLE_AMOUNT
         (Z.lor DEFAULT_CONFIG_FLAGS scheduled_for_deletion_flag))
      s
  else s.

(** [(current_ts - ts).total_seconds() > ttl], on whole microseconds. *)
Definition ttl_expired (current_ts ts : datetime) (ttl : Z) : bool :=
  ttl * 1000000 <? current_ts - ts.

Definition process_account_update_signal (current_ts now : datetime)
  (m : AccountUpdateSignal.t) (s : db) : result db :=
  let creditor_id := AccountUpdateSignal.creditor_id m in
  let debtor_id := AccountUpdateSignal.debtor_id m in
  let creation_date := AccountUpdateSignal.creation_date m in
  let last_change_ts := AccountUpdateSignal.last_change_ts m in
  let last_change_seqnum := AccountUpdateSignal.last_change_seqnum m in
  let interest_rate := AccountUpdateSignal.interest_rate m in
  let negligible_amount := AccountUpdateSignal.negligible_amount m in
  let account_id := AccountUpdateSignal.account_id m in
  let ts := AccountUpdateSignal.ts m in
  if ttl_expired current_ts ts (AccountUpdateSignal.ttl m) then Ok s
  else
    match account_data s !! (creditor_id, debtor_id) with
    | None =>
      Ok (_discard_orphaned_account now creditor_id debtor_id
            (AccountUpdateSignal.config_flags m) negligible_amount s)
    | Some data =>
      let data :=
        if AccountData.last_heartbeat_ts data <? ts
        then AccountData.set_last_heartbeat_ts (Z.min ts current_ts) data
        else data in
      let prev_event :=
        (AccountData.creation_date data,
         AccountData.last_change_ts data,
         AccountData.last_change_seqnum data) in
      let this_event := (creation_date, last_change_ts, last_change_seqnum) in
      if event_le this_event prev_event
      then Ok (commit (creditor_id, debtor_id) (data, s))
      else
        assert (AccountData.creation_date data <=? creation_date);;
        let is_new_server_account :=
          AccountData.creation_date data <? creation_date in
        let is_account_id_changed :=
          bool_decide (account_id ≠ AccountData.account_id data) in
        let is_config_effectual :=
          (AccountUpdateSignal.last_config_ts m
           =? AccountData.last_config_ts data)
          && (AccountUpdateSignal.last_config_seqnum m
              =? AccountData.last_config_seqnum data)
          && (AccountUpdateSignal.config_flags m
              =? AccountData.config_flags data)
          && bool_decide
               (AccountUpdateSignal.config_data m
                = AccountData.config_data data)
          && (abs (AccountData.negligible_amount data - negligible_amount)
              <=? EPS * negligible_amount)%float in
        let config_error :=
          if is_config_effectual then None
          else AccountData.config_error data in
        let is_info_updated :=
          is_deletion_safe data
          || bool_decide (AccountData.account_id data ≠ account_id)
          || (EPS * interest_rate
              <? abs (AccountData.interest_rate data - interest_rate))%float
          || negb (AccountData.last_interest_rate_change_ts data
                   =? AccountUpdateSignal.last_interest_rate_change_ts m)
          || negb (AccountData.transfer_note_max_bytes data
                   =? AccountUpdateSignal.transfer_note_max_bytes m)
          || bool_decide
               (AccountData.debtor_info_iri data
                ≠ AccountUpdateSignal.debtor_info_iri m)
          || bool_decide
               (AccountData.debtor_info_content_type data
                ≠ AccountUpdateSignal.debtor_info_content_type m)
          || bool_decide
               (AccountData.debtor_info_sha256 data
                ≠ AccountUpdateSignal.debtor_info_sha256 m)
          || bool_decide (AccountData.config_error data ≠ config_error) in
        let data :=
          {| AccountData.creditor_id := AccountData.creditor_id data;
             AccountData.debtor_id := AccountData.debtor_id data;
             AccountData.creation_date := creation_date;
             AccountData.last_change_ts := last_change_ts;
             AccountData.last_change_seqnum := last_change_seqnum;
             AccountData.principal := AccountUpdateSignal.principal m;
             AccountData.interest := AccountUpdateSignal.interest m;
             AccountData.interest_rate := interest_rate;
             AccountData.last_interest_rate_change_ts :=
               AccountUpdateSignal.last_interest_rate_change_ts m;
             AccountData.transfer_note_max_bytes :=
               AccountUpdateSignal.transfer_note_max_bytes m;
             AccountData.last_config_ts := AccountData.last_config_ts data;
             AccountData.last_config_seqnum :=
               AccountData.last_config_seqnum data;
             AccountData.negligible_amount :=
               AccountData.negligible_amount data;
             AccountData.config_flags := AccountData.config_flags data;
             AccountData.config_data := AccountData.config_data data;
             AccountData.config_error := config_error;
             AccountData.account_id := account_id;
             AccountData.debtor_info_iri :=
               AccountUpdateSignal.debtor_info_iri m;
             AccountData.debtor_info_content_type :=
               AccountUpdateSignal.debtor_info_content_type m;
             AccountData.debtor_info_sha256 :=
               AccountUpdateSignal.debtor_info_sha256 m;
             AccountData.last_transfer_number :=
               AccountUpdateSignal.last_transfer_number m;
             AccountData.last_transfer_committed_at :=
               AccountUpdateSignal.last_transfer_committed_at m;
             AccountData.last_heartbeat_ts :=
               AccountData.last_heartbeat_ts data;
             AccountData.has_server_account := true;
             AccountData.is_config_effectual := is_config_effectual;
             AccountData.ledger_principal := AccountData.ledger_principal data;
             AccountData.ledger_last_entry_id :=
               AccountData.ledger_last_entry_id data;
             AccountData.ledger_last_transfer_number :=
               AccountData.ledger_last_transfer_number data;
             AccountData.ledger_latest_update_id :=
               AccountData.ledger_latest_update_id data;
             AccountData.ledger_latest_update_ts :=
               AccountData.ledger_latest_update_ts data;
             AccountData.ledger_pending_transfer_ts :=
               AccountData.ledger_pending_transfer_ts data |} in
        let st :=
          if is_info_updated
          then _insert_info_update_pending_log_entry (data, s) current_ts
          else (data, s) in
        if is_new_server_account || is_account_id_changed then
          let '(data, ledger_principal, ledger_last_transfer_number) :=
            if is_new_server_account
            then
              (AccountData.set_ledger_pending_transfer_ts None (fst st),
               0, 0)
            else
              (fst st,
               AccountData.ledger_principal (fst st),
               AccountData.ledger_last_transfer_number (fst st)) in
          '(log_entry, (data, s)) ←
            _update_ledger (data, snd st) ledger_last_transfer_number 0
              ledger_principal current_ts true;
          let s :=
            match log_entry with
            | Some log_entry =>
              let s :=
                add_updated_ledger_signal
                  (UpdatedLedgerSignal.mk
                     creditor_id
                     debtor_id
                     (AccountData.ledger_latest_update_id data)
                     (AccountData.account_id data)
                     (AccountData.creation_date data)
                     ledger_principal
                     ledger_last_transfer_number
                     current_ts)
                  s in
              let s := add_pending_log_entry log_entry s in
              set_uid_seq (uid_seq s + 1) s
            | None => s
            end in
          Ok (commit (creditor_id, debtor_id)
                (data,
                 ensure_pending_ledger_update
                   (AccountData.creditor_id data)
                   (AccountData.debtor_id data) s))
        else Ok (commit (creditor_id, debtor_id) st)
    end.

(** The database evaluates the filter on [negligible_amount] of
    [process_rejected_config_signal]; it is written here as Python would
    evaluate it on binary64 values. *)
Definition process_rejected_config_signal (current_ts : datetime)
  (debtor_id creditor_id : Z) (config_ts : datetime) (config_seqnum : Z)
  (negligible_amount : float) (config_data : string) (config_flags : Z)
  (rejection_code : string) (s : db) : db :=
  match account_data s !! (creditor_id, debtor_id) with
  | Some data =>
    if (AccountData.last_config_ts data =? config_ts)
       && (AccountData.last_config_seqnum data =? config_seqnum)
       && (AccountData.config_flags data =? config_flags)
       && bool_decide (AccountData.config_data data = config_data)
       && bool_decide (AccountData.config_error data = None)
       && (abs (AccountData.negligible_amount data - negligible_amount)
           <=? EPS * negligible_amount)%float
    then
      let data := AccountData.set_config_error (Some rejection_code) data in
      commit (creditor_id, debtor_id)
        (_insert_info_update_pending_log_entry (data, s) current_ts)
    else s
  | None => s
  end.

Definition process_account_purge_signal (current_ts : datetime)
  (debtor_id creditor_id : Z) (creation_date : date) (s : db) : db :=
  match account_data s !! (creditor_id, debtor_id) with
  | Some data =>
    if AccountData.has_server_account data
       && (AccountData.creation_date data <=? creation_date)
    then
      let data := AccountData.set_has_server_account false data in
      let data := AccountData.set_principal 0 data in
      let data := AccountData.set_interest 0%float data in
      commit (creditor_id, debtor_id)
        (_insert_info_update_pending_log_entry (data, s) current_ts)
    else s
  | None => s
  end.

End AccountUpdateSignals.

(** *** Vocabulary of the ledger properties *)

Definition sum_acquired_amounts (entries : list LedgerEntry.t) : Z :=
  foldr (fun e acc => LedgerEntry.acquired_amount e + acc) 0 entries.

(** A correcting entry is not linked to a transfer. *)
Definition is_correcting_entry (e : LedgerEntry.t) : Prop :=
  LedgerEntry.transfer_number e = None.

Definition add_ledger_entries (entries : list LedgerEntry.t) (s : db) : db :=
  mkdb (account_data s) (committed_transfer s) (pending_ledger_update s)
    (ledger_entry s ++ entries) (pending_log_entry s)
    (updated_ledger_signal s) (configure_account_signal s) (uid_seq s).

End AccountUpdates.

(** ** procedures/creditors.py *)

Module Creditors.

(** The columns of [Creditor] that the procedures below read or write. *)
Module Creditor.
Record t : Type := mk {
  creditor_id : Z;
  is_active : bool;
  deactivated_at_date : option date;
  last_log_entry_id : Z;
  creditor_latest_update_id : Z;
  creditor_latest_update_ts : datetime;
  transfer_list_latest_update_id : Z;
  transfer_list_latest_update_ts : datetime
}.

Definition set_last_log_entry_id (v : Z) (c : t) : t :=
  mk (creditor_id c) (is_active c) (deactivated_at_date c) v
    (creditor_latest_update_id c) (creditor_latest_update_ts c)
    (transfer_list_latest_update_id c) (transfer_list_latest_update_ts c).

Definition set_creditor_latest_update_id (v : Z) (c : t) : t :=
  mk (creditor_id c) (is_active c) (deactivated_at_date c)
    (last_log_entry_id c) v (creditor_latest_update_ts c)
    (transfer_list_latest_update_id c) (transfer_list_latest_update_ts c).

Definition set_creditor_latest_update_ts (v : datetime) (c : t) : t :=
  mk (creditor_id c) (is_active c) (deactivated_at_date c)
    (last_log_entry_id c) (creditor_latest_update_id c) v
    (transfer_list_latest_update_id c) (transfer_list_latest_update_ts c).

Definition set_transfer_list_latest_update_id (v : Z) (c : t) : t :=
  mk (creditor_id c) (is_active c) (deactivated_at_date c)
    (last_log_entry_id c) (creditor_latest_update_id c)
    (creditor_latest_update_ts c) v (transfer_list_latest_update_ts c).

Definition set_transfer_list_latest_update_ts (v : datetime) (c : t) : t :=
  mk (creditor_id c) (is_active c) (deactivated_at_date c)
    (last_log_entry_id c) (creditor_latest_update_id c)
    (creditor_latest_update_ts c) (transfer_list_latest_update_id c) v.

(** Modelled from the spec: [Creditor.generate_log_entry_id] of
    models/creditors.py, which is not part of the sources at hand.  4.4
    assigns the next [entry_id] from the creditor's counter, and the flush
    bumps the [last_log_entry_id] watermark. *)
Definition generate_log_entry_id (c : t) : Z * t :=
  let c := set_last_log_entry_id (last_log_entry_id c + 1) c in
  (last_log_entry_id c, c).
End Creditor.

(** [pending_entry_id] is the serial primary key: the insertion order. *)
Module PendingLogEntry.
Record t : Type := mk {
  creditor_id : Z;
  pending_entry_id : Z;
  object_type : string;
  object_uri : string;
  object_update_id : option Z;
  added_at_ts : datetime;
  is_deleted : bool;
  data : option string
}.
End PendingLogEntry.

(** What [get_paths_and_types] gives, as far as these procedures use it. *)
Module types.
Record t : Type := mk {
  creditor : string;
  transfer : string;
  transfer_list : string
}.
End types.

Module paths.
Record t : Type := mk {
  creditor : Z -> string;
  transfer_list : Z -> string
}.
End paths.

Record db : Type := mkdb {
  creditor : gmap Z Creditor.t;
  pending_log_entry : list PendingLogEntry.t;
  log_entry : list LogEntry.t
}.

(** A locked [Creditor] object and the session it belongs to. *)
Definition txn : Type := (Creditor.t * db)%type.

Definition commit (creditor_id : Z) (st : txn) : db :=
  mkdb (<[creditor_id := fst st]> (creditor (snd st)))
    (pending_log_entry (snd st)) (log_entry (snd st)).

(** Modelled from the spec: [allow_update] of procedures/common.py, which
    is not part of the sources at hand.  4.1: a write supplies the stored
    update id incremented by exactly one; a request whose id the stored id
    already equals and which changes nothing is a no-op repeat
    ([AlreadyUpToDate]); any other mismatch is a conflict.  [update] lists,
    for each field to write, whether the object differs in it and how to
    write it; the result is the [perform_update] closure. *)
Definition allow_update {A : Type} (get_update_id : A -> Z)
  (set_update_id : Z -> A -> A) (obj : A) (update_id : Z)
  (update : list ((A -> bool) * (A -> A))) : result (A -> A) :=
  let has_changes := existsb (fun field => fst field obj) update in
  let latest_update_id := get_update_id obj in
  if (update_id =? latest_update_id) && negb has_changes
  then Raise AlreadyUpToDate
  else if negb (update_id =? latest_update_id + 1)
  then Raise UpdateConflict
  else
    Ok (fun obj =>
          fold_left (fun obj field => snd field obj) update
            (set_update_id update_id obj)).

Section Procedures.

(** [get_paths_and_types] and the [is_created] attribute of
    [PendingLogEntry] are not part of the sources at hand: they are
    parameters here. *)
Context (paths : paths.t) (types : types.t).
Context (is_created : PendingLogEntry.t -> bool).

Definition _add_log_entry (st : txn) (added_at_ts : datetime)
  (object_type object_uri : string) (object_update_id : option Z)
  (is_deleted : bool) (data : option string) : txn :=
  let '(entry_id, creditor) := Creditor.generate_log_entry_id (fst st) in
  (creditor,
   mkdb (Creditors.creditor (snd st)) (pending_log_entry (snd st))
     (log_entry (snd st)
      ++ [LogEntry.mk
            (Creditor.creditor_id creditor)
            entry_id
            object_type
            object_uri
            object_update_id
            added_at_ts
            is_deleted
            data])).

Definition get_creditor (creditor_id : Z) (s : db) : option Creditor.t :=
  match creditor s !! creditor_id with
  | Some creditor =>
    if Creditor.is_active creditor
       && bool_decide (Creditor.deactivated_at_date creditor = None)
    then Some creditor
    else None
  | None => None
  end.

(** Returns the creditor and the committed state. *)
Definition update_creditor (current_ts : datetime) (creditor_id : Z)
  (latest_update_id : Z) (s : db) : result (Creditor.t * db) :=
  assert ((1 <=? latest_update_id) && (latest_update_id <=? MAX_INT64));;
  match get_creditor creditor_id s with
  | None => Raise CreditorDoesNotExist
  | Some creditor =>
    match
      allow_update Creditor.creditor_latest_update_id
        Creditor.set_creditor_latest_update_id creditor latest_update_id []
    with
    | Raise AlreadyUpToDate => Ok (creditor, s)
    | Raise e => Raise e
    | Ok perform_update =>
      let creditor :=
        Creditor.set_creditor_latest_update_ts current_ts creditor in
      let creditor := perform_update creditor in
      let st :=
        _add_log_entry (creditor, s) current_ts
          (types.creditor types)
          (paths.creditor paths creditor_id)
          (Some (Creditor.creditor_latest_update_id creditor))
          false None in
      Ok (fst st, commit creditor_id st)
    end
  end.

(** [db.session.delete(entry)] *)
Definition delete_pending_log_entry (entry : PendingLogEntry.t) (s : db)
  : db :=
  mkdb (creditor s)
    (filter
       (fun e =>
          PendingLogEntry.pending_entry_id e
          ≠ PendingLogEntry.pending_entry_id entry)
       (pending_log_entry s))
    (log_entry s).

(** The [for entry in pending_log_entries] loop of
    [process_pending_log_entries]. *)
Fixpoint flush_pending_log_entries (creditor_id : Z)
  (pending_log_entries : list PendingLogEntry.t) (st : txn) : txn :=
  match pending_log_entries with
  | [] => st
  | entry :: pending_log_entries' =>
    let st :=
      _add_log_entry st
        (PendingLogEntry.added_at_ts entry)
        (PendingLogEntry.object_type entry)
        (PendingLogEntry.object_uri entry)
        (PendingLogEntry.object_update_id entry)
        (PendingLogEntry.is_deleted entry)
        (PendingLogEntry.data entry) in
    let st :=
      if bool_decide (PendingLogEntry.object_type entry = types.transfer types)
         && (is_created entry || PendingLogEntry.is_deleted entry)
      then
        let creditor :=
          Creditor.set_transfer_list_latest_update_id
            (Creditor.transfer_list_latest_update_id (fst st) + 1) (fst st) in
        let creditor :=
          Creditor.set_transfer_list_latest_update_ts
            (PendingLogEntry.added_at_ts entry) creditor in
        _add_log_entry (creditor, snd st)
          (Creditor.transfer_list_latest_update_ts creditor)
          (types.transfer_list types)
          (paths.transfer_list paths creditor_id)
          (Some (Creditor.transfer_list_latest_update_id creditor))
          false None
      else st in
    flush_pending_log_entries creditor_id pending_log_entries'
      (fst st, delete_pending_log_entry entry (snd st))
  end.

(** The query of [process_pending_log_entries]. *)
Definition get_pending_log_entries (creditor_id : Z) (s : db)
  : list PendingLogEntry.t :=
  order_by PendingLogEntry.pending_entry_id
    (filter (fun e => PendingLogEntry.creditor_id e = creditor_id)
       (pending_log_entry s)).

Definition process_pending_log_entries (creditor_id : Z) (s : db) : db :=
  match creditor s !! creditor_id with
  | None => s
  | Some creditor =>
    let pending_log_entries := get_pending_log_entries creditor_id s in
    match pending_log_entries with
    | [] => s
    | _ =>
      commit creditor_id
        (flush_pending_log_entries creditor_id pending_log_entries
           (creditor, s))
    end
  end.

(** *** Vocabulary of the log flush *)

(** The entry concerns the creation or the deletion of a transfer. *)
Definition records_transfer_list_change (entry : PendingLogEntry.t) : bool :=
  bool_decide (PendingLogEntry.object_type entry = types.transfer types)
  && (is_created entry || PendingLogEntry.is_deleted entry).

(** The durable copy of a pending entry. *)
Definition durable_copy (creditor_id entry_id : Z)
  (entry : PendingLogEntry.t) : LogEntry.t :=
  LogEntry.mk creditor_id entry_id
    (PendingLogEntry.object_type entry)
    (PendingLogEntry.object_uri entry)
    (PendingLogEntry.object_update_id entry)
    (PendingLogEntry.added_at_ts entry)
    (PendingLogEntry.is_deleted entry)
    (PendingLogEntry.data entry).

(** The entry that tells of a new version of the list of transfers. *)
Definition transfer_list_entry (creditor_id entry_id update_id : Z)
  (entry : PendingLogEntry.t) : LogEntry.t :=
  LogEntry.mk creditor_id entry_id
    (types.transfer_list types)
    (paths.transfer_list paths creditor_id)
    (Some update_id)
    (PendingLogEntry.added_at_ts entry)
    false
    None.

(** [flushed creditor_id last_id list_id entries rows]: [rows] are the
    durable entries that 4.4 asks for the pending [entries], when the last
    entry id given was [last_id] and the list of transfers is at version
    [list_id]. *)
Inductive flushed (creditor_id : Z)
  : Z -> Z -> list PendingLogEntry.t -> list LogEntry.t -> Prop :=
| flushed_nil last_id list_id :
    flushed creditor_id last_id list_id [] []
| flushed_plain last_id list_id entry entries rows :
    records_transfer_list_change entry = false ->
    flushed creditor_id (last_id + 1) list_id entries rows ->
    flushed creditor_id last_id list_id (entry :: entries)
      (durable_copy creditor_id (last_id + 1) entry :: rows)
| flushed_transfer last_id list_id entry entries rows :
    records_transfer_list_change entry = true ->
    flushed creditor_id (last_id + 2) (list_id + 1) entries rows ->
    flushed creditor_id last_id list_id (entry :: entries)
      (durable_copy creditor_id (last_id + 1) entry
       :: transfer_list_entry creditor_id (last_id + 2) (list_id + 1) entry
       :: rows).

(** Entry ids [first], [first + 1], ... *)
Fixpoint consecutive (first : Z) (ids : list Z) : Prop :=
  match ids with
  | [] => True
  | id :: ids' => id = first /\ consecutive (first + 1) ids'
  end.
End Procedures.

Definition activate_creditor (creditor_id : Z) (s : db) : db :=
  match creditor s !! creditor_id with
  | Some creditor =>
    commit creditor_id
      (Creditor.mk
         (Creditor.creditor_id creditor)
         true
         (Creditor.deactivated_at_date creditor)
         (Creditor.last_log_entry_id creditor)
         (Creditor.creditor_latest_update_id creditor)
         (Creditor.creditor_latest_update_ts creditor)
         (Creditor.transfer_list_latest_update_id creditor)
         (Creditor.transfer_list_latest_update_ts creditor),
       s)
  | None => s
  end.

Definition get_creditors_with_pending_log_entries (s : db) : gset Z :=
  list_to_set (map PendingLogEntry.creditor_id (pending_log_entry s)).

(** Returns the page and the [last_log_entry_id] of the creditor. *)
Definition get_creditor_log_entries (creditor_id : Z) (count prev : Z)
  (s : db) : result (list LogEntry.t * Z) :=
  assert (1 <=? count);;
  assert ((0 <=? prev) && (prev <=? MAX_INT64));;
  match creditor s !! creditor_id with
  | None => Raise CreditorDoesNotExist
  | Some creditor =>
    log_entries ←
      limit count
        (order_by LogEntry.entry_id
           (filter
              (fun e =>
                 LogEntry.creditor_id e = creditor_id
                 /\ prev < LogEntry.entry_id e)
              (log_entry s)));
    Ok (log_entries, Creditor.last_log_entry_id creditor)
  end.

End Creditors.

(** ** procedures/creditors.py: the accounts of a creditor *)

Module Accounts.

(** What [get_paths_and_types] gives, as far as these procedures use it. *)
Module types.
Record t : Type := mk {
  account : string;
  account_list : string;
  account_config : string;
  account_info : string;
  account_ledger : string;
  account_display : string;
  account_exchange : string;
  account_knowledge : string
}.
End types.

(** A path of an account takes [creditorId] and [debtorId]. *)
Module paths.
Record t : Type := mk {
  account : Z -> Z -> string;
  account_list : Z -> string;
  account_config : Z -> Z -> string;
  account_info : Z -> Z -> string;
  account_ledger : Z -> Z -> string;
  account_display : Z -> Z -> string;
  account_exchange : Z -> Z -> string;
  account_knowledge : Z -> Z -> string
}.
End paths.

(** The columns of the [Creditor] row that tell the version of the
    creditor's list of accounts.  They are kept beside
    [Creditors.Creditor.t], which holds the other columns of the same
    row. *)
Module AccountList.
Record t : Type := mk {
  account_list_latest_update_id : Z;
  account_list_latest_update_ts : datetime
}.
End AccountList.

(** An [Account] with its four facets, as far as these procedures name
    their columns.  The row is stored under its primary key
    [(creditor_id, debtor_id)]; [is_deletion_safe] and
    [allow_unsafe_deletion] are attributes of its [AccountData],
    [peg_debtor_id] a column of its [AccountExchange]. *)
Module Account.
Record t : Type := mk {
  created_at_ts : datetime;
  latest_update_ts : datetime;
  knowledge_latest_update_ts : datetime;
  exchange_latest_update_ts : datetime;
  display_latest_update_ts : datetime;
  last_config_ts : datetime;
  last_config_seqnum : Z;
  config_latest_update_ts : datetime;
  info_latest_update_ts : datetime;
  ledger_latest_update_ts : datetime;
  is_deletion_safe : bool;
  allow_unsafe_deletion : bool;
  peg_debtor_id : option Z
}.
End Account.

Module ConfigureAccountSignal.
Record t : Type := mk {
  debtor_id : Z;
  creditor_id : Z;
  ts : datetime;
  seqnum : Z;
  negligible_amount : float;
  config_flags : Z;
  config : string
}.
End ConfigureAccountSignal.

(** [base] holds the creditors, with the columns of [Creditors.Creditor.t],
    and the log; [account_list] the remaining columns of the creditors'
    rows, under the same keys. *)
Record db : Type := mkdb {
  base : Creditors.db;
  account_list : gmap Z AccountList.t;
  account : gmap (Z * Z) Account.t;
  configure_account_signal : list ConfigureAccountSignal.t
}.

(** The exceptions of procedures/errors.py that these procedures raise. *)
Inductive error : Type :=
| AssertionError
| CreditorDoesNotExist
| AccountExists
| AccountDoesNotExist
| UnsafeAccountDeletion
| ForbiddenPegDeletion.

Inductive outcome (A : Type) : Type :=
| Returns (a : A)
| Raises (e : error).
Arguments Returns {A} a.
Arguments Raises {A} e.

(** A locked [Creditor] object, and the session it belongs to. *)
Definition locked : Type := (Creditors.Creditor.t * AccountList.t)%type.
Definition txn : Type := (locked * db)%type.

Definition commit (creditor_id : Z) (st : txn) : db :=
  mkdb
    (Creditors.commit creditor_id (fst (fst st), base (snd st)))
    (<[creditor_id := snd (fst st)]> (account_list (snd st)))
    (account (snd st))
    (configure_account_signal (snd st)).

(** [get_creditor(creditor_id, lock=True)] *)
Definition get_creditor (creditor_id : Z) (s : db) : option locked :=
  match Creditors.get_creditor creditor_id (base s),
        account_list s !! creditor_id with
  | Some creditor, Some list_version => Some (creditor, list_version)
  | _, _ => None
  end.

(** [_add_log_entry] of procedures/creditors.py, on the creditor's object
    and the log of [base]. *)
Definition _add_log_entry (st : txn) (added_at_ts : datetime)
  (object_type object_uri : string) (object_update_id : option Z)
  (is_deleted : bool) : txn :=
  let logged :=
    Creditors._add_log_entry (fst (fst st), base (snd st)) added_at_ts
      object_type object_uri object_update_id is_deleted None in
  ((fst logged, snd (fst st)),
   mkdb (snd logged) (account_list (snd st)) (account (snd st))
     (configure_account_signal (snd st))).

(** [creditor.account_list_latest_update_id += 1] and the timestamp. *)
Definition bump_account_list (current_ts : datetime) (st : txn) : txn :=
  ((fst (fst st),
    AccountList.mk
      (AccountList.account_list_latest_update_id (snd (fst st)) + 1)
      current_ts),
   snd st).

Definition has_account (creditor_id debtor_id : Z) (s : db) : bool :=
  bool_decide (is_Some (account s !! (creditor_id, debtor_id))).

Section Procedures.

(** [get_paths_and_types], the constants of the models and the defaults of
    the columns that [_create_new_account] does not set are not part of the
    sources at hand: they are parameters here. *)
Context (paths : paths.t) (types : types.t).
Context (DEFAULT_NEGLIGIBLE_AMOUNT : float) (DEFAULT_CONFIG_FLAGS : Z).
Context (default_is_deletion_safe default_allow_unsafe_deletion : bool).
Context (default_peg_debtor_id : option Z).

Definition _create_new_account (st : txn) (debtor_id : Z)
  (current_ts : datetime) : Account.t * txn :=
  let creditor_id := Creditors.Creditor.creditor_id (fst (fst st)) in
  let st :=
    _add_log_entry st current_ts
      (types.account types)
      (paths.account paths creditor_id debtor_id)
      (Some 1)
      false in
  let st := bump_account_list current_ts st in
  let st :=
    _add_log_entry st current_ts
      (types.account_list types)
      (paths.account_list paths creditor_id)
      (Some (AccountList.account_list_latest_update_id (snd (fst st))))
      false in
  let new_account :=
    {| Account.created_at_ts := current_ts;
       Account.latest_update_ts := current_ts;
       Account.knowledge_latest_update_ts := current_ts;
       Account.exchange_latest_update_ts := current_ts;
       Account.display_latest_update_ts := current_ts;
       Account.last_config_ts := current_ts;
       Account.last_config_seqnum := 0;
       Account.config_latest_update_ts := current_ts;
       Account.info_latest_update_ts := current_ts;
       Account.ledger_latest_update_ts := current_ts;
       Account.is_deletion_safe := default_is_deletion_safe;
       Account.allow_unsafe_deletion := default_allow_unsafe_deletion;
       Account.peg_debtor_id := default_peg_debtor_id |} in
  (new_account,
   (fst st,
    mkdb (base (snd st)) (account_list (snd st))
      (<[(creditor_id, debtor_id) := new_account]> (account (snd st)))
      (configure_account_signal (snd st)
       ++ [ConfigureAccountSignal.mk
             debtor_id
             creditor_id
             current_ts
             0
             DEFAULT_NEGLIGIBLE_AMOUNT
             DEFAULT_CONFIG_FLAGS
             EmptyString]))).

Definition create_new_account (current_ts : datetime)
  (creditor_id debtor_id : Z) (s : db) : outcome (Account.t * db) :=
  if negb ((MIN_INT64 <=? debtor_id) && (debtor_id <=? MAX_INT64))
  then Raises AssertionError
  else
    match get_creditor creditor_id s with
    | None => Raises CreditorDoesNotExist
    | Some creditor =>
      if has_account creditor_id debtor_id s then Raises AccountExists
      else
        let created :=
          _create_new_account (creditor, s) debtor_id current_ts in
        Returns (fst created, commit creditor_id (snd created))
    end.

(** The accounts of the creditor that are pegged to [debtor_id]. *)
Definition has_pegged_accounts (creditor_id debtor_id : Z) (s : db) : bool :=
  existsb
    (fun row =>
       (fst (fst row) =? creditor_id)
       && bool_decide (Account.peg_debtor_id (snd row) = Some debtor_id))
    (map_to_list (account s)).

(** The deletion events of [delete_account], in their order. *)
Definition deletion_events (creditor_id debtor_id : Z)
  : list (string * string) :=
  [(types.account types, paths.account paths creditor_id debtor_id);
   (types.account_config types,
    paths.account_config paths creditor_id debtor_id);
   (types.account_info types, paths.account_info paths creditor_id debtor_id);
   (types.account_ledger types,
    paths.account_ledger paths creditor_id debtor_id);
   (types.account_display types,
    paths.account_display paths creditor_id debtor_id);
   (types.account_exchange types,
    paths.account_exchange paths creditor_id debtor_id);
   (types.account_knowledge types,
    paths.account_knowledge paths creditor_id debtor_id)].

(** The query of [delete_account] joins the account's data with the row of
    its creditor, whatever the creditor's status. *)
Definition delete_account (current_ts : datetime) (creditor_id debtor_id : Z)
  (s : db) : outcome db :=
  match account s !! (creditor_id, debtor_id),
        Creditors.creditor (base s) !! creditor_id,
        account_list s !! creditor_id with
  | Some data, Some creditor, Some list_version =>
    if negb (Account.is_deletion_safe data
             || Account.allow_unsafe_deletion data)
    then Raises UnsafeAccountDeletion
    else if has_pegged_accounts creditor_id debtor_id s
    then Raises ForbiddenPegDeletion
    else
      let s :=
        mkdb (base s) (account_list s)
          (delete (creditor_id, debtor_id) (account s))
          (configure_account_signal s) in
      let st := bump_account_list current_ts ((creditor, list_version), s) in
      let st :=
        _add_log_entry st current_ts
          (types.account_list types)
          (paths.account_list paths creditor_id)
          (Some (AccountList.account_list_latest_update_id (snd (fst st))))
          false in
      let st :=
        fold_left
          (fun st event =>
             _add_log_entry st current_ts (fst event) (snd event) None true)
          (deletion_events creditor_id debtor_id) st in
      Returns (commit creditor_id st)
  | _, _, _ => Raises AccountDoesNotExist
  end.

End Procedures.

(** [prev] is optional. *)
Definition get_creditor_debtor_ids (creditor_id : Z) (count : Z)
  (prev : option Z) (s : db) : outcome (list Z) :=
  if negb (1 <=? count) then Raises AssertionError
  else if negb
            match prev with
            | None => true
            | Some prev => (MIN_INT64 <=? prev) && (prev <=? MAX_INT64)
            end
  then Raises AssertionError
  else
    let debtor_ids :=
      map (fun row => snd (fst row))
        (filter (fun row => fst (fst row) = creditor_id)
           (map_to_list (account s))) in
    let debtor_ids :=
      match prev with
      | Some prev => filter (fun debtor_id => prev < debtor_id) debtor_ids
      | None => debtor_ids
      end in
    Returns (firstn (Z.to_nat count) (order_by id debtor_ids)).

End Accounts.

(** ** procedures/transfers.py

    The file is not part of the sources at hand.  Its procedures are
    modelled from 4.3 of the specification and from the calls and
    assertions of tests/test_procedures.py; the models are those of
    models/transfers.py. *)

Module Transfers.

Module FinalizeTransferSignal.
Record t : Type := mk {
  creditor_id : Z;
  debtor_id : Z;
  transfer_id : Z;
  coordinator_id : Z;
  coordinator_request_id : Z;
  committed_amount : Z;
  transfer_note_format : string;
  transfer_note : string
}.
End FinalizeTransferSignal.

(** The attributes of a pending log entry that the tests read. *)
Module PendingLogEntry.
Record t : Type := mk {
  creditor_id : Z;
  added_at : datetime;
  object_type_hint : LogEntry.object_type_hint;
  transfer_uuid : option Z;
  debtor_id : option Z;
  creation_date : option date;
  transfer_number : option Z;
  object_update_id : option Z;
  is_deleted : bool;
  data_finalized_at : option datetime;
  data_error_code : option string
}.
End PendingLogEntry.

(** [running_transfer] has the primary key [(creditor_id, transfer_uuid)]
    and the unique index [(creditor_id, coordinator_request_id)];
    [committed_transfer] has the primary key
    [(creditor_id, debtor_id, creation_date, transfer_number)];
    [account_data] holds the keys of the existing accounts. *)
Record db : Type := mkdb {
  running_transfer : list RunningTransfer.t;
  finalize_transfer_signal : list FinalizeTransferSignal.t;
  pending_log_entry : list PendingLogEntry.t;
  committed_transfer : list CommittedTransfer.t;
  account_data : gset (Z * Z);
  pending_ledger_update : gset (Z * Z)
}.

Definition add_finalize_transfer_signal (e : FinalizeTransferSignal.t)
  (s : db) : db :=
  mkdb (running_transfer s) (finalize_transfer_signal s ++ [e])
    (pending_log_entry s) (committed_transfer s) (account_data s)
    (pending_ledger_update s).

Definition add_pending_log_entry (e : PendingLogEntry.t) (s : db) : db :=
  mkdb (running_transfer s) (finalize_transfer_signal s)
    (pending_log_entry s ++ [e]) (committed_transfer s) (account_data s)
    (pending_ledger_update s).

(** Writes a changed [RunningTransfer] object back to its row. *)
Definition update_running_transfer (rt : RunningTransfer.t) (s : db) : db :=
  mkdb
    (map
       (fun row =>
          if (RunningTransfer.creditor_id row
              =? RunningTransfer.creditor_id rt)
             && (RunningTransfer.transfer_uuid row
                 =? RunningTransfer.transfer_uuid rt)
          then rt
          else row)
       (running_transfer s))
    (finalize_transfer_signal s) (pending_log_entry s)
    (committed_transfer s) (account_data s) (pending_ledger_update s).

(** Modelled from the spec: the lookup of a running transfer by its primary
    key, for the client's requests (3: keyed by creditor and
    client-supplied transfer UUID). *)
Definition get_running_transfer (creditor_id transfer_uuid : Z) (s : db)
  : option RunningTransfer.t :=
  find
    (fun rt =>
       (RunningTransfer.creditor_id rt =? creditor_id)
       && (RunningTransfer.transfer_uuid rt =? transfer_uuid))
    (running_transfer s).

(** Modelled from the spec: the correlation of an asynchronous reply with a
    running transfer (5: keyed by creditor and [coordinator_request_id]). *)
Definition _find_running_transfer (coordinator_id coordinator_request_id : Z)
  (s : db) : option RunningTransfer.t :=
  find
    (fun rt =>
       (RunningTransfer.creditor_id rt =? coordinator_id)
       && (RunningTransfer.coordinator_request_id rt
           =? coordinator_request_id))
    (running_transfer s).

(** Modelled from the spec: finalization (4.3, 5).  Only the first
    finalization wins; it sets [finalized_at], [error_code] and the
    total locked amount, bumps [latest_update_id] and enqueues a
    transfer-change log entry that carries [finalized_at] and [error_code]
    only. *)
Definition _finalize_running_transfer (current_ts : datetime)
  (rt : RunningTransfer.t) (error_code : option string)
  (total_locked_amount : option Z) (s : db) : RunningTransfer.t * db :=
  if RunningTransfer.is_finalized rt then (rt, s)
  else
    let rt :=
      {| RunningTransfer.creditor_id := RunningTransfer.creditor_id rt;
         RunningTransfer.transfer_uuid := RunningTransfer.transfer_uuid rt;
         RunningTransfer.debtor_id := RunningTransfer.debtor_id rt;
         RunningTransfer.amount := RunningTransfer.amount rt;
         RunningTransfer.recipient_uri := RunningTransfer.recipient_uri rt;
         RunningTransfer.recipient := RunningTransfer.recipient rt;
         RunningTransfer.transfer_note_format :=
           RunningTransfer.transfer_note_format rt;
         RunningTransfer.transfer_note := RunningTransfer.transfer_note rt;
         RunningTransfer.initiated_at := RunningTransfer.initiated_at rt;
         RunningTransfer.finalized_at := Some current_ts;
         RunningTransfer.error_code := error_code;
         RunningTransfer.total_locked_amount := total_locked_amount;
         RunningTransfer.deadline := RunningTransfer.deadline rt;
         RunningTransfer.final_interest_rate_ts :=
           RunningTransfer.final_interest_rate_ts rt;
         RunningTransfer.locked_amount := RunningTransfer.locked_amount rt;
         RunningTransfer.coordinator_request_id :=
           RunningTransfer.coordinator_request_id rt;
         RunningTransfer.transfer_id := RunningTransfer.transfer_id rt;
         RunningTransfer.latest_update_id :=
           RunningTransfer.latest_update_id rt + 1;
         RunningTransfer.latest_update_ts := current_ts |} in
    (rt,
     add_pending_log_entry
       (PendingLogEntry.mk
          (RunningTransfer.creditor_id rt)
          current_ts
          LogEntry.OTH_TRANSFER
          (Some (RunningTransfer.transfer_uuid rt))
          None None None
          (Some (RunningTransfer.latest_update_id rt))
          false
          (RunningTransfer.finalized_at rt)
          (RunningTransfer.error_code rt))
       (update_running_transfer rt s)).

(** Modelled from the spec: [process_prepared_direct_transfer_signal]
    (4.3, "On prepared reply").  A reply for a still-unprepared open
    transfer records [transfer_id], bumps [latest_update_id] and emits the
    finalize request with the full requested amount; every other reply
    (duplicate or stale) is answered with a finalize request with zero
    amount and changes nothing locally. *)
Definition process_prepared_direct_transfer_signal
  (debtor_id creditor_id transfer_id coordinator_id coordinator_request_id
     locked_amount : Z)
  (recipient : string) (s : db) : result db :=
  let dismiss :=
    add_finalize_transfer_signal
      (FinalizeTransferSignal.mk creditor_id debtor_id transfer_id
         coordinator_id coordinator_request_id 0 EmptyString EmptyString)
      s in
  match _find_running_transfer coordinator_id coordinator_request_id s with
  | Some rt =>
    if negb (RunningTransfer.is_finalized rt)
       && negb (RunningTransfer.is_settled rt)
    then
      let rt :=
        {| RunningTransfer.creditor_id := RunningTransfer.creditor_id rt;
           RunningTransfer.transfer_uuid := RunningTransfer.transfer_uuid rt;
           RunningTransfer.debtor_id := RunningTransfer.debtor_id rt;
           RunningTransfer.amount := RunningTransfer.amount rt;
           RunningTransfer.recipient_uri := RunningTransfer.recipient_uri rt;
           RunningTransfer.recipient := RunningTransfer.recipient rt;
           RunningTransfer.transfer_note_format :=
             RunningTransfer.transfer_note_format rt;
           RunningTransfer.transfer_note := RunningTransfer.transfer_note rt;
           RunningTransfer.initiated_at := RunningTransfer.initiated_at rt;
           RunningTransfer.finalized_at := RunningTransfer.finalized_at rt;
           RunningTransfer.error_code := RunningTransfer.error_code rt;
           RunningTransfer.total_locked_amount :=
             RunningTransfer.total_locked_amount rt;
           RunningTransfer.deadline := RunningTransfer.deadline rt;
           RunningTransfer.final_interest_rate_ts :=
             RunningTransfer.final_interest_rate_ts rt;
           RunningTransfer.locked_amount := RunningTransfer.locked_amount rt;
           RunningTransfer.coordinator_request_id :=
             RunningTransfer.coordinator_request_id rt;
           RunningTransfer.transfer_id := Some transfer_id;
           RunningTransfer.latest_update_id :=
             RunningTransfer.latest_update_id rt + 1;
           RunningTransfer.latest_update_ts :=
             RunningTransfer.latest_update_ts rt |} in
      Ok (add_finalize_transfer_signal
            (FinalizeTransferSignal.mk
               (RunningTransfer.creditor_id rt)
               (RunningTransfer.debtor_id rt)
               transfer_id
               coordinator_id
               coordinator_request_id
               (RunningTransfer.amount rt)
               (RunningTransfer.transfer_note_format rt)
               (RunningTransfer.transfer_note rt))
            (update_running_transfer rt s))
    else Ok dismiss
  | None => Ok dismiss
  end.

(** The combinations of status and committed amount that 4.3 and 7 call
    internally inconsistent: a success status with a committed amount other
    than the requested one, or a failure status with a committed amount
    other than zero. *)
Definition is_inconsistent_reply (amount committed_amount : Z)
  (status_code : string) : bool :=
  if bool_decide (status_code = SC_OK)
  then negb (committed_amount =? amount)
  else negb (committed_amount =? 0).

(** Modelled from the spec: [process_finalized_direct_transfer_signal]
    (4.3, "On finalized reply").  For an un-finalized transfer with
    [transfer_id] set: an inconsistent reply finalizes with
    [SC_UNEXPECTED_ERROR]; otherwise a committed amount equal to the
    requested one finalizes as success, and any other finalizes as failure
    with the reply's status code and total locked amount.  A reply that
    matches no such transfer is ignored. *)
Definition process_finalized_direct_transfer_signal (current_ts : datetime)
  (debtor_id creditor_id transfer_id coordinator_id coordinator_request_id
     committed_amount : Z)
  (status_code : string) (total_locked_amount : Z) (s : db) : result db :=
  match _find_running_transfer coordinator_id coordinator_request_id s with
  | Some rt =>
    if negb (RunningTransfer.is_finalized rt) && RunningTransfer.is_settled rt
    then
      if is_inconsistent_reply (RunningTransfer.amount rt) committed_amount
           status_code
      then
        Ok (snd (_finalize_running_transfer current_ts rt
                   (Some SC_UNEXPECTED_ERROR) None s))
      else if committed_amount =? RunningTransfer.amount rt
      then Ok (snd (_finalize_running_transfer current_ts rt None None s))
      else
        Ok (snd (_finalize_running_transfer current_ts rt (Some status_code)
                   (Some total_locked_amount) s))
    else Ok s
  | None => Ok s
  end.

(** Modelled from the spec: [cancel_running_transfer] (4.3, 7).
    Cancellation is possible only before [transfer_id] is set; afterwards it
    is forbidden.  A cancelled transfer is finalized as a failure; the
    finalize request with zero amount goes out when the peer's prepared
    reply arrives for the transfer that is no longer open. *)
Definition cancel_running_transfer (current_ts : datetime)
  (creditor_id transfer_uuid : Z) (s : db)
  : result (RunningTransfer.t * db) :=
  match get_running_transfer creditor_id transfer_uuid s with
  | None => Raise TransferDoesNotExist
  | Some rt =>
    if RunningTransfer.is_settled rt then Raise ForbiddenTransferCancellation
    else
      Ok (_finalize_running_transfer current_ts rt
            (Some SC_CANCELED_BY_THE_SENDER) None s)
  end.

End Transfers.

(** ** schemas/transfers.py *)

Module Schemas.

(** models/common.py *)
Definition TRANSFER_NOTE_MAX_BYTES : Z := 500.

(** A Python [str]: the list of its code points. *)
Definition str : Type := list Z.

(** The number of bytes that UTF-8 takes for a code point; a surrogate has
    no encoding. *)
Definition utf8_size (code_point : Z) : option Z :=
  if code_point <? 0x80 then Some 1
  else if code_point <? 0x800 then Some 2
  else if (0xD800 <=? code_point) && (code_point <=? 0xDFFF) then None
  else if code_point <? 0x10000 then Some 3
  else Some 4.

(** [len(value.encode("utf8"))]; [None] when [encode] raises
    [UnicodeEncodeError]. *)
Fixpoint utf8_length (value : str) : option Z :=
  match value with
  | [] => Some 0
  | code_point :: value' =>
    match utf8_size code_point, utf8_length value' with
    | Some n, Some m => Some (n + m)
    | _, _ => None
    end
  end.

Inductive validation : Type :=
| Valid
| ValidationError
| UnicodeEncodeError.

(** [TransferCreationRequestSchema.validate_transfer_note] *)
Definition validate_transfer_note (value : str) : validation :=
  match utf8_length value with
  | None => UnicodeEncodeError
  | Some n => if TRANSFER_NOTE_MAX_BYTES <? n then ValidationError else Valid
  end.

(** The attributes that [process_running_transfer_instance] adds to the
    copy of a [RunningTransfer]. *)
Module TransferError.
Record t : Type := mk {
  error_code : string;
  total_locked_amount : option Z
}.
End TransferError.

Module TransferResult.
Record t : Type := mk {
  finalized_at : datetime;
  committed_amount : Z;
  error : option TransferError.t
}.
End TransferResult.

Module TransferOptions.
Record t : Type := mk {
  final_interest_rate_ts : datetime;
  locked_amount : Z;
  optional_deadline : option datetime
}.
End TransferOptions.

Module TransferObject.
Record t : Type := mk {
  uri : string;
  transfers_list : string;
  recipient_identity : string;
  options : TransferOptions.t;
  result : option TransferResult.t
}.
End TransferObject.

(** [TransferErrorSchema.get_total_locked_amount]; [None] is [missing]. *)
Definition get_total_locked_amount (obj : TransferError.t) : option Z :=
  if bool_decide
       (TransferError.error_code obj <> SC_INSUFFICIENT_AVAILABLE_AMOUNT)
  then None
  else
    Some
      match TransferError.total_locked_amount obj with
      | Some amount => if amount =? 0 then 0 else amount
      | None => 0
      end.

Section TransferSchema.

(** [self.context["paths"]] *)
Context (paths_transfer : Z -> Z -> string).
Context (paths_transfers_list : Z -> string).

(** [TransferSchema.process_running_transfer_instance] *)
Definition process_running_transfer_instance (obj : RunningTransfer.t)
  : TransferObject.t :=
  {| TransferObject.uri :=
       paths_transfer (RunningTransfer.creditor_id obj)
         (RunningTransfer.transfer_uuid obj);
     TransferObject.transfers_list :=
       paths_transfers_list (RunningTransfer.creditor_id obj);
     TransferObject.recipient_identity := RunningTransfer.recipient_uri obj;
     TransferObject.options :=
       {| TransferOptions.final_interest_rate_ts :=
            RunningTransfer.final_interest_rate_ts obj;
          TransferOptions.locked_amount := RunningTransfer.locked_amount obj;
          TransferOptions.optional_deadline := RunningTransfer.deadline obj |};
     TransferObject.result :=
       match RunningTransfer.finalized_at obj with
       | Some finalized_at =>
         Some
           match RunningTransfer.error_code obj with
           | None =>
             {| TransferResult.finalized_at := finalized_at;
                TransferResult.committed_amount := RunningTransfer.amount obj;
                TransferResult.error := None |}
           | Some error_code =>
             {| TransferResult.finalized_at := finalized_at;
                TransferResult.committed_amount := 0;
                TransferResult.error :=
                  Some
                    {| TransferError.error_code := error_code;
                       TransferError.total_locked_amount :=
                         RunningTransfer.total_locked_amount obj |} |}
           end
       | None => None
       end |}.

End TransferSchema.

End Schemas.

(** ** Vocabulary of the further properties *)

Module LedgerVocabulary.
Import AccountUpdates.

(** [assertion_fails r]: the call ended in a failed [assert]. *)
Definition assertion_fails {A : Type} (r : result A) : bool :=
  match r with
  | Raise AssertionError => true
  | _ => false
  end.

(** [explains start entries target]: each of the [entries] starts from the
    principal that the one before it left, beginning with [start], and the
    last one leaves [target]. *)
Fixpoint explains (start : Z) (entries : list LedgerEntry.t) (target : Z)
  : Prop :=
  match entries with
  | [] => start = target
  | e :: entries' =>
    LedgerEntry.principal e = start + LedgerEntry.acquired_amount e
    /\ explains (LedgerEntry.principal e) entries' target
  end.

(** [data] with the ledger columns of [ledger]. *)
Definition with_ledger_of (ledger data : AccountData.t) : AccountData.t :=
  AccountData.mk (AccountData.creditor_id data) (AccountData.debtor_id data)
    (AccountData.creation_date data) (AccountData.last_change_ts data)
    (AccountData.last_change_seqnum data) (AccountData.principal data)
    (AccountData.interest data) (AccountData.interest_rate data)
    (AccountData.last_interest_rate_change_ts data)
    (AccountData.transfer_note_max_bytes data)
    (AccountData.last_config_ts data) (AccountData.last_config_seqnum data)
    (AccountData.negligible_amount data) (AccountData.config_flags data)
    (AccountData.config_data data) (AccountData.config_error data)
    (AccountData.account_id data) (AccountData.debtor_info_iri data)
    (AccountData.debtor_info_content_type data)
    (AccountData.debtor_info_sha256 data)
    (AccountData.last_transfer_number data)
    (AccountData.last_transfer_committed_at data)
    (AccountData.last_heartbeat_ts data)
    (AccountData.has_server_account data)
    (AccountData.is_config_effectual data)
    (AccountData.ledger_principal ledger)
    (AccountData.ledger_last_entry_id ledger)
    (AccountData.ledger_last_transfer_number ledger)
    (AccountData.ledger_latest_update_id ledger)
    (AccountData.ledger_latest_update_ts ledger)
    (AccountData.ledger_pending_transfer_ts ledger).

(** [data'] differs from [data] in its ledger columns at most. *)
Definition same_info (data data' : AccountData.t) : Prop :=
  with_ledger_of data' data = data'.

(** The log entry [e] tells the state of the ledger of [data]. *)
Definition announces (e : PendingLogEntry.t) (data : AccountData.t) : Prop :=
  PendingLogEntry.creditor_id e = AccountData.creditor_id data
  /\ PendingLogEntry.object_type_hint e = Some LogEntry.OTH_ACCOUNT_LEDGER
  /\ PendingLogEntry.debtor_id e = Some (AccountData.debtor_id data)
  /\ PendingLogEntry.object_update_id e
     = Some (AccountData.ledger_latest_update_id data)
  /\ PendingLogEntry.data_principal e
     = Some (AccountData.ledger_principal data)
  /\ PendingLogEntry.data_next_entry_id e
     = Some (AccountData.ledger_last_entry_id data + 1).

(** The columns of a row of [_get_sorted_pending_transfers]. *)
Definition previous_transfer_number_of (t : pending_transfer) : Z :=
  let '(previous_transfer_number, _, _, _, _) := t in
  previous_transfer_number.
Definition transfer_number_of (t : pending_transfer) : Z :=
  let '(_, transfer_number, _, _, _) := t in transfer_number.
Definition acquired_amount_of (t : pending_transfer) : Z :=
  let '(_, _, acquired_amount, _, _) := t in acquired_amount.
Definition principal_of (t : pending_transfer) : Z :=
  let '(_, _, _, principal, _) := t in principal.
Definition committed_at_of (t : pending_transfer) : datetime :=
  let '(_, _, _, _, committed_at) := t in committed_at.

(** What became of the log entry that a step of the pass holds: either the
    ledger has not changed since, or [log_entry'] is a new entry that tells
    the state of the ledger of [data']. *)
Definition ledger_change_is_logged (current_ts : datetime)
  (data data' : AccountData.t) (entries : list LedgerEntry.t)
  (log_entry log_entry' : option PendingLogEntry.t) : Prop :=
  (log_entry' = log_entry
   /\ entries = []
   /\ AccountData.ledger_principal data' = AccountData.ledger_principal data
   /\ AccountData.ledger_latest_update_id data'
      = AccountData.ledger_latest_update_id data
   /\ AccountData.ledger_latest_update_ts data'
      = AccountData.ledger_latest_update_ts data)
  \/ (exists e,
        log_entry' = Some e
        /\ announces e data'
        /\ PendingLogEntry.added_at e = current_ts
        /\ AccountData.ledger_latest_update_id data
           < AccountData.ledger_latest_update_id data'
        /\ AccountData.ledger_latest_update_ts data' = current_ts).


(** How a pass that returns [log_entry] leaves the log, the signals and the
    update-id sequence of [s]. *)
Definition pass_output (current_ts : datetime) (creditor_id debtor_id : Z)
  (data' : AccountData.t) (log_entry : option PendingLogEntry.t)
  (s s' : db) : Prop :=
  match log_entry with
  | None =>
    pending_log_entry s' = pending_log_entry s
    /\ updated_ledger_signal s' = updated_ledger_signal s
    /\ uid_seq s' = uid_seq s
  | Some e =>
    pending_log_entry s' = pending_log_entry s ++ [e]
    /\ updated_ledger_signal s'
       = updated_ledger_signal s
         ++ [UpdatedLedgerSignal.mk creditor_id debtor_id
               (AccountData.ledger_latest_update_id data')
               (AccountData.account_id data')
               (AccountData.creation_date data')
               (AccountData.ledger_principal data')
               (AccountData.ledger_last_transfer_number data')
               current_ts]
    /\ uid_seq s'
       = Z.max (uid_seq s + 1) (AccountData.ledger_latest_update_id data')
  end.


(** The state that a call leaves: the committed one, or the old one if the
    call raised and its transaction was rolled back. *)
Definition state_after {A} (r : result (A * db)) (s : db) : db :=
  match r with
  | Ok (_, s') => s'
  | Raise _ => s
  end.


End LedgerVocabulary.

Module LogVocabulary.
Import Creditors.

(** The log of a creditor is sound when the creditor's row is stored under
    its id, no entry of the creditor is above the row's
    [last_log_entry_id], and the creditor's entries have distinct ids. *)
Definition log_is_sound (creditor_id : Z) (s : db) : Prop :=
  forall row,
    creditor s !! creditor_id = Some row ->
    Creditor.creditor_id row = creditor_id
    /\ Forall (fun e => LogEntry.creditor_id e = creditor_id ->
                        LogEntry.entry_id e
                        <= Creditor.last_log_entry_id row)
         (log_entry s)
    /\ NoDup (map LogEntry.entry_id
                (filter (fun e => LogEntry.creditor_id e = creditor_id)
                   (log_entry s))).

Section FlushVocabulary.
Context (types : types.t) (is_created : PendingLogEntry.t -> bool).

(** The pending entries that record the creation or the deletion of a
    transfer. *)
Definition transfer_list_changes (entries : list PendingLogEntry.t)
  : list PendingLogEntry.t :=
  filter (fun e => records_transfer_list_change types is_created e = true)
    entries.

(** The creditor's row after a flush of [entries]. *)
Definition flushed_row (entries : list PendingLogEntry.t)
  (row : Creditor.t) : Creditor.t :=
  let changes := transfer_list_changes entries in
  Creditor.mk
    (Creditor.creditor_id row)
    (Creditor.is_active row)
    (Creditor.deactivated_at_date row)
    (Creditor.last_log_entry_id row
     + Z.of_nat (length entries) + Z.of_nat (length changes))
    (Creditor.creditor_latest_update_id row)
    (Creditor.creditor_latest_update_ts row)
    (Creditor.transfer_list_latest_update_id row
     + Z.of_nat (length changes))
    (List.last (map PendingLogEntry.added_at_ts changes)
       (Creditor.transfer_list_latest_update_ts row)).
End FlushVocabulary.


End LogVocabulary.

Module AccountsVocabulary.

(** [debtor_id] comes after [prev], if there is a [prev]. *)
Definition is_after (prev : option Z) (debtor_id : Z) : Prop :=
  match prev with
  | Some prev => prev < debtor_id
  | None => True
  end.

#[export] Instance is_after_dec prev debtor_id :
  Decision (is_after prev debtor_id).
Proof. destruct prev; unfold is_after; apply _. Defined.

End AccountsVocabulary.

Module SchemasVocabulary.

(** The code points U+D800 .. U+DFFF. *)
Definition is_surrogate (code_point : Z) : Prop :=
  0xD800 <= code_point <= 0xDFFF.

(** The CHECK constraints of the [running_transfer] table. *)
Definition satisfies_check_constraints (rt : RunningTransfer.t) : Prop :=
  0 <= RunningTransfer.amount rt
  /\ (forall amount,
        RunningTransfer.total_locked_amount rt = Some amount -> 0 <= amount)
  /\ 0 <= RunningTransfer.locked_amount rt
  /\ 0 < RunningTransfer.latest_update_id rt
  /\ (RunningTransfer.error_code rt = None
      \/ RunningTransfer.finalized_at rt <> None).

End SchemasVocabulary.

(** ** Values of tests/test_procedures.py

    The accounts, facts and transfers of the test scenarios, on which the
    properties below are run. *)

Module Tests.

Definition C_ID : Z := 4294967296.
Definition D_ID : Z := -1.
Definition TEST_UUID : Z := 0x123e4567e89b12d3a456426655440000.

(** 2020-09-13 12:26:40 UTC, and the creation date 2020-01-02. *)
Definition current_ts : datetime := 1600000000000000.
Definition creation_date : date := 18263.

(** The account of [test_process_pending_ledger_update] after its account
    update: the peer reports no transfers, and the ledger is empty. *)
Definition account : AccountUpdates.AccountData.t :=
  {| AccountUpdates.AccountData.creditor_id := C_ID;
     AccountUpdates.AccountData.debtor_id := D_ID;
     AccountUpdates.AccountData.creation_date := creation_date;
     AccountUpdates.AccountData.last_change_ts := current_ts;
     AccountUpdates.AccountData.last_change_seqnum := 1;
     AccountUpdates.AccountData.principal := 0;
     AccountUpdates.AccountData.interest := 0%float;
     AccountUpdates.AccountData.interest_rate := 0%float;
     AccountUpdates.AccountData.last_interest_rate_change_ts := TS0;
     AccountUpdates.AccountData.transfer_note_max_bytes := 500;
     AccountUpdates.AccountData.last_config_ts := current_ts;
     AccountUpdates.AccountData.last_config_seqnum := 0;
     AccountUpdates.AccountData.negligible_amount := 10%float;
     AccountUpdates.AccountData.config_flags := 0;
     AccountUpdates.AccountData.config_data := EmptyString;
     AccountUpdates.AccountData.config_error := None;
     AccountUpdates.AccountData.account_id := "4294967296";
     AccountUpdates.AccountData.debtor_info_iri := Some "http://example.com";
     AccountUpdates.AccountData.debtor_info_content_type := None;
     AccountUpdates.AccountData.debtor_info_sha256 := None;
     AccountUpdates.AccountData.last_transfer_number := 0;
     AccountUpdates.AccountData.last_transfer_committed_at := TS0;
     AccountUpdates.AccountData.last_heartbeat_ts := current_ts;
     AccountUpdates.AccountData.has_server_account := true;
     AccountUpdates.AccountData.is_config_effectual := true;
     AccountUpdates.AccountData.ledger_principal := 0;
     AccountUpdates.AccountData.ledger_last_entry_id := 0;
     AccountUpdates.AccountData.ledger_last_transfer_number := 0;
     AccountUpdates.AccountData.ledger_latest_update_id := 2;
     AccountUpdates.AccountData.ledger_latest_update_ts := current_ts;
     AccountUpdates.AccountData.ledger_pending_transfer_ts := None |}.

(** A fact of the test: committed now, acquiring 1000. *)
Definition fact (transfer_number previous_transfer_number principal : Z)
  : CommittedTransfer.t :=
  {| CommittedTransfer.creditor_id := C_ID;
     CommittedTransfer.debtor_id := D_ID;
     CommittedTransfer.creation_date := creation_date;
     CommittedTransfer.transfer_number := transfer_number;
     CommittedTransfer.acquired_amount := 1000;
     CommittedTransfer.principal := principal;
     CommittedTransfer.committed_at := current_ts;
     CommittedTransfer.previous_transfer_number := previous_transfer_number;
     CommittedTransfer.coordinator_type := "direct";
     CommittedTransfer.sender := "666";
     CommittedTransfer.recipient := "4294967296";
     CommittedTransfer.transfer_note_format := "json";
     CommittedTransfer.transfer_note := "{}" |}.

(** Facts 1, 20 and 22 have arrived; fact 21 has not. *)
Definition db_with_gap : AccountUpdates.db :=
  {| AccountUpdates.account_data := {[ (C_ID, D_ID) := account ]};
     AccountUpdates.committed_transfer :=
       [fact 1 0 1100; fact 20 1 2100; fact 22 21 4150];
     AccountUpdates.pending_ledger_update := {[ (C_ID, D_ID) ]};
     AccountUpdates.ledger_entry := [];
     AccountUpdates.pending_log_entry := [];
     AccountUpdates.updated_ledger_signal := [];
     AccountUpdates.configure_account_signal := [];
     AccountUpdates.uid_seq := 2 |}.

(** The account of
    [test_process_pending_ledger_update_missing_last_transfer]: the peer
    reports transfer 3, committed 20 days ago, and a principal of 1000; no
    fact has arrived. *)
Definition account_behind : AccountUpdates.AccountData.t :=
  {| AccountUpdates.AccountData.creditor_id := C_ID;
     AccountUpdates.AccountData.debtor_id := D_ID;
     AccountUpdates.AccountData.creation_date := creation_date;
     AccountUpdates.AccountData.last_change_ts := current_ts;
     AccountUpdates.AccountData.last_change_seqnum := 1;
     AccountUpdates.AccountData.principal := 1000;
     AccountUpdates.AccountData.interest := 0%float;
     AccountUpdates.AccountData.interest_rate := 0%float;
     AccountUpdates.AccountData.last_interest_rate_change_ts := TS0;
     AccountUpdates.AccountData.transfer_note_max_bytes := 500;
     AccountUpdates.AccountData.last_config_ts := current_ts;
     AccountUpdates.AccountData.last_config_seqnum := 0;
     AccountUpdates.AccountData.negligible_amount := 10%float;
     AccountUpdates.AccountData.config_flags := 0;
     AccountUpdates.AccountData.config_data := EmptyString;
     AccountUpdates.AccountData.config_error := None;
     AccountUpdates.AccountData.account_id := "4294967296";
     AccountUpdates.AccountData.debtor_info_iri := None;
     AccountUpdates.AccountData.debtor_info_content_type := None;
     AccountUpdates.AccountData.debtor_info_sha256 := None;
     AccountUpdates.AccountData.last_transfer_number := 3;
     AccountUpdates.AccountData.last_transfer_committed_at :=
       current_ts - days 20;
     AccountUpdates.AccountData.last_heartbeat_ts := current_ts;
     AccountUpdates.AccountData.has_server_account := true;
     AccountUpdates.AccountData.is_config_effectual := true;
     AccountUpdates.AccountData.ledger_principal := 0;
     AccountUpdates.AccountData.ledger_last_entry_id := 0;
     AccountUpdates.AccountData.ledger_last_transfer_number := 0;
     AccountUpdates.AccountData.ledger_latest_update_id := 2;
     AccountUpdates.AccountData.ledger_latest_update_ts := current_ts;
     AccountUpdates.AccountData.ledger_pending_transfer_ts := None |}.

(** The state of that test after its first loop: the marker is gone. *)
Definition db_behind_unmarked : AccountUpdates.db :=
  {| AccountUpdates.account_data := {[ (C_ID, D_ID) := account_behind ]};
     AccountUpdates.committed_transfer := [];
     AccountUpdates.pending_ledger_update := ∅;
     AccountUpdates.ledger_entry := [];
     AccountUpdates.pending_log_entry := [];
     AccountUpdates.updated_ledger_signal := [];
     AccountUpdates.configure_account_signal := [];
     AccountUpdates.uid_seq := 2 |}.

(** ... and after [ensure_pending_ledger_update]. *)
Definition db_behind : AccountUpdates.db :=
  AccountUpdates.ensure_pending_ledger_update C_ID D_ID db_behind_unmarked.

(** The account update that [account_behind] stores, sent again by the
    peer a day later: the same ordering key, a newer [ts]. *)
Definition repeated_update : AccountUpdates.AccountUpdateSignal.t :=
  {| AccountUpdates.AccountUpdateSignal.debtor_id := D_ID;
     AccountUpdates.AccountUpdateSignal.creditor_id := C_ID;
     AccountUpdates.AccountUpdateSignal.creation_date := creation_date;
     AccountUpdates.AccountUpdateSignal.last_change_ts := current_ts;
     AccountUpdates.AccountUpdateSignal.last_change_seqnum := 1;
     AccountUpdates.AccountUpdateSignal.principal := 1000;
     AccountUpdates.AccountUpdateSignal.interest := 0%float;
     AccountUpdates.AccountUpdateSignal.interest_rate := 0%float;
     AccountUpdates.AccountUpdateSignal.last_interest_rate_change_ts := TS0;
     AccountUpdates.AccountUpdateSignal.transfer_note_max_bytes := 500;
     AccountUpdates.AccountUpdateSignal.last_config_ts := current_ts;
     AccountUpdates.AccountUpdateSignal.last_config_seqnum := 0;
     AccountUpdates.AccountUpdateSignal.negligible_amount := 10%float;
     AccountUpdates.AccountUpdateSignal.config_flags := 0;
     AccountUpdates.AccountUpdateSignal.config_data := EmptyString;
     AccountUpdates.AccountUpdateSignal.account_id := "4294967296";
     AccountUpdates.AccountUpdateSignal.debtor_info_iri := None;
     AccountUpdates.AccountUpdateSignal.debtor_info_content_type := None;
     AccountUpdates.AccountUpdateSignal.debtor_info_sha256 := None;
     AccountUpdates.AccountUpdateSignal.last_transfer_number := 3;
     AccountUpdates.AccountUpdateSignal.last_transfer_committed_at :=
       current_ts - days 20;
     AccountUpdates.AccountUpdateSignal.ts := current_ts + days 1;
     AccountUpdates.AccountUpdateSignal.ttl := 10000 |}.

(** Values for the declarations that account_updates.py imports. *)
Definition HUGE_NEGLIGIBLE_AMOUNT : float := 0x1.93e5939a08ceap+99%float.
Definition DEFAULT_CONFIG_FLAGS : Z := 0.
Definition CONFIG_SCHEDULED_FOR_DELETION_FLAG : Z := 1.

Definition is_deletion_safe (data : AccountUpdates.AccountData.t) : bool :=
  negb (AccountUpdates.AccountData.has_server_account data)
  && negb (Z.land (AccountUpdates.AccountData.config_flags data)
             CONFIG_SCHEDULED_FOR_DELETION_FLAG =? 0)
  && AccountUpdates.AccountData.is_config_effectual data.

Definition _insert_info_update_pending_log_entry (st : AccountUpdates.txn)
  (current_ts : datetime) : AccountUpdates.txn :=
  (fst st,
   AccountUpdates.add_pending_log_entry
     (AccountUpdates.PendingLogEntry.mk
        (AccountUpdates.AccountData.creditor_id (fst st))
        current_ts
        None
        (Some (AccountUpdates.AccountData.debtor_id (fst st)))
        None None None)
     (snd st)).

(** An account whose ledger stands at the largest principal. *)
Definition account_at_max : AccountUpdates.AccountData.t :=
  AccountUpdates.AccountData.set_ledger_principal MAX_INT64 account.

(** A creditor with two pending log entries: an account's info changed,
    and a transfer was deleted. *)
Definition types : Creditors.types.t :=
  {| Creditors.types.creditor := "Creditor";
     Creditors.types.transfer := "Transfer";
     Creditors.types.transfer_list := "TransferList" |}.

Definition paths : Creditors.paths.t :=
  {| Creditors.paths.creditor := fun _ => "/creditors/4294967296/";
     Creditors.paths.transfer_list :=
       fun _ => "/creditors/4294967296/transfer-list" |}.

Definition is_created (entry : Creditors.PendingLogEntry.t) : bool :=
  negb (Creditors.PendingLogEntry.is_deleted entry)
  && bool_decide
       (Creditors.PendingLogEntry.object_update_id entry = Some 1
        \/ Creditors.PendingLogEntry.object_update_id entry = None).

Definition creditor : Creditors.Creditor.t :=
  {| Creditors.Creditor.creditor_id := C_ID;
     Creditors.Creditor.is_active := true;
     Creditors.Creditor.deactivated_at_date := None;
     Creditors.Creditor.last_log_entry_id := 7;
     Creditors.Creditor.creditor_latest_update_id := 1;
     Creditors.Creditor.creditor_latest_update_ts := TS0;
     Creditors.Creditor.transfer_list_latest_update_id := 3;
     Creditors.Creditor.transfer_list_latest_update_ts := TS0 |}.

Definition info_entry : Creditors.PendingLogEntry.t :=
  {| Creditors.PendingLogEntry.creditor_id := C_ID;
     Creditors.PendingLogEntry.pending_entry_id := 11;
     Creditors.PendingLogEntry.object_type := "AccountInfo";
     Creditors.PendingLogEntry.object_uri :=
       "/creditors/4294967296/accounts/18446744073709551615/info";
     Creditors.PendingLogEntry.object_update_id := Some 2;
     Creditors.PendingLogEntry.added_at_ts := current_ts;
     Creditors.PendingLogEntry.is_deleted := false;
     Creditors.PendingLogEntry.data := None |}.

Definition transfer_deletion_entry : Creditors.PendingLogEntry.t :=
  {| Creditors.PendingLogEntry.creditor_id := C_ID;
     Creditors.PendingLogEntry.pending_entry_id := 12;
     Creditors.PendingLogEntry.object_type := "Transfer";
     Creditors.PendingLogEntry.object_uri :=
       "/creditors/4294967296/transfers/123e4567-e89b-12d3-a456-426655440000";
     Creditors.PendingLogEntry.object_update_id := None;
     Creditors.PendingLogEntry.added_at_ts := current_ts + seconds 1;
     Creditors.PendingLogEntry.is_deleted := true;
     Creditors.PendingLogEntry.data := None |}.

Definition db_with_pending_log : Creditors.db :=
  {| Creditors.creditor := {[ C_ID := creditor ]};
     Creditors.pending_log_entry := [transfer_deletion_entry; info_entry];
     Creditors.log_entry := [] |}.

(** The transfer that [test_successful_transfer] initiates, and the same
    transfer once the peer has prepared it. *)
Definition running_transfer : RunningTransfer.t :=
  {| RunningTransfer.creditor_id := C_ID;
     RunningTransfer.transfer_uuid := TEST_UUID;
     RunningTransfer.debtor_id := D_ID;
     RunningTransfer.amount := 1000;
     RunningTransfer.recipient_uri := "swpt:18446744073709551615/666";
     RunningTransfer.recipient := "666";
     RunningTransfer.transfer_note_format := "json";
     RunningTransfer.transfer_note := "{}";
     RunningTransfer.initiated_at := current_ts;
     RunningTransfer.finalized_at := None;
     RunningTransfer.error_code := None;
     RunningTransfer.total_locked_amount := None;
     RunningTransfer.deadline := Some (current_ts + seconds 1000);
     RunningTransfer.final_interest_rate_ts := current_ts + seconds 2000;
     RunningTransfer.locked_amount := 0;
     RunningTransfer.coordinator_request_id := 1;
     RunningTransfer.transfer_id := None;
     RunningTransfer.latest_update_id := 1;
     RunningTransfer.latest_update_ts := current_ts |}.

Definition prepared_transfer : RunningTransfer.t :=
  {| RunningTransfer.creditor_id := C_ID;
     RunningTransfer.transfer_uuid := TEST_UUID;
     RunningTransfer.debtor_id := D_ID;
     RunningTransfer.amount := 1000;
     RunningTransfer.recipient_uri := "swpt:18446744073709551615/666";
     RunningTransfer.recipient := "666";
     RunningTransfer.transfer_note_format := "json";
     RunningTransfer.transfer_note := "{}";
     RunningTransfer.initiated_at := current_ts;
     RunningTransfer.finalized_at := None;
     RunningTransfer.error_code := None;
     RunningTransfer.total_locked_amount := None;
     RunningTransfer.deadline := Some (current_ts + seconds 1000);
     RunningTransfer.final_interest_rate_ts := current_ts + seconds 2000;
     RunningTransfer.locked_amount := 0;
     RunningTransfer.coordinator_request_id := 1;
     RunningTransfer.transfer_id := Some 123;
     RunningTransfer.latest_update_id := 2;
     RunningTransfer.latest_update_ts := current_ts |}.

Definition db_with_transfer (rt : RunningTransfer.t) : Transfers.db :=
  {| Transfers.running_transfer := [rt];
     Transfers.finalize_transfer_signal := [];
     Transfers.pending_log_entry := [];
     Transfers.committed_transfer := [];
     Transfers.account_data := {[ (C_ID, D_ID) ]};
     Transfers.pending_ledger_update := ∅ |}.

End Tests.

(** Further values, for the properties of the signals, the log and the
    accounts. *)
Module Examples.

(** The peer has purged the account of [Tests.account_behind] and created
    it anew the next day: an account update of the new epoch. *)
Definition new_epoch_update : AccountUpdates.AccountUpdateSignal.t :=
  {| AccountUpdates.AccountUpdateSignal.debtor_id := Tests.D_ID;
     AccountUpdates.AccountUpdateSignal.creditor_id := Tests.C_ID;
     AccountUpdates.AccountUpdateSignal.creation_date :=
       Tests.creation_date + 1;
     AccountUpdates.AccountUpdateSignal.last_change_ts := Tests.current_ts;
     AccountUpdates.AccountUpdateSignal.last_change_seqnum := 1;
     AccountUpdates.AccountUpdateSignal.principal := 0;
     AccountUpdates.AccountUpdateSignal.interest := 0%float;
     AccountUpdates.AccountUpdateSignal.interest_rate := 0%float;
     AccountUpdates.AccountUpdateSignal.last_interest_rate_change_ts := TS0;
     AccountUpdates.AccountUpdateSignal.transfer_note_max_bytes := 500;
     AccountUpdates.AccountUpdateSignal.last_config_ts := Tests.current_ts;
     AccountUpdates.AccountUpdateSignal.last_config_seqnum := 0;
     AccountUpdates.AccountUpdateSignal.negligible_amount := 10%float;
     AccountUpdates.AccountUpdateSignal.config_flags := 0;
     AccountUpdates.AccountUpdateSignal.config_data := EmptyString;
     AccountUpdates.AccountUpdateSignal.account_id := "4294967296";
     AccountUpdates.AccountUpdateSignal.debtor_info_iri := None;
     AccountUpdates.AccountUpdateSignal.debtor_info_content_type := None;
     AccountUpdates.AccountUpdateSignal.debtor_info_sha256 := None;
     AccountUpdates.AccountUpdateSignal.last_transfer_number := 0;
     AccountUpdates.AccountUpdateSignal.last_transfer_committed_at := TS0;
     AccountUpdates.AccountUpdateSignal.ts := Tests.current_ts;
     AccountUpdates.AccountUpdateSignal.ttl := 10000 |}.

(** A database that has no accounts. *)
Definition no_accounts : AccountUpdates.db :=
  {| AccountUpdates.account_data := ∅;
     AccountUpdates.committed_transfer := [];
     AccountUpdates.pending_ledger_update := ∅;
     AccountUpdates.ledger_entry := [];
     AccountUpdates.pending_log_entry := [];
     AccountUpdates.updated_ledger_signal := [];
     AccountUpdates.configure_account_signal := [];
     AccountUpdates.uid_seq := 0 |}.

(** The state of [Tests.db_with_pending_log] after the flush: the log holds
    the entries 8, 9 and 10 of the creditor. *)
Definition db_with_log : Creditors.db :=
  Creditors.process_pending_log_entries Tests.paths Tests.types
    Tests.is_created Tests.C_ID Tests.db_with_pending_log.

Definition account_types : Accounts.types.t :=
  {| Accounts.types.account := "Account";
     Accounts.types.account_list := "AccountList";
     Accounts.types.account_config := "AccountConfig";
     Accounts.types.account_info := "AccountInfo";
     Accounts.types.account_ledger := "AccountLedger";
     Accounts.types.account_display := "AccountDisplay";
     Accounts.types.account_exchange := "AccountExchange";
     Accounts.types.account_knowledge := "AccountKnowledge" |}.

Definition account_paths : Accounts.paths.t :=
  {| Accounts.paths.account := fun _ _ => "account";
     Accounts.paths.account_list := fun _ => "account-list";
     Accounts.paths.account_config := fun _ _ => "config";
     Accounts.paths.account_info := fun _ _ => "info";
     Accounts.paths.account_ledger := fun _ _ => "ledger";
     Accounts.paths.account_display := fun _ _ => "display";
     Accounts.paths.account_exchange := fun _ _ => "exchange";
     Accounts.paths.account_knowledge := fun _ _ => "knowledge" |}.

(** An account that its owner allows to be deleted, pegged to [peg]. *)
Definition an_account (peg : option Z) : Accounts.Account.t :=
  {| Accounts.Account.created_at_ts := Tests.current_ts;
     Accounts.Account.latest_update_ts := Tests.current_ts;
     Accounts.Account.knowledge_latest_update_ts := Tests.current_ts;
     Accounts.Account.exchange_latest_update_ts := Tests.current_ts;
     Accounts.Account.display_latest_update_ts := Tests.current_ts;
     Accounts.Account.last_config_ts := Tests.current_ts;
     Accounts.Account.last_config_seqnum := 0;
     Accounts.Account.config_latest_update_ts := Tests.current_ts;
     Accounts.Account.info_latest_update_ts := Tests.current_ts;
     Accounts.Account.ledger_latest_update_ts := Tests.current_ts;
     Accounts.Account.is_deletion_safe := false;
     Accounts.Account.allow_unsafe_deletion := true;
     Accounts.Account.peg_debtor_id := peg |}.

(** The creditor of the tests with accounts with the debtors 1, 2 and 3;
    the second account is pegged to the first. *)
Definition db_with_accounts : Accounts.db :=
  {| Accounts.base := Tests.db_with_pending_log;
     Accounts.account_list :=
       {[ Tests.C_ID := Accounts.AccountList.mk 1 TS0 ]};
     Accounts.account :=
       {[ (Tests.C_ID, 1) := an_account None;
          (Tests.C_ID, 2) := an_account (Some 1);
          (Tests.C_ID, 3) := an_account None ]};
     Accounts.configure_account_signal := [] |}.

End Examples.

(** * Properties *)

(** ** Common facts *)

Module CommonFacts.

Lemma MAX_INT64_val : MAX_INT64 = 9223372036854775807.
Proof. reflexivity. Qed.

Lemma MIN_INT64_val : MIN_INT64 = -9223372036854775808.
Proof. reflexivity. Qed.

Lemma filter_all {A} (P : A -> Prop) `{forall x, Decision (P x)}
  (l : list A) :
  (forall x, P x) -> filter P l = l.
Proof.
  intros HP. induction l as [|x l IH]; [done|].
  by rewrite filter_cons_True, IH.
Qed.

(** [order_by] sorts, and keeps the rows. *)
Section OrderByFacts.
Context {A : Type} (key : A -> Z).

Lemma insert_by_perm x l : Permutation (insert_by key x l) (x :: l).
Proof.
  induction l as [|y l IH]; simpl; [done|].
  destruct (key x <? key y); [done|].
  rewrite IH. apply perm_swap.
Qed.

Lemma order_by_perm l : Permutation (order_by key l) l.
Proof.
  induction l as [|x l IH]; simpl; [done|].
  by rewrite insert_by_perm, IH.
Qed.

Lemma insert_by_sorted x l :
  StronglySorted (fun a b => key a <= key b) l ->
  StronglySorted (fun a b => key a <= key b) (insert_by key x l).
Proof.
  induction 1 as [|y l Hs IH Hall]; simpl.
  - repeat constructor.
  - destruct (Z.ltb_spec (key x) (key y)) as [Hlt|Hge].
    + constructor; [by constructor|].
      constructor; [lia|].
      eapply Forall_impl; [exact Hall|]. simpl. intros; lia.
    + constructor; [done|].
      rewrite (insert_by_perm x l). by constructor.
Qed.

Lemma order_by_sorted l :
  StronglySorted (fun a b => key a <= key b) (order_by key l).
Proof.
  induction l as [|x l IH]; simpl; [constructor|].
  by apply insert_by_sorted.
Qed.
End OrderByFacts.

End CommonFacts.

(** ** The ledger *)

Module AccountUpdatesTheory.
Import AccountUpdates CommonFacts.



(** *** The overflow-safe correction *)

Lemma contain_principal_overflow_cases value :
  (value <= MIN_INT64 /\ contain_principal_overflow value = - MAX_INT64)
  \/ (MAX_INT64 < value /\ contain_principal_overflow value = MAX_INT64)
  \/ (MIN_INT64 < value <= MAX_INT64
      /\ contain_principal_overflow value = value).
Proof.
  unfold contain_principal_overflow.
  destruct (Z.leb_spec value MIN_INT64); [left; done|].
  destruct (Z.ltb_spec MAX_INT64 value); [right; left; done|].
  right; right. lia.
Qed.

Lemma set_ledger_last_entry_id_id data :
  AccountData.set_ledger_last_entry_id
    (AccountData.ledger_last_entry_id data) data = data.
Proof. by destruct data. Qed.

Lemma set_ledger_last_entry_id_twice v w data :
  AccountData.set_ledger_last_entry_id v
    (AccountData.set_ledger_last_entry_id w data)
  = AccountData.set_ledger_last_entry_id v data.
Proof. done. Qed.

Lemma add_ledger_entries_nil s : add_ledger_entries [] s = s.
Proof.
  destruct s. unfold add_ledger_entries. simpl. by rewrite app_nil_r.
Qed.

Lemma add_ledger_entries_cons e es s :
  add_ledger_entries es (add_ledger_entry e s)
  = add_ledger_entries (e :: es) s.
Proof.
  unfold add_ledger_entries, add_ledger_entry. simpl.
  by rewrite <- app_assoc.
Qed.

(** With enough fuel the loop ends with nothing left to correct: its
    entries are correcting entries, each within the largest safe magnitude,
    and their amounts sum to the correction. *)
Lemma correcting_entries_spec fuel current_ts :
  forall correction_amount ledger_principal made data s,
    Z.abs correction_amount <= Z.of_nat fuel * MAX_INT64 ->
    exists entries,
      correcting_entries fuel current_ts correction_amount ledger_principal
        made (data, s)
      = (0, made || negb (correction_amount =? 0),
         (AccountData.set_ledger_last_entry_id
            (AccountData.ledger_last_entry_id data
             + Z.of_nat (length entries)) data,
          add_ledger_entries entries s))
      /\ sum_acquired_amounts entries = correction_amount
      /\ Forall (fun e => is_correcting_entry e
                          /\ LedgerEntry.acquired_amount e <> 0
                          /\ - MAX_INT64 <= LedgerEntry.acquired_amount e
                             <= MAX_INT64) entries.
Proof.
  induction fuel as [|fuel IH]; intros c lp made data s Hfuel.
  - assert (c = 0) by lia. subst c. exists []. simpl.
    rewrite Z.add_0_r, set_ledger_last_entry_id_id, add_ledger_entries_nil,
      orb_false_r. done.
  - simpl. destruct (Z.eqb_spec c 0) as [->|Hc].
    + exists []. simpl.
      rewrite Z.add_0_r, set_ledger_last_entry_id_id, add_ledger_entries_nil,
        orb_false_r. done.
    + set (safe := contain_principal_overflow c).
      assert (Hsafe : safe <> 0 /\ - MAX_INT64 <= safe <= MAX_INT64
                      /\ Z.abs (c - safe) <= Z.of_nat fuel * MAX_INT64).
      { subst safe. rewrite MAX_INT64_val in *.
        destruct (contain_principal_overflow_cases c)
          as [[? ->]|[[? ->]|[? ->]]];
          rewrite ?MAX_INT64_val, ?MIN_INT64_val in *; lia. }
      destruct Hsafe as (Hnz & Hrange & Hrest).
      destruct (IH (c - safe) (lp + safe) true
                  (AccountData.set_ledger_last_entry_id
                     (AccountData.ledger_last_entry_id data + 1) data)
                  (add_ledger_entry
                     (LedgerEntry.mk (AccountData.creditor_id data)
                        (AccountData.debtor_id data)
                        (AccountData.ledger_last_entry_id data + 1)
                        safe (lp + safe) current_ts None None) s) Hrest)
        as (entries & Heq & Hsum & Hall).
      eexists (_ :: entries). split; [|split].
      * simpl in Heq |- *. rewrite Heq, add_ledger_entries_cons, orb_true_r.
        rewrite set_ledger_last_entry_id_twice. simpl.
        replace (AccountData.ledger_last_entry_id data + 1
                 + Z.of_nat (length entries))
          with (AccountData.ledger_last_entry_id data
                + Z.pos (Pos.of_succ_nat (length entries))) by lia.
        done.
      * simpl. lia.
      * constructor; [|done]. simpl. done.
Qed.

(** [correcting_fuel] is enough fuel for every amount. *)
Lemma correcting_fuel_enough correction_amount :
  Z.abs correction_amount
  <= Z.of_nat (correcting_fuel correction_amount) * MAX_INT64.
Proof.
  unfold correcting_fuel. rewrite MAX_INT64_val.
  pose proof (Z.abs_nonneg correction_amount) as Habs.
  pose proof (Z.div_pos (Z.abs correction_amount) 9223372036854775807
                Habs ltac:(lia)) as Hdiv.
  rewrite Z2Nat.id by lia.
  pose proof (Z.mul_succ_div_gt (Z.abs correction_amount)
                9223372036854775807 ltac:(lia)).
  lia.
Qed.

Lemma int64b_true n :
  is_int64 n -> (MIN_INT64 <=? n) && (n <=? MAX_INT64) = true.
Proof. unfold is_int64. lia. Qed.

Lemma int64b_false n :
  ~ is_int64 n -> (MIN_INT64 <=? n) && (n <=? MAX_INT64) = false.
Proof. unfold is_int64. lia. Qed.

Lemma make_correcting_in_range data s acquired_amount principal current_ts :
  is_int64 (principal - acquired_amount) ->
  exists entries,
    _make_correcting_ledger_entry_if_necessary (data, s) acquired_amount
      principal current_ts
    = (negb (principal - acquired_amount
             - AccountData.ledger_principal data =? 0),
       (AccountData.set_ledger_last_entry_id
          (AccountData.ledger_last_entry_id data
           + Z.of_nat (length entries)) data,
        add_ledger_entries entries s))
    /\ sum_acquired_amounts entries
       = principal - acquired_amount - AccountData.ledger_principal data
    /\ Forall (fun e => is_correcting_entry e
                        /\ LedgerEntry.acquired_amount e <> 0
                        /\ - MAX_INT64 <= LedgerEntry.acquired_amount e
                           <= MAX_INT64) entries.
Proof.
  intros Hrange. unfold _make_correcting_ledger_entry_if_necessary.
  rewrite (int64b_true _ Hrange). simpl fst.
  destruct (correcting_entries_spec
              (correcting_fuel
                 (principal - acquired_amount
                  - AccountData.ledger_principal data))
              current_ts _ (AccountData.ledger_principal data) false data s
              (correcting_fuel_enough _))
    as (entries & -> & Hsum & Hall).
  exists entries. done.
Qed.

Lemma make_correcting_out_of_range st acquired_amount principal current_ts :
  ~ is_int64 (principal - acquired_amount) ->
  _make_correcting_ledger_entry_if_necessary st acquired_amount principal
    current_ts = (false, st).
Proof.
  intros Hrange. unfold _make_correcting_ledger_entry_if_necessary.
  by rewrite (int64b_false _ Hrange).
Qed.


(** C10.  When [principal - acquired_amount] lies outside the signed 64-bit
    range, [_make_correcting_ledger_entry_if_necessary] makes no correcting
    entry and changes nothing, and [_update_ledger] sets the ledger
    principal to [principal] with no entry but the transfer's own (none at
    all when [acquired_amount] is 0): nothing explains the difference from
    the old ledger principal.  The only failure is the assertion, for an
    [acquired_amount] of 0 with a principal unlike the ledger's; a
    [principal] within the 64-bit range, as every caller passes, excludes
    it. *)
Theorem update_ledger_out_of_range_makes_no_correction
  data s transfer_number acquired_amount principal current_ts always :
  ~ is_int64 (principal - acquired_amount) ->
  _make_correcting_ledger_entry_if_necessary (data, s) acquired_amount
    principal current_ts = (false, (data, s))
  /\ match
       _update_ledger (data, s) transfer_number acquired_amount principal
         current_ts always
     with
     | Ok (_, (data', s')) =>
       AccountData.ledger_principal data' = principal
       /\ AccountData.ledger_last_transfer_number data' = transfer_number
       /\ s' = add_ledger_entries
                 (if acquired_amount =? 0 then []
                  else [LedgerEntry.mk
                          (AccountData.creditor_id data)
                          (AccountData.debtor_id data)
                          (AccountData.ledger_last_entry_id data + 1)
                          acquired_amount
                          principal
                          current_ts
                          (Some (AccountData.creation_date data))
                          (Some transfer_number)]) s
       /\ Forall (fun e => ~ is_correcting_entry e)
            (drop (length (ledger_entry s)) (ledger_entry s'))
     | Raise e =>
       e = AssertionError /\ acquired_amount = 0
       /\ AccountData.ledger_principal data <> principal
     end
  /\ (is_int64 principal ->
      returns (_update_ledger (data, s) transfer_number acquired_amount
                 principal current_ts always)).
Proof.
  intros Hrange.
  split; [by apply make_correcting_out_of_range|].
  unfold _update_ledger.
  rewrite (make_correcting_out_of_range _ _ _ _ Hrange).
  destruct (Z.eqb_spec acquired_amount 0) as [->|Hacq]; simpl negb; cbv iota.
  - rewrite orb_false_l.
    destruct (Z.eqb_spec (AccountData.ledger_principal data) principal)
      as [Heq|Hne]; simpl.
    + split; [|intros _; destruct always; eexists; reflexivity].
      destruct always; simpl; rewrite add_ledger_entries_nil, drop_all;
        done.
    + split; [done|]. intros Hp. exfalso. apply Hrange.
      by rewrite Z.sub_0_r.
  - simpl. split; [|intros _; eexists; reflexivity].
    split; [done|]. split; [done|]. split; [done|].
    rewrite drop_app_length. constructor; [|done].
    unfold is_correcting_entry. done.
Qed.


(** A correction to a reported principal: [acquired_amount = 0]. *)
Lemma update_ledger_correction data s transfer_number principal current_ts :
  is_int64 principal ->
  exists log_entry data' entries,
    _update_ledger (data, s) transfer_number 0 principal current_ts false
    = Ok (log_entry, (data', add_ledger_entries entries s))
    /\ AccountData.ledger_principal data' = principal
    /\ AccountData.ledger_last_transfer_number data' = transfer_number
    /\ AccountData.last_transfer_number data'
       = AccountData.last_transfer_number data
    /\ AccountData.principal data' = AccountData.principal data
    /\ AccountData.ledger_pending_transfer_ts data'
       = AccountData.ledger_pending_transfer_ts data
    /\ sum_acquired_amounts entries
       = principal - AccountData.ledger_principal data
    /\ Forall (fun e => is_correcting_entry e
                        /\ LedgerEntry.acquired_amount e <> 0
                        /\ - MAX_INT64 <= LedgerEntry.acquired_amount e
                           <= MAX_INT64) entries.
Proof.
  intros Hrange. unfold _update_ledger.
  destruct (make_correcting_in_range data s 0 principal current_ts)
    as (entries & -> & Hsum & Hall); [by rewrite Z.sub_0_r|].
  rewrite Z.sub_0_r in Hsum |- *. simpl negb. cbv iota.
  destruct (Z.eqb_spec (principal - AccountData.ledger_principal data) 0)
    as [Hz|Hnz]; simpl negb.
  - rewrite orb_false_l. simpl AccountData.ledger_principal.
    replace (AccountData.ledger_principal data =? principal) with true
      by lia.
    simpl. eexists _, _, entries. split; [reflexivity|]. simpl.
    repeat split; done.
  - simpl. eexists _, _, entries. split; [reflexivity|]. simpl.
    repeat split; done.
Qed.

Lemma marker_is_deleted (key : Z * Z) (markers : gset (Z * Z)) :
  key ∉ markers ∖ {[key]}.
Proof.
  intros Hin. apply elem_of_difference in Hin as [_ Hnot].
  apply Hnot. by apply elem_of_singleton.
Qed.

Lemma no_pending_transfers s data max_count :
  0 <= max_count ->
  Forall
    (fun ct =>
       ~ (CommittedTransfer.creditor_id ct = AccountData.creditor_id data
          /\ CommittedTransfer.debtor_id ct = AccountData.debtor_id data
          /\ CommittedTransfer.creation_date ct
             = AccountData.creation_date data
          /\ AccountData.ledger_last_transfer_number data
             < CommittedTransfer.transfer_number ct))
    (committed_transfer s) ->
  _get_sorted_pending_transfers s data max_count = Ok [].
Proof.
  intros Hcount Hnone. unfold _get_sorted_pending_transfers.
  replace (filter _ (committed_transfer s)) with (@nil CommittedTransfer.t).
  - unfold limit. replace (max_count <? 0) with false by lia.
    simpl. by rewrite firstn_nil.
  - symmetry. induction Hnone as [|ct cts Hct _ IH]; [done|].
    rewrite filter_cons_False; done.
Qed.


(** C2 (amended).  For an account with a [PendingLedgerUpdate] marker,
    whose peer-reported [last_transfer_number] is ahead of the ledger, whose
    [last_transfer_committed_at] is older than [current_ts - max_delay],
    and for which no fact beyond the ledger is there, one call of
    [process_pending_ledger_update] with a positive [burst_count] returns
    [True] with the ledger at the peer-reported
    [(last_transfer_number, principal)]; the entries it adds are correcting
    entries within the 64-bit range whose amounts sum to the jump of the
    principal; the marker is deleted, and every further call returns
    [True] and changes nothing. *)
Theorem lost_last_transfer_is_repaired
  current_ts creditor_id debtor_id burst_count max_delay s data :
  (creditor_id, debtor_id) ∈ pending_ledger_update s ->
  account_data s !! (creditor_id, debtor_id) = Some data ->
  0 < burst_count ->
  is_int64 (AccountData.principal data) ->
  AccountData.ledger_last_transfer_number data
  < AccountData.last_transfer_number data ->
  AccountData.last_transfer_committed_at data < current_ts - max_delay ->
  Forall
    (fun ct =>
       ~ (CommittedTransfer.creditor_id ct = AccountData.creditor_id data
          /\ CommittedTransfer.debtor_id ct = AccountData.debtor_id data
          /\ CommittedTransfer.creation_date ct
             = AccountData.creation_date data
          /\ AccountData.ledger_last_transfer_number data
             < CommittedTransfer.transfer_number ct))
    (committed_transfer s) ->
  exists s' data' entries,
    process_pending_ledger_update current_ts creditor_id debtor_id
      burst_count max_delay s = Ok (true, s')
    /\ account_data s' !! (creditor_id, debtor_id) = Some data'
    /\ AccountData.ledger_last_transfer_number data'
       = AccountData.last_transfer_number data
    /\ AccountData.ledger_principal data' = AccountData.principal data
    /\ ledger_entry s' = ledger_entry s ++ entries
    /\ Forall (fun e => is_correcting_entry e
                        /\ is_int64 (LedgerEntry.acquired_amount e)) entries
    /\ sum_acquired_amounts entries
       = AccountData.principal data - AccountData.ledger_principal data
    /\ ((creditor_id, debtor_id) ∉ pending_ledger_update s')
    /\ forall current_ts' burst_count' max_delay',
         process_pending_ledger_update current_ts' creditor_id debtor_id
           burst_count' max_delay' s' = Ok (true, s').
Proof.
  intros Hmarker Hdata Hburst Hprincipal Hmissing Hold Hnone.
  unfold process_pending_ledger_update.
  rewrite decide_True by done. rewrite Hdata.
  rewrite (no_pending_transfers s data burst_count) by (done || lia).
  simpl. change (Z.of_nat 0) with 0.
  rewrite (proj2 (Z.ltb_lt 0 burst_count) Hburst).
  unfold _fix_missing_last_transfer_if_necessary. simpl.
  replace (AccountData.ledger_last_transfer_number data
           <? AccountData.last_transfer_number data) with true by lia.
  replace (AccountData.last_transfer_committed_at data
           <? current_ts - max_delay) with true by lia.
  simpl.
  destruct (update_ledger_correction
              (AccountData.set_ledger_pending_transfer_ts None data) s
              (AccountData.last_transfer_number data)
              (AccountData.principal data) current_ts Hprincipal)
    as (log_entry & data' & entries & Hupd & Hlp & Hltn & _ & _ & _ & Hsum
        & Hall).
  simpl in Hupd. rewrite Hupd. simpl.
  eexists _, data', entries. split; [reflexivity|].
  assert (Hentries :
    Forall (fun e => is_correcting_entry e
                     /\ is_int64 (LedgerEntry.acquired_amount e))
      entries).
  { eapply Forall_impl; [exact Hall|]. intros e (? & _ & Hr). split; [done|].
    unfold is_int64. rewrite MAX_INT64_val in Hr.
    rewrite MAX_INT64_val, MIN_INT64_val. lia. }
  pose proof (marker_is_deleted (creditor_id, debtor_id)
                (pending_ledger_update s)) as Hgone.
  destruct log_entry as [log_entry|]; simpl;
    (split; [by rewrite lookup_insert_eq|]);
    (split; [done|]); (split; [done|]); (split; [done|]);
    (split; [done|]); (split; [done|]); (split; [done|]);
    intros; by rewrite decide_False.
Qed.


Lemma walk_reaches_gap committed_at_cutoff current_ts pre :
  forall log_entry st log_entry1 st1
         previous_transfer_number transfer_number acquired_amount principal
         committed_at post,
    walk_pending_transfers committed_at_cutoff current_ts pre log_entry st
    = Ok (false, log_entry1, st1) ->
    previous_transfer_number
    <> AccountData.ledger_last_transfer_number (fst st1) ->
    committed_at_cutoff <= committed_at ->
    walk_pending_transfers committed_at_cutoff current_ts
      (pre
       ++ (previous_transfer_number, transfer_number, acquired_amount,
           principal, committed_at) :: post)
      log_entry st
    = Ok (true, log_entry1,
          (AccountData.set_ledger_pending_transfer_ts (Some committed_at)
             (fst st1),
           snd st1)).
Proof.
  induction pre as [|[[[[prev num] amt] pr] at_] pre IH];
    intros log_entry st log_entry1 st1 p n a pr' c post Hwalk Hgap Hyoung.
  - simpl in Hwalk. injection Hwalk as <- <-. simpl.
    replace (p =? AccountData.ledger_last_transfer_number (fst st))
      with false by lia.
    replace (committed_at_cutoff <=? c) with true by lia. done.
  - simpl in Hwalk |- *.
    destruct (negb (prev =? AccountData.ledger_last_transfer_number (fst st))
              && (committed_at_cutoff <=? at_)); [done|].
    destruct (_update_ledger st num amt pr current_ts false)
      as [[new_entry st']|e]; [|done].
    simpl in Hwalk |- *. by apply IH.
Qed.

(** C1 (amended).  When a pass, having applied the facts [pre] in
    ascending order, meets a fact whose [previous_transfer_number] is not
    the ledger's [ledger_last_transfer_number] and whose [committed_at] is
    not older than [current_ts - max_delay], it sets
    [ledger_pending_transfer_ts] to that [committed_at], applies no
    further fact, deletes the marker and returns [True]. *)
Theorem gap_stops_the_pass
  current_ts creditor_id debtor_id burst_count max_delay s data
  pre previous_transfer_number transfer_number acquired_amount principal
  committed_at post log_entry1 st1 :
  (creditor_id, debtor_id) ∈ pending_ledger_update s ->
  account_data s !! (creditor_id, debtor_id) = Some data ->
  _get_sorted_pending_transfers s data burst_count
  = Ok (pre
        ++ (previous_transfer_number, transfer_number, acquired_amount,
            principal, committed_at) :: post) ->
  walk_pending_transfers (current_ts - max_delay) current_ts pre None
    (data, s) = Ok (false, log_entry1, st1) ->
  previous_transfer_number
  <> AccountData.ledger_last_transfer_number (fst st1) ->
  current_ts - max_delay <= committed_at ->
  exists s',
    process_pending_ledger_update current_ts creditor_id debtor_id
      burst_count max_delay s = Ok (true, s')
    /\ account_data s' !! (creditor_id, debtor_id)
       = Some (AccountData.set_ledger_pending_transfer_ts
                 (Some committed_at) (fst st1))
    /\ ledger_entry s' = ledger_entry (snd st1)
    /\ committed_transfer s' = committed_transfer (snd st1)
    /\ ((creditor_id, debtor_id) ∉ pending_ledger_update s').
Proof.
  intros Hmarker Hdata Hquery Hwalk Hgap Hyoung.
  unfold process_pending_ledger_update.
  rewrite decide_True by done. rewrite Hdata, Hquery. simpl.
  rewrite (walk_reaches_gap _ _ _ _ _ _ _ _ _ _ _ _ _ Hwalk Hgap Hyoung).
  simpl. unfold _fix_missing_last_transfer_if_necessary. simpl.
  destruct st1 as [data1 s1]. simpl.
  pose proof (marker_is_deleted (creditor_id, debtor_id)) as Hgone.
  destruct log_entry1 as [log_entry1|]; simpl; eexists;
    (split; [reflexivity|]); simpl;
    (split; [by rewrite lookup_insert_eq|]); done.
Qed.


Lemma set_account_data_id s : set_account_data (account_data s) s = s.
Proof. by destruct s. Qed.

(** A signal that was applied is not newer than what it left stored. *)
Lemma event_le_refl e : event_le e e = true.
Proof.
  destruct e as [[d t] n]. unfold event_le, Seqnum_eq.
  by rewrite !Z.eqb_refl.
Qed.

#[local] Arguments event_le : simpl never.

(** C3 (amended).  An account update whose ordering key is not newer than
    the stored one, for an existing account, changes nothing but
    [last_heartbeat_ts] of the row, which moves to [min ts current_ts] when
    the signal is within its [ttl] and [ts] is newer than it; no log entry
    and no signal is added, and with [ts] not newer than
    [last_heartbeat_ts] the state is the same. *)
Theorem stale_account_update_touches_heartbeat_only
  HUGE_NEGLIGIBLE_AMOUNT DEFAULT_CONFIG_FLAGS
  CONFIG_SCHEDULED_FOR_DELETION_FLAG is_deletion_safe
  _insert_info_update_pending_log_entry current_ts now m s data :
  account_data s
    !! (AccountUpdateSignal.creditor_id m, AccountUpdateSignal.debtor_id m)
  = Some data ->
  event_le
    (AccountUpdateSignal.creation_date m,
     AccountUpdateSignal.last_change_ts m,
     AccountUpdateSignal.last_change_seqnum m)
    (AccountData.creation_date data,
     AccountData.last_change_ts data,
     AccountData.last_change_seqnum data) = true ->
  exists s',
    process_account_update_signal HUGE_NEGLIGIBLE_AMOUNT DEFAULT_CONFIG_FLAGS
      CONFIG_SCHEDULED_FOR_DELETION_FLAG is_deletion_safe
      _insert_info_update_pending_log_entry current_ts now m s = Ok s'
    /\ s' = set_account_data
              (<[(AccountUpdateSignal.creditor_id m,
                  AccountUpdateSignal.debtor_id m) :=
                   if negb (ttl_expired current_ts (AccountUpdateSignal.ts m)
                              (AccountUpdateSignal.ttl m))
                      && (AccountData.last_heartbeat_ts data
                          <? AccountUpdateSignal.ts m)
                   then
                     AccountData.set_last_heartbeat_ts
                       (Z.min (AccountUpdateSignal.ts m) current_ts) data
                   else data]> (account_data s)) s
    /\ pending_log_entry s' = pending_log_entry s
    /\ updated_ledger_signal s' = updated_ledger_signal s
    /\ configure_account_signal s' = configure_account_signal s
    /\ ledger_entry s' = ledger_entry s
    /\ pending_ledger_update s' = pending_ledger_update s
    /\ (AccountUpdateSignal.ts m <= AccountData.last_heartbeat_ts data ->
        s' = s).
Proof.
  intros Hdata Hle. unfold process_account_update_signal.
  destruct (ttl_expired current_ts (AccountUpdateSignal.ts m)
              (AccountUpdateSignal.ttl m)); simpl.
  - exists s. rewrite insert_id, set_account_data_id by done. done.
  - rewrite Hdata.
    destruct (Z.ltb_spec (AccountData.last_heartbeat_ts data)
                (AccountUpdateSignal.ts m)) as [Hlt|Hge]; simpl;
      rewrite Hle; eexists; (split; [reflexivity|]); unfold commit; simpl.
    + repeat split; try done. lia.
    + repeat split; try done. intros _.
      by rewrite insert_id, set_account_data_id.
Qed.

(** *** The properties on the values of the tests *)

Lemma update_ledger_out_of_range_witness :
  ~ is_int64 (MAX_INT64 - -1)
  /\ _make_correcting_ledger_entry_if_necessary
       (Tests.account, Tests.db_with_gap) (-1) MAX_INT64 Tests.current_ts
     = (false, (Tests.account, Tests.db_with_gap)).
Proof.
  assert (Hrange : ~ is_int64 (MAX_INT64 - -1)).
  { unfold is_int64. rewrite MIN_INT64_val, MAX_INT64_val. lia. }
  split; [exact Hrange|].
  exact (proj1 (update_ledger_out_of_range_makes_no_correction
                  Tests.account Tests.db_with_gap 23 (-1) MAX_INT64
                  Tests.current_ts false Hrange)).
Defined.

(** C2, as stated, fails: the account of the test whose marker the first
    loop has deleted.  The peer's last transfer (3) is ahead of the ledger
    (0) and older than ten days, no fact is there, and every call returns
    [True] and leaves the ledger where it was. *)
Lemma unmarked_account_is_never_repaired :
  AccountData.ledger_last_transfer_number Tests.account_behind
  < AccountData.last_transfer_number Tests.account_behind
  /\ AccountData.last_transfer_committed_at Tests.account_behind
     < Tests.current_ts - days 10
  /\ committed_transfer Tests.db_behind_unmarked = []
  /\ account_data Tests.db_behind_unmarked !! (Tests.C_ID, Tests.D_ID)
     = Some Tests.account_behind
  /\ process_pending_ledger_update Tests.current_ts Tests.C_ID Tests.D_ID 2
       (days 10) Tests.db_behind_unmarked
     = Ok (true, Tests.db_behind_unmarked)
  /\ AccountData.ledger_last_transfer_number Tests.account_behind
     <> AccountData.last_transfer_number Tests.account_behind
  /\ AccountData.ledger_principal Tests.account_behind
     <> AccountData.principal Tests.account_behind.
Proof.
  split; [vm_compute; reflexivity|].
  split; [vm_compute; reflexivity|].
  split; [reflexivity|].
  split; [vm_compute; reflexivity|].
  split; [vm_compute; reflexivity|].
  split; vm_compute; discriminate.
Qed.

Lemma lost_last_transfer_is_repaired_witness :
  exists s' data',
    process_pending_ledger_update Tests.current_ts Tests.C_ID Tests.D_ID 2
      (days 10) Tests.db_behind = Ok (true, s')
    /\ account_data s' !! (Tests.C_ID, Tests.D_ID) = Some data'
    /\ AccountData.ledger_last_transfer_number data' = 3
    /\ AccountData.ledger_principal data' = 1000.
Proof.
  destruct (lost_last_transfer_is_repaired Tests.current_ts Tests.C_ID
              Tests.D_ID 2 (days 10) Tests.db_behind Tests.account_behind)
    as (s' & data' & entries & Hcall & Hdata & Hnumber & Hprincipal & _).
  - vm_compute. reflexivity.
  - vm_compute. reflexivity.
  - lia.
  - unfold is_int64. rewrite MIN_INT64_val, MAX_INT64_val. simpl. lia.
  - vm_compute. reflexivity.
  - vm_compute. reflexivity.
  - constructor.
  - exists s', data'. split; [exact Hcall|]. split; [exact Hdata|].
    split; [exact Hnumber|exact Hprincipal].
Defined.

(** C1, as stated, fails: facts 1, 20 and 22 of the test, with
    [max_delay] of 10000 days.  The pass applies facts 1 and 20, meets the
    gap at fact 22, records its [committed_at], and returns [True]; the
    marker is deleted. *)
Lemma gap_pass_returns_done :
  (exists s' data',
     process_pending_ledger_update Tests.current_ts Tests.C_ID Tests.D_ID 10
       (days 10000) Tests.db_with_gap = Ok (true, s')
     /\ account_data s' !! (Tests.C_ID, Tests.D_ID) = Some data'
     /\ AccountData.ledger_pending_transfer_ts data'
        = Some Tests.current_ts
     /\ AccountData.ledger_last_transfer_number data' = 20
     /\ length (ledger_entry s') = 3%nat
     /\ ((Tests.C_ID, Tests.D_ID) ∉ pending_ledger_update s'))
  /\ ~ (exists s',
          process_pending_ledger_update Tests.current_ts Tests.C_ID
            Tests.D_ID 10 (days 10000) Tests.db_with_gap = Ok (false, s')).
Proof.
  assert (Hcall :
    exists s',
      process_pending_ledger_update Tests.current_ts Tests.C_ID Tests.D_ID
        10 (days 10000) Tests.db_with_gap = Ok (true, s')
      /\ (exists data',
             account_data s' !! (Tests.C_ID, Tests.D_ID) = Some data'
             /\ AccountData.ledger_pending_transfer_ts data'
                = Some Tests.current_ts
             /\ AccountData.ledger_last_transfer_number data' = 20)
      /\ length (ledger_entry s') = 3%nat
      /\ pending_ledger_update s' = ∅).
  { vm_compute. eexists. split; [reflexivity|]. split.
    - eexists. split; [reflexivity|]. split; reflexivity.
    - split; reflexivity. }
  destruct Hcall as (s' & Hcall & (data' & Hdata & Hts & Hnumber) & Hlen
                     & Hmarker).
  split.
  - exists s', data'. rewrite Hmarker. repeat split; try done.
  - intros (s'' & Hcall'). rewrite Hcall in Hcall'. discriminate.
Qed.

Lemma gap_stops_the_pass_witness :
  exists s',
    process_pending_ledger_update Tests.current_ts Tests.C_ID Tests.D_ID 10
      (days 10000) Tests.db_with_gap = Ok (true, s')
    /\ (AccountData.ledger_pending_transfer_ts
          <$> account_data s' !! (Tests.C_ID, Tests.D_ID))
       = Some (Some Tests.current_ts).
Proof.
  destruct (walk_pending_transfers (Tests.current_ts - days 10000)
              Tests.current_ts
              [(0, 1, 1000, 1100, Tests.current_ts);
               (1, 20, 1000, 2100, Tests.current_ts)]
              None (Tests.account, Tests.db_with_gap))
    as [[[broke log_entry1] st1]|e] eqn:Hwalk; [|vm_compute in Hwalk; done].
  destruct broke; [vm_compute in Hwalk; done|].
  assert (Hledger : AccountData.ledger_last_transfer_number (fst st1) = 20).
  { vm_compute in Hwalk. injection Hwalk as _ <-. reflexivity. }
  destruct (gap_stops_the_pass Tests.current_ts Tests.C_ID Tests.D_ID 10
              (days 10000) Tests.db_with_gap Tests.account
              [(0, 1, 1000, 1100, Tests.current_ts);
               (1, 20, 1000, 2100, Tests.current_ts)]
              21 22 1000 4150 Tests.current_ts [] log_entry1 st1)
    as (s' & Hcall & Hdata & _).
  - vm_compute. reflexivity.
  - vm_compute. reflexivity.
  - vm_compute. reflexivity.
  - exact Hwalk.
  - rewrite Hledger. lia.
  - vm_compute. discriminate.
  - exists s'. split; [exact Hcall|]. rewrite Hdata. reflexivity.
Defined.

(** C3, as stated, fails: the update that the account stores, sent again a
    day later, is not newer than the stored one and changes the row all
    the same: [last_heartbeat_ts] moves to the [ts] of the signal. *)
Lemma repeated_update_moves_heartbeat :
  event_le
    (AccountUpdateSignal.creation_date Tests.repeated_update,
     AccountUpdateSignal.last_change_ts Tests.repeated_update,
     AccountUpdateSignal.last_change_seqnum Tests.repeated_update)
    (AccountData.creation_date Tests.account_behind,
     AccountData.last_change_ts Tests.account_behind,
     AccountData.last_change_seqnum Tests.account_behind) = true
  /\ exists s' data',
       process_account_update_signal Tests.HUGE_NEGLIGIBLE_AMOUNT
         Tests.DEFAULT_CONFIG_FLAGS Tests.CONFIG_SCHEDULED_FOR_DELETION_FLAG
         Tests.is_deletion_safe Tests._insert_info_update_pending_log_entry
         (Tests.current_ts + days 1 + seconds 5)
         (Tests.current_ts + days 1 + seconds 5)
         Tests.repeated_update Tests.db_behind = Ok s'
       /\ account_data Tests.db_behind !! (Tests.C_ID, Tests.D_ID)
          = Some Tests.account_behind
       /\ account_data s' !! (Tests.C_ID, Tests.D_ID) = Some data'
       /\ AccountData.last_heartbeat_ts Tests.account_behind
          = Tests.current_ts
       /\ AccountData.last_heartbeat_ts data' = Tests.current_ts + days 1
       /\ data' <> Tests.account_behind.
Proof.
  split; [vm_compute; reflexivity|].
  vm_compute. eexists _, _. split; [reflexivity|].
  split; [reflexivity|]. split; [reflexivity|]. split; [reflexivity|].
  split; [reflexivity|]. discriminate.
Qed.

Lemma stale_account_update_witness :
  exists s',
    process_account_update_signal Tests.HUGE_NEGLIGIBLE_AMOUNT
      Tests.DEFAULT_CONFIG_FLAGS Tests.CONFIG_SCHEDULED_FOR_DELETION_FLAG
      Tests.is_deletion_safe Tests._insert_info_update_pending_log_entry
      (Tests.current_ts + days 1 + seconds 5)
      (Tests.current_ts + days 1 + seconds 5)
      Tests.repeated_update Tests.db_behind = Ok s'
    /\ pending_log_entry s' = pending_log_entry Tests.db_behind.
Proof.
  destruct (stale_account_update_touches_heartbeat_only
              Tests.HUGE_NEGLIGIBLE_AMOUNT Tests.DEFAULT_CONFIG_FLAGS
              Tests.CONFIG_SCHEDULED_FOR_DELETION_FLAG Tests.is_deletion_safe
              Tests._insert_info_update_pending_log_entry
              (Tests.current_ts + days 1 + seconds 5)
              (Tests.current_ts + days 1 + seconds 5)
              Tests.repeated_update Tests.db_behind Tests.account_behind)
    as (s' & Hcall & _ & Hlog & _).
  - vm_compute. reflexivity.
  - vm_compute. reflexivity.
  - exists s'. split; [exact Hcall|exact Hlog].
Defined.

End AccountUpdatesTheory.

(** ** The change log and the creditor *)

Module CreditorsTheory.
Import Creditors CommonFacts.




Section FlushFacts.
Context (paths : paths.t) (types : types.t).
Context (is_created : PendingLogEntry.t -> bool).

Lemma consecutive_app first ids ids' :
  consecutive first ids ->
  consecutive (first + Z.of_nat (length ids)) ids' ->
  consecutive first (ids ++ ids').
Proof.
  revert first. induction ids as [|id ids IH]; intros first; simpl.
  - by rewrite Z.add_0_r.
  - intros [-> Hids] Hids'. split; [done|]. apply IH; [done|].
    by replace (first + 1 + Z.of_nat (length ids))
      with (first + Z.pos (Pos.of_succ_nat (length ids))) by lia.
Qed.

Lemma flush_pending_log_entries_spec creditor_id entries :
  forall creditor s,
    Creditor.creditor_id creditor = creditor_id ->
    exists rows,
      let st' :=
        flush_pending_log_entries paths types is_created creditor_id entries
          (creditor, s) in
      log_entry (snd st') = log_entry s ++ rows
      /\ flushed paths types is_created creditor_id
           (Creditor.last_log_entry_id creditor)
           (Creditor.transfer_list_latest_update_id creditor) entries rows
      /\ consecutive (Creditor.last_log_entry_id creditor + 1)
           (map LogEntry.entry_id rows)
      /\ length rows
         = (length entries
            + length (filter
                        (fun e =>
                           records_transfer_list_change types is_created e
                           = true) entries))%nat
      /\ Creditor.last_log_entry_id (fst st')
         = Creditor.last_log_entry_id creditor + Z.of_nat (length rows)
      /\ Creditor.creditor_id (fst st') = creditor_id
      /\ Creditors.creditor (snd st') = Creditors.creditor s
      /\ pending_log_entry (snd st')
         = filter
             (fun e =>
                PendingLogEntry.pending_entry_id e
                ∉ map PendingLogEntry.pending_entry_id entries)
             (pending_log_entry s).
Proof.
  induction entries as [|entry entries IH]; intros c s Hid.
  - exists []. simpl. rewrite app_nil_r, Z.add_0_r.
    repeat split; try done; [constructor|].
    symmetry. apply filter_all. intros e. apply not_elem_of_nil.
  - simpl flush_pending_log_entries.
    fold (records_transfer_list_change types is_created entry).
    destruct (records_transfer_list_change types is_created entry) eqn:Hrec.
    + match goal with
      | |- context [flush_pending_log_entries _ _ _ _ _ (?c', ?s')] =>
        destruct (IH c' s') as (rows & Hlog & Hfl & Hcons & Hlen & Hlast
                                & Hcid & Hcred & Hpend); [by simpl|]
      end.
      simpl in Hlog, Hfl, Hcons, Hlen, Hlast, Hcid, Hcred, Hpend.
      eexists (_ :: _ :: rows). simpl.
      rewrite Hlog, Hlast, Hcid, Hcred, Hpend. clear IH.
      rewrite <- !app_assoc. simpl.
      split; [reflexivity|]. split.
      { rewrite <- Hid at 1 2.
        replace (Creditor.last_log_entry_id c + 1 + 1)
          with (Creditor.last_log_entry_id c + 2) in * by lia.
        apply flushed_transfer; [done|]. by rewrite Hid. }
      split; [done|]. split.
      { rewrite filter_cons_True by done. simpl. lia. }
      split; [lia|]. split; [done|]. split; [done|].
      rewrite list_filter_filter. apply list_filter_iff. intros e.
      rewrite not_elem_of_cons. tauto.
    + match goal with
      | |- context [flush_pending_log_entries _ _ _ _ _ (?c', ?s')] =>
        destruct (IH c' s') as (rows & Hlog & Hfl & Hcons & Hlen & Hlast
                                & Hcid & Hcred & Hpend); [by simpl|]
      end.
      simpl in Hlog, Hfl, Hcons, Hlen, Hlast, Hcid, Hcred, Hpend.
      eexists (_ :: rows). simpl.
      rewrite Hlog, Hlast, Hcid, Hcred, Hpend. clear IH.
      rewrite <- !app_assoc. simpl.
      split; [reflexivity|]. split.
      { rewrite <- Hid at 1. apply flushed_plain; [done|]. by rewrite Hid. }
      split; [done|]. split.
      { rewrite filter_cons_False by (by rewrite Hrec). simpl. lia. }
      split; [lia|]. split; [done|]. split; [done|].
      rewrite list_filter_filter. apply list_filter_iff. intros e.
      rewrite not_elem_of_cons. tauto.
Qed.

Lemma get_pending_log_entries_perm creditor_id s :
  Permutation (get_pending_log_entries creditor_id s)
    (filter (fun e => PendingLogEntry.creditor_id e = creditor_id)
       (pending_log_entry s)).
Proof. apply order_by_perm. Qed.

Lemma processed_entries_are_gone creditor_id s (rest : list PendingLogEntry.t) :
  rest
  = filter
      (fun e =>
         PendingLogEntry.pending_entry_id e
         ∉ map PendingLogEntry.pending_entry_id
             (get_pending_log_entries creditor_id s))
      (pending_log_entry s) ->
  Forall (fun e => PendingLogEntry.creditor_id e <> creditor_id) rest.
Proof.
  intros ->. apply Forall_forall. intros e He Hcid.
  apply list_elem_of_filter in He as [Hnot Hin]. apply Hnot.
  apply list_elem_of_fmap. exists e. split; [done|].
  rewrite get_pending_log_entries_perm.
  apply list_elem_of_filter. done.
Qed.

(** C7.  For an existing creditor, one flush takes the creditor's pending
    entries in the order of [pending_entry_id], copies each into a durable
    entry with the next [entry_id] of the creditor's counter, adds the
    entry of the list of transfers right after each entry that records the
    creation or the deletion of a transfer ([flushed]), so that the entry
    ids are consecutive, and leaves no pending entry of the creditor; two
    pending entries of which exactly one records such a change give three
    durable entries. *)
Theorem log_flush_keeps_insertion_order creditor_id s creditor :
  Creditors.creditor s !! creditor_id = Some creditor ->
  Creditor.creditor_id creditor = creditor_id ->
  let entries := get_pending_log_entries creditor_id s in
  let s' :=
    process_pending_log_entries paths types is_created creditor_id s in
  StronglySorted
    (fun a b =>
       PendingLogEntry.pending_entry_id a
       <= PendingLogEntry.pending_entry_id b) entries
  /\ Permutation entries
       (filter (fun e => PendingLogEntry.creditor_id e = creditor_id)
          (pending_log_entry s))
  /\ exists rows creditor',
       log_entry s' = log_entry s ++ rows
       /\ flushed paths types is_created creditor_id
            (Creditor.last_log_entry_id creditor)
            (Creditor.transfer_list_latest_update_id creditor) entries rows
       /\ consecutive (Creditor.last_log_entry_id creditor + 1)
            (map LogEntry.entry_id rows)
       /\ length rows
          = (length entries
             + length (filter
                         (fun e =>
                            records_transfer_list_change types is_created e
                            = true) entries))%nat
       /\ Creditors.creditor s' !! creditor_id = Some creditor'
       /\ Creditor.last_log_entry_id creditor'
          = Creditor.last_log_entry_id creditor + Z.of_nat (length rows)
       /\ Forall (fun e => PendingLogEntry.creditor_id e <> creditor_id)
            (pending_log_entry s')
       /\ forall e1 e2,
            entries = [e1; e2] ->
            records_transfer_list_change types is_created e1
            <> records_transfer_list_change types is_created e2 ->
            length rows = 3%nat.
Proof.
  intros Hcreditor Hid. cbv zeta.
  split; [apply order_by_sorted|].
  split; [apply get_pending_log_entries_perm|].
  destruct (flush_pending_log_entries_spec creditor_id
              (get_pending_log_entries creditor_id s) creditor s Hid)
    as (rows & Hlog & Hfl & Hcons & Hlen & Hlast & Hcid & Hcred & Hpend).
  cbv zeta in Hlog, Hlast, Hcid, Hcred, Hpend.
  assert (Htwo : forall e1 e2,
             get_pending_log_entries creditor_id s = [e1; e2] ->
             records_transfer_list_change types is_created e1
             <> records_transfer_list_change types is_created e2 ->
             length rows = 3%nat).
  { intros e1 e2 Heq Hone. rewrite Hlen, Heq. rewrite filter_cons.
    rewrite (filter_cons _ e2). rewrite filter_nil.
    destruct (records_transfer_list_change types is_created e1),
      (records_transfer_list_change types is_created e2);
      repeat case_decide; try done. }
  unfold process_pending_log_entries. rewrite Hcreditor.
  destruct (get_pending_log_entries creditor_id s)
    as [|entry entries'] eqn:Hentries.
  - destruct rows as [|row rows]; [|done].
    exists [], creditor. rewrite app_nil_r.
    split; [done|]. split; [done|]. split; [done|]. split; [done|].
    split; [done|]. split; [simpl; lia|]. split; [|done].
    apply (processed_entries_are_gone creditor_id s). rewrite Hentries.
    symmetry. apply filter_all. intros e. apply not_elem_of_nil.
  - exists rows, (fst (flush_pending_log_entries paths types is_created
                         creditor_id (entry :: entries') (creditor, s))).
    unfold commit. simpl log_entry. simpl Creditors.creditor.
    simpl pending_log_entry.
    split; [done|]. split; [done|]. split; [done|]. split; [done|].
    split; [by rewrite lookup_insert_eq|]. split; [done|].
    split; [|done].
    apply (processed_entries_are_gone creditor_id s). by rewrite Hentries.
Qed.

(** C8.  For an active creditor and a [latest_update_id] within
    [1 .. MAX_INT64]: a request with the stored id returns the creditor and
    leaves the state as it is; a request with any id other than the stored
    one and its successor raises [UpdateConflict]; a request with the
    successor stores it, sets the timestamp and appends one log entry. *)
Theorem update_creditor_follows_update_id_protocol
  current_ts creditor_id latest_update_id s creditor :
  get_creditor creditor_id s = Some creditor ->
  1 <= latest_update_id <= MAX_INT64 ->
  (latest_update_id = Creditor.creditor_latest_update_id creditor ->
   update_creditor paths types current_ts creditor_id latest_update_id s
   = Ok (creditor, s))
  /\ (latest_update_id <> Creditor.creditor_latest_update_id creditor ->
      latest_update_id <> Creditor.creditor_latest_update_id creditor + 1 ->
      update_creditor paths types current_ts creditor_id latest_update_id s
      = Raise UpdateConflict)
  /\ (latest_update_id = Creditor.creditor_latest_update_id creditor + 1 ->
      exists creditor' s',
        update_creditor paths types current_ts creditor_id latest_update_id s
        = Ok (creditor', s')
        /\ Creditors.creditor s' !! creditor_id = Some creditor'
        /\ Creditor.creditor_latest_update_id creditor'
           = Creditor.creditor_latest_update_id creditor + 1
        /\ Creditor.creditor_latest_update_ts creditor' = current_ts
        /\ log_entry s'
           = log_entry s
             ++ [LogEntry.mk
                   (Creditor.creditor_id creditor)
                   (Creditor.last_log_entry_id creditor + 1)
                   (types.creditor types)
                   (paths.creditor paths creditor_id)
                   (Some (Creditor.creditor_latest_update_id creditor + 1))
                   current_ts
                   false
                   None]
        /\ pending_log_entry s' = pending_log_entry s).
Proof.
  intros Hget Hrange. unfold update_creditor.
  replace ((1 <=? latest_update_id) && (latest_update_id <=? MAX_INT64))
    with true by lia.
  simpl. rewrite Hget. unfold allow_update. simpl existsb. simpl negb.
  rewrite andb_true_r.
  split; [|split].
  - intros ->. by rewrite Z.eqb_refl.
  - intros Hne Hne'.
    replace (latest_update_id
             =? Creditor.creditor_latest_update_id creditor)
      with false by lia.
    replace (latest_update_id
             =? Creditor.creditor_latest_update_id creditor + 1)
      with false by lia.
    done.
  - intros ->.
    replace (Creditor.creditor_latest_update_id creditor + 1
             =? Creditor.creditor_latest_update_id creditor)
      with false by lia.
    rewrite Z.eqb_refl. simpl. eexists _, _. split; [reflexivity|].
    simpl. rewrite lookup_insert_eq. done.
Qed.
End FlushFacts.

(** *** The properties on the values of the tests *)

Lemma log_flush_witness :
  length
    (log_entry
       (process_pending_log_entries Tests.paths Tests.types Tests.is_created
          Tests.C_ID Tests.db_with_pending_log))
  = 3%nat.
Proof.
  destruct (log_flush_keeps_insertion_order Tests.paths Tests.types
              Tests.is_created Tests.C_ID Tests.db_with_pending_log
              Tests.creditor)
    as (_ & _ & rows & creditor' & Hlog & _ & _ & _ & _ & _ & _ & Htwo).
  - vm_compute. reflexivity.
  - reflexivity.
  - rewrite Hlog. simpl.
    apply (Htwo Tests.info_entry Tests.transfer_deletion_entry).
    + vm_compute. reflexivity.
    + vm_compute. discriminate.
Defined.

Lemma update_creditor_witness :
  exists creditor' s',
    update_creditor Tests.paths Tests.types Tests.current_ts Tests.C_ID 2
      Tests.db_with_pending_log = Ok (creditor', s')
    /\ Creditor.creditor_latest_update_id creditor' = 2.
Proof.
  destruct (update_creditor_follows_update_id_protocol Tests.paths
              Tests.types Tests.current_ts Tests.C_ID 2
              Tests.db_with_pending_log Tests.creditor)
    as (_ & _ & Hnext).
  - vm_compute. reflexivity.
  - rewrite MAX_INT64_val. lia.
  - destruct Hnext as (creditor' & s' & Hcall & _ & Hid & _);
      [reflexivity|].
    exists creditor', s'. split; [exact Hcall|exact Hid].
Defined.

End CreditorsTheory.

(** ** Running transfers *)

Module TransfersTheory.
Import Transfers CommonFacts.


Lemma find_running_transfer_elem coordinator_id coordinator_request_id s rt :
  _find_running_transfer coordinator_id coordinator_request_id s = Some rt ->
  In rt (running_transfer s).
Proof. intros Hfind. by apply find_some in Hfind as [? _]. Qed.

(** A changed object is found again under its primary key. *)
Lemma get_updated_running_transfer rt rt' s :
  In rt (running_transfer s) ->
  RunningTransfer.creditor_id rt' = RunningTransfer.creditor_id rt ->
  RunningTransfer.transfer_uuid rt' = RunningTransfer.transfer_uuid rt ->
  get_running_transfer (RunningTransfer.creditor_id rt)
    (RunningTransfer.transfer_uuid rt) (update_running_transfer rt' s)
  = Some rt'.
Proof.
  intros Hin Hc Hu. unfold get_running_transfer, update_running_transfer.
  simpl. induction (running_transfer s) as [|row rows IH]; [done|].
  simpl. rewrite Hc, Hu.
  destruct ((RunningTransfer.creditor_id row
             =? RunningTransfer.creditor_id rt)
            && (RunningTransfer.transfer_uuid row
                =? RunningTransfer.transfer_uuid rt)) eqn:Hrow.
  - by rewrite Hc, Hu, !Z.eqb_refl.
  - rewrite Hrow. rewrite Hc, Hu in IH. apply IH.
    destruct Hin as [->|Hin]; [|done].
    by rewrite !Z.eqb_refl in Hrow.
Qed.

(** C4.  A finalized reply for an un-finalized running transfer whose
    [transfer_id] is set, with a committed amount other than the requested
    one and either the status OK or a committed amount other than zero,
    finalizes the transfer with [SC_UNEXPECTED_ERROR], whatever the status
    code of the reply, and raises nothing. *)
Theorem inconsistent_finalized_reply_is_unexpected_error
  current_ts debtor_id creditor_id transfer_id coordinator_id
  coordinator_request_id committed_amount status_code total_locked_amount
  s rt :
  _find_running_transfer coordinator_id coordinator_request_id s = Some rt ->
  RunningTransfer.is_finalized rt = false ->
  RunningTransfer.is_settled rt = true ->
  committed_amount <> RunningTransfer.amount rt ->
  status_code = SC_OK \/ committed_amount <> 0 ->
  exists s' rt',
    process_finalized_direct_transfer_signal current_ts debtor_id
      creditor_id transfer_id coordinator_id coordinator_request_id
      committed_amount status_code total_locked_amount s = Ok s'
    /\ get_running_transfer (RunningTransfer.creditor_id rt)
         (RunningTransfer.transfer_uuid rt) s' = Some rt'
    /\ RunningTransfer.error_code rt' = Some SC_UNEXPECTED_ERROR
    /\ RunningTransfer.finalized_at rt' = Some current_ts
    /\ RunningTransfer.total_locked_amount rt' = None
    /\ RunningTransfer.latest_update_id rt'
       = RunningTransfer.latest_update_id rt + 1
    /\ exists entry,
         pending_log_entry s' = pending_log_entry s ++ [entry]
         /\ PendingLogEntry.data_error_code entry = Some SC_UNEXPECTED_ERROR
         /\ PendingLogEntry.data_finalized_at entry = Some current_ts.
Proof.
  intros Hfind Hopen Hsettled Hamount Hodd.
  unfold process_finalized_direct_transfer_signal.
  rewrite Hfind, Hopen, Hsettled. simpl negb. simpl andb.
  replace (is_inconsistent_reply (RunningTransfer.amount rt)
             committed_amount status_code) with true.
  2:{ unfold is_inconsistent_reply. case_bool_decide; [lia|].
      destruct Hodd; [done|lia]. }
  unfold _finalize_running_transfer. rewrite Hopen. simpl.
  eexists _, _. split; [reflexivity|].
  split.
  { apply (get_updated_running_transfer rt); [|done|done].
    by eapply find_running_transfer_elem. }
  simpl. repeat split; try done. eexists. done.
Qed.


(** C5.  A prepared reply that matches a running transfer which is
    neither finalized nor prepared records the [transfer_id] and emits a
    finalize request with the full requested amount; a reply that matches
    no open transfer emits a finalize request with amount 0 and changes no
    row. *)
Theorem prepared_reply_commits_or_dismisses
  debtor_id creditor_id transfer_id coordinator_id coordinator_request_id
  locked_amount recipient s :
  (forall rt,
     _find_running_transfer coordinator_id coordinator_request_id s
     = Some rt ->
     RunningTransfer.is_finalized rt = false ->
     RunningTransfer.transfer_id rt = None ->
     exists s' rt',
       process_prepared_direct_transfer_signal debtor_id creditor_id
         transfer_id coordinator_id coordinator_request_id locked_amount
         recipient s = Ok s'
       /\ get_running_transfer (RunningTransfer.creditor_id rt)
            (RunningTransfer.transfer_uuid rt) s' = Some rt'
       /\ RunningTransfer.transfer_id rt' = Some transfer_id
       /\ RunningTransfer.amount rt' = RunningTransfer.amount rt
       /\ exists signal,
            finalize_transfer_signal s'
            = finalize_transfer_signal s ++ [signal]
            /\ FinalizeTransferSignal.committed_amount signal
               = RunningTransfer.amount rt
            /\ FinalizeTransferSignal.transfer_id signal = transfer_id
            /\ FinalizeTransferSignal.coordinator_request_id signal
               = coordinator_request_id)
  /\ (match
        _find_running_transfer coordinator_id coordinator_request_id s
      with
      | Some rt => RunningTransfer.is_finalized rt = true
      | None => True
      end ->
      exists s' signal,
        process_prepared_direct_transfer_signal debtor_id creditor_id
          transfer_id coordinator_id coordinator_request_id locked_amount
          recipient s = Ok s'
        /\ finalize_transfer_signal s'
           = finalize_transfer_signal s ++ [signal]
        /\ FinalizeTransferSignal.committed_amount signal = 0
        /\ FinalizeTransferSignal.transfer_id signal = transfer_id
        /\ FinalizeTransferSignal.coordinator_request_id signal
           = coordinator_request_id
        /\ running_transfer s' = running_transfer s
        /\ pending_log_entry s' = pending_log_entry s
        /\ committed_transfer s' = committed_transfer s
        /\ pending_ledger_update s' = pending_ledger_update s).
Proof.
  unfold process_prepared_direct_transfer_signal. split.
  - intros rt Hfind Hopen Hnew. rewrite Hfind, Hopen.
    unfold RunningTransfer.is_settled. rewrite Hnew. simpl.
    eexists _, _. split; [reflexivity|]. split.
    { apply (get_updated_running_transfer rt); [|done|done].
      by eapply find_running_transfer_elem. }
    simpl. repeat split; try done. eexists. done.
  - destruct (_find_running_transfer coordinator_id coordinator_request_id s)
      as [rt|]; [intros ->|intros _]; simpl;
      eexists _, _; (split; [reflexivity|]); done.
Qed.

(** C6.  Cancelling a running transfer whose [transfer_id] is set and
    which is not finalized raises [ForbiddenTransferCancellation], and with
    it changes nothing; a cancellation that succeeds found the transfer
    with no [transfer_id]. *)
Theorem cancellation_is_forbidden_after_preparation
  current_ts creditor_id transfer_uuid s :
  ((exists rt,
      get_running_transfer creditor_id transfer_uuid s = Some rt
      /\ RunningTransfer.is_settled rt = true
      /\ RunningTransfer.is_finalized rt = false) ->
   cancel_running_transfer current_ts creditor_id transfer_uuid s
   = Raise ForbiddenTransferCancellation)
  /\ forall rt' s',
       cancel_running_transfer current_ts creditor_id transfer_uuid s
       = Ok (rt', s') ->
       exists rt,
         get_running_transfer creditor_id transfer_uuid s = Some rt
         /\ RunningTransfer.transfer_id rt = None.
Proof.
  unfold cancel_running_transfer. split.
  - intros (rt & -> & -> & _). done.
  - intros rt' s'.
    destruct (get_running_transfer creditor_id transfer_uuid s) as [rt|];
      [|done].
    unfold RunningTransfer.is_settled.
    destruct (RunningTransfer.transfer_id rt) eqn:Hid; [done|].
    intros _. by exists rt.
Qed.

(** *** The properties on the values of the tests *)

Lemma inconsistent_finalized_reply_witness :
  exists s' rt',
    process_finalized_direct_transfer_signal Tests.current_ts Tests.D_ID
      Tests.C_ID 123 Tests.C_ID 1 999 "TEST_ERROR" 100
      (Tests.db_with_transfer Tests.prepared_transfer) = Ok s'
    /\ get_running_transfer Tests.C_ID Tests.TEST_UUID s' = Some rt'
    /\ RunningTransfer.error_code rt' = Some SC_UNEXPECTED_ERROR.
Proof.
  destruct (inconsistent_finalized_reply_is_unexpected_error
              Tests.current_ts Tests.D_ID Tests.C_ID 123 Tests.C_ID 1 999
              "TEST_ERROR" 100
              (Tests.db_with_transfer Tests.prepared_transfer)
              Tests.prepared_transfer)
    as (s' & rt' & Hcall & Hget & Hcode & _).
  - vm_compute. reflexivity.
  - reflexivity.
  - reflexivity.
  - simpl. lia.
  - right. lia.
  - exists s', rt'. split; [exact Hcall|]. split; [exact Hget|exact Hcode].
Defined.

Lemma prepared_reply_witness :
  (exists s',
     process_prepared_direct_transfer_signal Tests.D_ID Tests.C_ID 123
       Tests.C_ID 1 0 "666" (Tests.db_with_transfer Tests.running_transfer)
     = Ok s'
     /\ (FinalizeTransferSignal.committed_amount
           <$> finalize_transfer_signal s') = [1000])
  /\ (exists s',
        process_prepared_direct_transfer_signal Tests.D_ID Tests.C_ID 123
          Tests.C_ID 2 0 "666"
          (Tests.db_with_transfer Tests.running_transfer) = Ok s'
        /\ (FinalizeTransferSignal.committed_amount
              <$> finalize_transfer_signal s') = [0]
        /\ running_transfer s' = [Tests.running_transfer]).
Proof.
  split.
  - destruct (proj1 (prepared_reply_commits_or_dismisses Tests.D_ID
                       Tests.C_ID 123 Tests.C_ID 1 0 "666"
                       (Tests.db_with_transfer Tests.running_transfer))
                Tests.running_transfer)
      as (s' & rt' & Hcall & _ & _ & _ & signal & Hsignals & Hamount & _).
    + vm_compute. reflexivity.
    + reflexivity.
    + reflexivity.
    + exists s'. split; [exact Hcall|]. rewrite Hsignals. simpl.
      rewrite Hamount. reflexivity.
  - destruct (proj2 (prepared_reply_commits_or_dismisses Tests.D_ID
                       Tests.C_ID 123 Tests.C_ID 2 0 "666"
                       (Tests.db_with_transfer Tests.running_transfer)))
      as (s' & signal & Hcall & Hsignals & Hamount & _ & _ & Hrows & _).
    + vm_compute. exact I.
    + exists s'. split; [exact Hcall|]. rewrite Hsignals, Hrows. simpl.
      rewrite Hamount. split; reflexivity.
Defined.

Lemma cancellation_after_preparation_witness :
  cancel_running_transfer Tests.current_ts Tests.C_ID Tests.TEST_UUID
    (Tests.db_with_transfer Tests.prepared_transfer)
  = Raise ForbiddenTransferCancellation.
Proof.
  apply (proj1 (cancellation_is_forbidden_after_preparation
                  Tests.current_ts Tests.C_ID Tests.TEST_UUID
                  (Tests.db_with_transfer Tests.prepared_transfer))).
  exists Tests.prepared_transfer.
  split; [vm_compute; reflexivity|]. split; reflexivity.
Defined.

End TransfersTheory.

(** ** Pages of a query: [filter], [order_by], [limit] *)

Module PagingFacts.
Import CommonFacts.

Lemma in_take {A} (x : A) n l : x ∈ take n l -> x ∈ l.
Proof.
  intros Hx. rewrite <- (take_drop n l). apply elem_of_app. by left.
Qed.

Lemma in_drop {A} (x : A) n l : x ∈ drop n l -> x ∈ l.
Proof.
  intros Hx. rewrite <- (take_drop n l). apply elem_of_app. by right.
Qed.

Lemma last_cons_default {A} (x : A) l d :
  List.last (x :: l) d = List.last l x.
Proof.
  revert x d. induction l as [|y l IH]; intros x d; [done|].
  change (List.last (x :: y :: l) d) with (List.last (y :: l) d).
  by rewrite !IH.
Qed.

Lemma short_page {A} n (l : list A) :
  (length (take n l) < n)%nat -> take n l = l.
Proof.
  intros Hshort. rewrite length_take in Hshort.
  apply take_ge. lia.
Qed.

Section Pages.
Context {A : Type} (key : A -> Z).

Lemma insert_by_strictly_sorted x l :
  StronglySorted (fun a b => key a < key b) l ->
  key x ∉ map key l ->
  StronglySorted (fun a b => key a < key b) (insert_by key x l).
Proof.
  induction 1 as [|y l Hs IH Hall]; intros Hnew; simpl.
  - repeat constructor.
  - rewrite fmap_cons, not_elem_of_cons in Hnew. destruct Hnew as [Hne Hnew].
    destruct (Z.ltb_spec (key x) (key y)) as [Hlt|Hge].
    + constructor; [by constructor|].
      constructor; [lia|].
      eapply Forall_impl; [exact Hall|]. simpl. intros; lia.
    + constructor; [by apply IH|].
      rewrite (insert_by_perm key x l). constructor; [lia|done].
Qed.

Lemma order_by_strictly_sorted l :
  NoDup (map key l) ->
  StronglySorted (fun a b => key a < key b) (order_by key l).
Proof.
  induction l as [|x l IH]; simpl; [constructor|].
  intros Hnodup. apply NoDup_cons in Hnodup as [Hnew Hnodup].
  apply insert_by_strictly_sorted; [by apply IH|].
  intros Hin. apply Hnew. apply list_elem_of_fmap in Hin as (y & Hkey & Hy).
  apply list_elem_of_fmap. exists y. split; [done|].
  by rewrite order_by_perm in Hy.
Qed.

(** Two strictly sorted lists with the same elements are the same list. *)
Lemma strictly_sorted_unique l1 :
  forall l2,
    StronglySorted (fun a b => key a < key b) l1 ->
    StronglySorted (fun a b => key a < key b) l2 ->
    (forall x, x ∈ l1 <-> x ∈ l2) ->
    l1 = l2.
Proof.
  induction l1 as [|x1 l1 IH]; intros l2 Hs1 Hs2 Hsame.
  - destruct l2 as [|x2 l2]; [done|].
    exfalso. eapply not_elem_of_nil. apply Hsame. by left.
  - destruct l2 as [|x2 l2].
    { exfalso. eapply not_elem_of_nil. apply Hsame. by left. }
    apply StronglySorted_inv in Hs1 as [Hs1 Hall1].
    apply StronglySorted_inv in Hs2 as [Hs2 Hall2].
    rewrite Forall_forall in Hall1. rewrite Forall_forall in Hall2.
    assert (Hhead : x1 = x2).
    { assert (H1 : x1 ∈ x2 :: l2) by (apply Hsame; by left).
      assert (H2 : x2 ∈ x1 :: l1) by (apply Hsame; by left).
      apply elem_of_cons in H1 as [?|H1]; [done|].
      apply elem_of_cons in H2 as [?|H2]; [done|].
      apply Hall1 in H2. apply Hall2 in H1. lia. }
    subst x2. f_equal. apply IH; [done|done|].
    intros x. split; intros Hx.
    + assert (Hin : x ∈ x1 :: l2) by (apply Hsame; by right).
      apply elem_of_cons in Hin as [->|?]; [|done].
      apply Hall1 in Hx. lia.
    + assert (Hin : x ∈ x1 :: l1) by (apply Hsame; by right).
      apply elem_of_cons in Hin as [->|?]; [|done].
      apply Hall2 in Hx. lia.
Qed.

(** The last row of a page has the largest key of the page, and the rows
    that follow the page have larger keys. *)
Lemma page_boundary n l x :
  StronglySorted (fun a b => key a < key b) l ->
  last (take n l) = Some x ->
  Forall (fun y => key y <= key x) (take n l)
  /\ Forall (fun y => key x < key y) (drop n l).
Proof.
  revert n. induction l as [|y l IH]; intros n Hs Hlast.
  - by rewrite take_nil in Hlast.
  - destruct n as [|n]; [done|].
    apply StronglySorted_inv in Hs as [Hs Hall].
    cbn [take drop firstn skipn] in *.
    destruct (take n l) as [|z page] eqn:Hpage.
    + injection Hlast as ->. split; [constructor; [lia|constructor]|].
      destruct n as [|n]; [exact Hall|].
      destruct l; [constructor|discriminate].
    + rewrite last_cons in Hlast.
      destruct (last (z :: page)) as [w|] eqn:Hw;
        [|by apply last_None in Hw].
      injection Hlast as ->. rewrite <- Hpage in Hw.
      destruct (IH n Hs Hw) as [Hbefore Hafter]. rewrite Hpage in Hbefore.
      split; [|done]. constructor; [|done].
      rewrite Forall_forall in Hall.
      assert (Hin : x ∈ l).
      { apply (in_take _ n). by apply last_Some_elem_of. }
      apply Hall in Hin. lia.
Qed.

(** The query for the rows after the last row of a page gives what follows
    the page. *)
Lemma next_page (P P' : A -> Prop)
  `{forall x, Decision (P x)} `{forall x, Decision (P' x)} n (l : list A) x :
  NoDup (map key (filter P l)) ->
  last (take n (order_by key (filter P l))) = Some x ->
  (forall y, P' y <-> P y /\ key x < key y) ->
  order_by key (filter P' l) = drop n (order_by key (filter P l)).
Proof.
  intros Hnodup Hlast Hnext.
  pose proof (order_by_strictly_sorted _ Hnodup) as Hsorted.
  destruct (page_boundary _ _ _ Hsorted Hlast) as [Hbefore Hafter].
  rewrite Forall_forall in Hbefore. rewrite Forall_forall in Hafter.
  assert (Hsub : sublist (filter P' l) (filter P l)).
  { clear -Hnext. induction l as [|y l IH]; [done|].
    rewrite !filter_cons.
    destruct (decide (P' y)) as [HP'|HP'], (decide (P y)) as [HP|HP].
    - by constructor.
    - exfalso. apply HP. by apply Hnext.
    - by constructor.
    - done. }
  apply strictly_sorted_unique.
  - apply order_by_strictly_sorted.
    eapply sublist_NoDup; [exact Hnodup|]. by apply fmap_sublist.
  - rewrite <- (take_drop n (order_by key (filter P l))) in Hsorted.
    clear -Hsorted. revert Hsorted.
    generalize (take n (order_by key (filter P l))) as page.
    induction page as [|y page IH]; [done|]. simpl. intros Hs.
    apply StronglySorted_inv in Hs as [Hs _]. by apply IH.
  - intros y. rewrite order_by_perm, list_elem_of_filter, Hnext. split.
    + intros [[HP Hkey] Hin].
      assert (Hy : y ∈ order_by key (filter P l)).
      { rewrite order_by_perm. by apply list_elem_of_filter. }
      rewrite <- (take_drop n (order_by key (filter P l))) in Hy.
      apply elem_of_app in Hy as [Hy|Hy]; [|done].
      apply Hbefore in Hy. lia.
    + intros Hy. pose proof (Hafter _ Hy) as Hkey.
      apply in_drop in Hy. rewrite order_by_perm in Hy.
      apply list_elem_of_filter in Hy as [HP Hin]. done.
Qed.

Lemma take_then_take_of_drop {B} n1 n2 (l : list B) :
  take n1 l ++ take n2 (drop n1 l) = take (n1 + n2) l.
Proof.
  revert n1. induction l as [|x l IH]; intros n1.
  - by rewrite drop_nil, !take_nil.
  - destruct n1 as [|n1]; [done|]. cbn. by rewrite IH.
Qed.

(** A row that a page leaves out comes after every row of the page. *)
Lemma page_holds_the_first_rows n l x :
  x ∈ l -> x ∉ take n (order_by key l) ->
  Forall (fun y => key y <= key x) (take n (order_by key l)).
Proof.
  intros Hin Hout.
  assert (Hx : x ∈ order_by key l) by (by rewrite order_by_perm).
  pose proof (order_by_sorted key l) as Hsorted.
  revert Hx Hout Hsorted. generalize (order_by key l) as rows. clear.
  intros rows. revert n. induction rows as [|y rows IH]; intros n Hx Hout Hs.
  - rewrite take_nil. constructor.
  - destruct n as [|n]; [constructor|]. cbn [take firstn] in *.
    apply StronglySorted_inv in Hs as [Hs Hall].
    rewrite not_elem_of_cons in Hout. destruct Hout as [Hne Hout].
    apply elem_of_cons in Hx as [?|Hx]; [done|].
    constructor; [|by apply IH].
    rewrite Forall_forall in Hall. by apply Hall.
Qed.

End Pages.
End PagingFacts.

(** ** The ledger, pass by pass *)

Module LedgerTheory.
Import AccountUpdates CommonFacts PagingFacts AccountUpdatesTheory
  LedgerVocabulary.

Lemma explains_sum start entries target :
  explains start entries target ->
  sum_acquired_amounts entries = target - start.
Proof.
  revert start. induction entries as [|e entries IH]; intros start; simpl.
  - lia.
  - intros [He Hrest]. rewrite (IH _ Hrest). lia.
Qed.

Lemma explains_app start entries middle entries' target :
  explains start entries middle ->
  explains middle entries' target ->
  explains start (entries ++ entries') target.
Proof.
  revert start. induction entries as [|e entries IH]; intros start; simpl.
  - by intros ->.
  - intros [He Hrest] Hmore. split; [done|]. by apply IH.
Qed.

Lemma correcting_entries_chain fuel current_ts :
  forall correction_amount ledger_principal made data s,
    Z.abs correction_amount <= Z.of_nat fuel * MAX_INT64 ->
    exists entries,
      correcting_entries fuel current_ts correction_amount ledger_principal
        made (data, s)
      = (0, made || negb (correction_amount =? 0),
         (AccountData.set_ledger_last_entry_id
            (AccountData.ledger_last_entry_id data
             + Z.of_nat (length entries)) data,
          add_ledger_entries entries s))
      /\ explains ledger_principal entries
           (ledger_principal + correction_amount)
      /\ Creditors.consecutive (AccountData.ledger_last_entry_id data + 1)
           (map LedgerEntry.entry_id entries)
      /\ (length entries <= fuel)%nat
      /\ Forall (fun e => is_correcting_entry e
                          /\ LedgerEntry.acquired_amount e <> 0
                          /\ - MAX_INT64 <= LedgerEntry.acquired_amount e
                             <= MAX_INT64) entries
      /\ (is_int64 ledger_principal ->
          is_int64 (ledger_principal + correction_amount) ->
          Forall (fun e => is_int64 (LedgerEntry.principal e)) entries)
      /\ (correction_amount = 0 -> entries = []).
Proof.
  induction fuel as [|fuel IH]; intros c lp made data s Hfuel.
  - assert (c = 0) by lia. subst c. exists []. simpl.
    rewrite Z.add_0_r, set_ledger_last_entry_id_id, add_ledger_entries_nil,
      orb_false_r, Z.add_0_r. done.
  - simpl correcting_entries. destruct (Z.eqb_spec c 0) as [->|Hc].
    + exists []. simpl.
      rewrite Z.add_0_r, set_ledger_last_entry_id_id, add_ledger_entries_nil,
        orb_false_r, Z.add_0_r. repeat split; try done. lia.
    + set (safe := contain_principal_overflow c).
      assert (Hsafe : safe <> 0 /\ - MAX_INT64 <= safe <= MAX_INT64
                      /\ Z.abs (c - safe) <= Z.of_nat fuel * MAX_INT64
                      /\ (is_int64 lp -> is_int64 (lp + c) ->
                          is_int64 (lp + safe))).
      { subst safe. unfold is_int64. rewrite MAX_INT64_val in *.
        destruct (contain_principal_overflow_cases c)
          as [[? ->]|[[? ->]|[? ->]]];
          rewrite ?MAX_INT64_val, ?MIN_INT64_val in *; lia. }
      destruct Hsafe as (Hnz & Hrange & Hrest & Hprincipal).
      destruct (IH (c - safe) (lp + safe) true
                  (AccountData.set_ledger_last_entry_id
                     (AccountData.ledger_last_entry_id data + 1) data)
                  (add_ledger_entry
                     (LedgerEntry.mk (AccountData.creditor_id data)
                        (AccountData.debtor_id data)
                        (AccountData.ledger_last_entry_id data + 1)
                        safe (lp + safe) current_ts None None) s) Hrest)
        as (entries & Heq & Hexp & Hcons & Hlen & Hall & Hint & _).
      eexists (_ :: entries).
      split; [|split; [|split; [|split; [|split; [|split]]]]].
      * simpl in Heq |- *. rewrite Heq, add_ledger_entries_cons, orb_true_r.
        rewrite set_ledger_last_entry_id_twice. simpl.
        replace (AccountData.ledger_last_entry_id data + 1
                 + Z.of_nat (length entries))
          with (AccountData.ledger_last_entry_id data
                + Z.pos (Pos.of_succ_nat (length entries))) by lia.
        done.
      * simpl. split; [done|].
        by replace (lp + c) with (lp + safe + (c - safe)) by lia.
      * simpl. split; [done|]. exact Hcons.
      * simpl. lia.
      * constructor; [|done]. simpl. done.
      * intros Hlp Htarget. constructor; [simpl; by apply Hprincipal|].
        apply Hint; [by apply Hprincipal|].
        by replace (lp + safe + (c - safe)) with (lp + c) by lia.
      * done.
Qed.

Lemma correcting_fuel_small correction_amount :
  Z.abs correction_amount < 3 * MAX_INT64 ->
  (correcting_fuel correction_amount <= 3)%nat.
Proof.
  unfold correcting_fuel. rewrite MAX_INT64_val. intros Hsmall.
  assert (Z.abs correction_amount / 9223372036854775807 < 3)
    by (apply Z.div_lt_upper_bound; lia).
  pose proof (Z.div_pos (Z.abs correction_amount) 9223372036854775807
                (Z.abs_nonneg _) ltac:(lia)).
  lia.
Qed.

(** X1.  [_make_correcting_ledger_entry_if_necessary], when the principal
    before the transfer and the ledger's principal are both 64-bit: it
    reports a correction exactly when the two differ, adds at most three
    entries, and the entries lead from the ledger's principal to the
    principal before the transfer, each starting where the one before it
    ended, with consecutive entry ids, no link to a transfer, a non-zero
    amount, and an amount and a principal within the 64-bit range. *)
Theorem correction_is_overflow_safe
  data s acquired_amount principal current_ts :
  is_int64 (principal - acquired_amount) ->
  is_int64 (AccountData.ledger_principal data) ->
  exists entries,
    _make_correcting_ledger_entry_if_necessary (data, s) acquired_amount
      principal current_ts
    = (negb (principal - acquired_amount
             =? AccountData.ledger_principal data),
       (AccountData.set_ledger_last_entry_id
          (AccountData.ledger_last_entry_id data
           + Z.of_nat (length entries)) data,
        add_ledger_entries entries s))
    /\ (length entries <= 3)%nat
    /\ explains (AccountData.ledger_principal data) entries
         (principal - acquired_amount)
    /\ Creditors.consecutive (AccountData.ledger_last_entry_id data + 1)
         (map LedgerEntry.entry_id entries)
    /\ Forall (fun e => is_correcting_entry e
                        /\ LedgerEntry.acquired_amount e <> 0
                        /\ is_int64 (LedgerEntry.acquired_amount e)
                        /\ is_int64 (LedgerEntry.principal e)) entries.
Proof.
  intros Hprev Hledger. unfold _make_correcting_ledger_entry_if_necessary.
  rewrite (int64b_true _ Hprev). simpl fst.
  set (c := principal - acquired_amount - AccountData.ledger_principal data).
  destruct (correcting_entries_chain (correcting_fuel c) current_ts c
              (AccountData.ledger_principal data) false data s
              (correcting_fuel_enough c))
    as (entries & -> & Hexp & Hcons & Hlen & Hall & Hint & _).
  exists entries.
  replace (AccountData.ledger_principal data + c)
    with (principal - acquired_amount) in * by (subst c; lia).
  split.
  { simpl. f_equal. f_equal. subst c.
    destruct (Z.eqb_spec (principal - acquired_amount
                          - AccountData.ledger_principal data) 0),
      (Z.eqb_spec (principal - acquired_amount)
         (AccountData.ledger_principal data)); (done || lia). }
  split.
  { etrans; [exact Hlen|]. apply correcting_fuel_small. subst c.
    unfold is_int64 in *. rewrite MAX_INT64_val, MIN_INT64_val in *. lia. }
  split; [done|]. split; [done|].
  specialize (Hint Hledger Hprev).
  apply Forall_forall. intros e He.
  rewrite Forall_forall in Hall. rewrite Forall_forall in Hint.
  destruct (Hall e He) as (? & ? & ?). split; [done|]. split; [done|].
  split; [|by apply Hint].
  unfold is_int64. rewrite MAX_INT64_val, MIN_INT64_val in *. lia.
Qed.


Lemma add_ledger_entries_snoc entries e s :
  add_ledger_entry e (add_ledger_entries entries s)
  = add_ledger_entries (entries ++ [e]) s.
Proof.
  unfold add_ledger_entries, add_ledger_entry. simpl.
  by rewrite <- app_assoc.
Qed.

Lemma same_info_refl data : same_info data data.
Proof. by destruct data. Qed.

Lemma same_info_trans data1 data2 data3 :
  same_info data1 data2 -> same_info data2 data3 -> same_info data1 data3.
Proof.
  unfold same_info. destruct data1, data2, data3. simpl.
  intros [=] [=]. by subst.
Qed.


(** What [_make_correcting_ledger_entry_if_necessary] does, whatever its
    arguments. *)
Lemma make_correcting_effect data s acquired_amount principal current_ts :
  exists entries made,
    _make_correcting_ledger_entry_if_necessary (data, s) acquired_amount
      principal current_ts
    = (made,
       (AccountData.set_ledger_last_entry_id
          (AccountData.ledger_last_entry_id data
           + Z.of_nat (length entries)) data,
        add_ledger_entries entries s))
    /\ (made = false <-> entries = [])
    /\ Creditors.consecutive (AccountData.ledger_last_entry_id data + 1)
         (map LedgerEntry.entry_id entries)
    /\ (is_int64 (principal - acquired_amount) ->
        made = negb (principal - acquired_amount
                     =? AccountData.ledger_principal data)
        /\ explains (AccountData.ledger_principal data) entries
             (principal - acquired_amount)).
Proof.
  unfold _make_correcting_ledger_entry_if_necessary.
  destruct ((MIN_INT64 <=? principal - acquired_amount)
            && (principal - acquired_amount <=? MAX_INT64)) eqn:Hrange.
  - set (c := principal - acquired_amount
              - AccountData.ledger_principal data).
    destruct (correcting_entries_chain (correcting_fuel c) current_ts c
                (AccountData.ledger_principal data) false data s
                (correcting_fuel_enough c))
      as (entries & Heq & Hexp & Hcons & _ & _ & _ & Hnil).
    simpl fst. fold c. rewrite Heq.
    exists entries, (negb (c =? 0)). split; [done|].
    split; [|split; [done|]].
    + split.
      * intros Hmade. apply Hnil. apply negb_false_iff in Hmade. lia.
      * intros ->. simpl in Hexp. apply negb_false_iff. lia.
    + intros _. split.
      * f_equal. subst c.
        destruct (Z.eqb_spec (principal - acquired_amount
                              - AccountData.ledger_principal data) 0),
          (Z.eqb_spec (principal - acquired_amount)
             (AccountData.ledger_principal data)); (done || lia).
      * by replace (principal - acquired_amount)
          with (AccountData.ledger_principal data + c) by (subst c; lia).
  - exists [], false. simpl.
    rewrite Z.add_0_r, set_ledger_last_entry_id_id, add_ledger_entries_nil.
    split; [done|]. split; [done|]. split; [done|].
    intros Hint. exfalso. unfold is_int64 in Hint. lia.
Qed.


Lemma quiet_ledger_row data entry_id principal transfer_number :
  let data' :=
    AccountData.set_ledger_last_transfer_number transfer_number
      (AccountData.set_ledger_principal principal
         (AccountData.set_ledger_last_entry_id entry_id data)) in
  same_info data data'
  /\ AccountData.creditor_id data' = AccountData.creditor_id data
  /\ AccountData.debtor_id data' = AccountData.debtor_id data
  /\ AccountData.ledger_principal data' = principal
  /\ AccountData.ledger_last_transfer_number data' = transfer_number
  /\ AccountData.ledger_last_entry_id data' = entry_id
  /\ AccountData.ledger_pending_transfer_ts data'
     = AccountData.ledger_pending_transfer_ts data
  /\ AccountData.ledger_latest_update_id data'
     = AccountData.ledger_latest_update_id data
  /\ AccountData.ledger_latest_update_ts data'
     = AccountData.ledger_latest_update_ts data.
Proof. destruct data. repeat split; reflexivity. Qed.

Lemma logged_row data update_id current_ts :
  let data' :=
    AccountData.set_ledger_latest_update_ts current_ts
      (AccountData.set_ledger_latest_update_id update_id data) in
  same_info data data'
  /\ AccountData.creditor_id data' = AccountData.creditor_id data
  /\ AccountData.debtor_id data' = AccountData.debtor_id data
  /\ AccountData.ledger_principal data' = AccountData.ledger_principal data
  /\ AccountData.ledger_last_transfer_number data'
     = AccountData.ledger_last_transfer_number data
  /\ AccountData.ledger_last_entry_id data'
     = AccountData.ledger_last_entry_id data
  /\ AccountData.ledger_pending_transfer_ts data'
     = AccountData.ledger_pending_transfer_ts data
  /\ AccountData.ledger_latest_update_id data' = update_id
  /\ AccountData.ledger_latest_update_ts data' = current_ts.
Proof. destruct data. repeat split; reflexivity. Qed.

Lemma logged_ledger_row data entry_id principal transfer_number update_id
  current_ts :
  let data' :=
    AccountData.set_ledger_latest_update_ts current_ts
      (AccountData.set_ledger_latest_update_id update_id
         (AccountData.set_ledger_last_transfer_number transfer_number
            (AccountData.set_ledger_principal principal
               (AccountData.set_ledger_last_entry_id entry_id data)))) in
  same_info data data'
  /\ AccountData.creditor_id data' = AccountData.creditor_id data
  /\ AccountData.debtor_id data' = AccountData.debtor_id data
  /\ AccountData.ledger_principal data' = principal
  /\ AccountData.ledger_last_transfer_number data' = transfer_number
  /\ AccountData.ledger_last_entry_id data' = entry_id
  /\ AccountData.ledger_pending_transfer_ts data'
     = AccountData.ledger_pending_transfer_ts data
  /\ AccountData.ledger_latest_update_id data' = update_id
  /\ AccountData.ledger_latest_update_ts data' = current_ts.
Proof.
  pose proof (quiet_ledger_row data entry_id principal transfer_number)
    as (H1 & H2 & H3 & H4 & H5 & H6 & H7 & _ & _).
  cbv zeta in H1, H2, H3, H4, H5, H6, H7 |- *.
  revert H1 H2 H3 H4 H5 H6 H7.
  generalize (AccountData.set_ledger_last_transfer_number transfer_number
                (AccountData.set_ledger_principal principal
                   (AccountData.set_ledger_last_entry_id entry_id data))).
  intros data0 H1 H2 H3 H4 H5 H6 H7.
  pose proof (logged_row data0 update_id current_ts)
    as (G1 & G2 & G3 & G4 & G5 & G6 & G7 & G8 & G9).
  cbv zeta in G1, G2, G3, G4, G5, G6, G7, G8, G9.
  split; [by eapply same_info_trans|].
  repeat split; congruence.
Qed.

(** What [_update_ledger] does when it returns. *)
Lemma update_ledger_effect
  data s transfer_number acquired_amount principal current_ts always
  log_entry data' s' :
  _update_ledger (data, s) transfer_number acquired_amount principal
    current_ts always = Ok (log_entry, (data', s')) ->
  exists entries,
    s' = add_ledger_entries entries s
    /\ same_info data data'
    /\ AccountData.ledger_principal data' = principal
    /\ AccountData.ledger_last_transfer_number data' = transfer_number
    /\ AccountData.ledger_last_entry_id data'
       = AccountData.ledger_last_entry_id data + Z.of_nat (length entries)
    /\ AccountData.ledger_pending_transfer_ts data'
       = AccountData.ledger_pending_transfer_ts data
    /\ Creditors.consecutive (AccountData.ledger_last_entry_id data + 1)
         (map LedgerEntry.entry_id entries)
    /\ match log_entry with
       | Some e =>
         announces e data'
         /\ PendingLogEntry.added_at e = current_ts
         /\ AccountData.ledger_latest_update_id data'
            = AccountData.ledger_latest_update_id data + 1
         /\ AccountData.ledger_latest_update_ts data' = current_ts
         /\ (entries = [] -> always = true)
       | None =>
         entries = []
         /\ AccountData.ledger_principal data = principal
         /\ AccountData.ledger_latest_update_id data'
            = AccountData.ledger_latest_update_id data
         /\ AccountData.ledger_latest_update_ts data'
            = AccountData.ledger_latest_update_ts data
         /\ always = false
       end
    /\ (acquired_amount <> 0 -> log_entry <> None)
    /\ (is_int64 (principal - acquired_amount) ->
        explains (AccountData.ledger_principal data) entries principal)
    /\ (acquired_amount <> 0 ->
        exists corrections,
          entries
          = corrections
            ++ [LedgerEntry.mk (AccountData.creditor_id data)
                  (AccountData.debtor_id data)
                  (AccountData.ledger_last_entry_id data'
                   ) acquired_amount principal
                  current_ts (Some (AccountData.creation_date data))
                  (Some transfer_number)]).
Proof.
  unfold _update_ledger.
  destruct (make_correcting_effect data s acquired_amount principal
              current_ts) as (entries & made & -> & Hmade & Hcons & Hexp).
  set (P := fun (row : AccountData.t) (entries : list LedgerEntry.t) =>
    (is_int64 (principal - acquired_amount) ->
     explains (AccountData.ledger_principal data) entries principal)
    /\ (acquired_amount <> 0 ->
        exists corrections,
          entries
          = corrections
            ++ [LedgerEntry.mk (AccountData.creditor_id data)
                  (AccountData.debtor_id data)
                  (AccountData.ledger_last_entry_id row) acquired_amount
                  principal current_ts
                  (Some (AccountData.creation_date data))
                  (Some transfer_number)])).
  assert (Hlogged : forall entries' entry_id row e,
    P row entries' ->
    (entries' = [] -> always = true) ->
    Creditors.consecutive (AccountData.ledger_last_entry_id data + 1)
      (map LedgerEntry.entry_id entries') ->
    entry_id
    = AccountData.ledger_last_entry_id data + Z.of_nat (length entries') ->
    row
    = AccountData.set_ledger_latest_update_ts current_ts
        (AccountData.set_ledger_latest_update_id
           (AccountData.ledger_latest_update_id
              (AccountData.set_ledger_last_transfer_number transfer_number
                 (AccountData.set_ledger_principal principal
                    (AccountData.set_ledger_last_entry_id entry_id data)))
            + 1)
           (AccountData.set_ledger_last_transfer_number transfer_number
              (AccountData.set_ledger_principal principal
                 (AccountData.set_ledger_last_entry_id entry_id data)))) ->
    e = PendingLogEntry.mk (AccountData.creditor_id row) current_ts
          (Some LogEntry.OTH_ACCOUNT_LEDGER)
          (Some (AccountData.debtor_id row))
          (Some (AccountData.ledger_latest_update_id row))
          (Some principal)
          (Some (AccountData.ledger_last_entry_id row + 1)) ->
    exists entries0,
      add_ledger_entries entries' s = add_ledger_entries entries0 s
      /\ same_info data row
      /\ AccountData.ledger_principal row = principal
      /\ AccountData.ledger_last_transfer_number row = transfer_number
      /\ AccountData.ledger_last_entry_id row
         = AccountData.ledger_last_entry_id data
           + Z.of_nat (length entries0)
      /\ AccountData.ledger_pending_transfer_ts row
         = AccountData.ledger_pending_transfer_ts data
      /\ Creditors.consecutive (AccountData.ledger_last_entry_id data + 1)
           (map LedgerEntry.entry_id entries0)
      /\ (announces e row
          /\ PendingLogEntry.added_at e = current_ts
          /\ AccountData.ledger_latest_update_id row
             = AccountData.ledger_latest_update_id data + 1
          /\ AccountData.ledger_latest_update_ts row = current_ts
          /\ (entries0 = [] -> always = true))
      /\ (acquired_amount <> 0 -> Some e <> None)
      /\ P row entries0).
  { intros entries' entry_id row e HP Hnil Hcons' -> Hrow He.
    exists entries'.
    destruct (quiet_ledger_row data
                (AccountData.ledger_last_entry_id data
                 + Z.of_nat (length entries')) principal transfer_number)
      as (_ & _ & _ & _ & _ & _ & _ & Hid & _).
    cbv zeta in Hid. rewrite Hid in Hrow. clear Hid.
    destruct (logged_ledger_row data
                (AccountData.ledger_last_entry_id data
                 + Z.of_nat (length entries')) principal transfer_number
                (AccountData.ledger_latest_update_id data + 1) current_ts)
      as (H1 & H2 & H3 & H4 & H5 & H6 & H7 & H8 & H9).
    cbv zeta in H1, H2, H3, H4, H5, H6, H7, H8, H9.
    rewrite <- Hrow in H1, H2, H3, H4, H5, H6, H7, H8, H9.
    split; [reflexivity|]. split; [exact H1|]. split; [exact H4|].
    split; [exact H5|]. split; [exact H6|]. split; [exact H7|].
    split; [exact Hcons'|]. split; [|split; [done|exact HP]].
    split; [|rewrite He; done].
    unfold announces. rewrite He. cbn [PendingLogEntry.creditor_id
      PendingLogEntry.object_type_hint PendingLogEntry.debtor_id
      PendingLogEntry.object_update_id PendingLogEntry.data_principal
      PendingLogEntry.data_next_entry_id PendingLogEntry.added_at].
    rewrite H2, H3, H4. repeat split; done. }
  destruct (Z.eqb_spec acquired_amount 0) as [Hzero|Hnz];
    cbn [negb]; cbv iota.
  - destruct made; cbn [orb].
    + cbn [assert result_bind mbind].
      intros [= <- <- <-].
      eapply Hlogged;
        [| |exact Hcons|reflexivity|reflexivity|reflexivity];
        [|intros Hnil; by apply Hmade in Hnil].
      split; [|done]. intros Hrange. destruct (Hexp Hrange) as [_ Hexp'].
      by rewrite Hzero, Z.sub_0_r in Hexp'.
    + pose proof (proj1 Hmade eq_refl). subst entries.
      cbn [length]. rewrite Z.add_0_r, set_ledger_last_entry_id_id.
      destruct (Z.eqb_spec (AccountData.ledger_principal data) principal)
        as [Hsame|Hdiff]; [|by cbn].
      destruct always.
      * cbn [orb assert mbind result_bind]. intros [= <- <- <-].
        eapply (Hlogged [] (AccountData.ledger_last_entry_id data));
          [by split|done|done|cbn [length]; lia| |reflexivity].
        by rewrite set_ledger_last_entry_id_id.
      * cbn [orb assert mbind result_bind]. intros [= <- <- <-]. exists [].
        destruct (quiet_ledger_row data
                    (AccountData.ledger_last_entry_id data) principal
                    transfer_number)
          as (H1 & H2 & H3 & H4 & H5 & H6 & H7 & H8 & H9).
        cbv zeta in H1, H2, H3, H4, H5, H6, H7, H8, H9.
        rewrite set_ledger_last_entry_id_id in H1, H2, H3, H4, H5, H6, H7,
          H8, H9.
        cbn [length]. rewrite Z.add_0_r, add_ledger_entries_nil.
        do 9 (split; [done|]). split; [done|]. intros Hnz. done.
  - cbn [orb assert mbind result_bind]. intros [= <- <- <-].
    rewrite set_ledger_last_entry_id_twice.
    change (AccountData.ledger_last_entry_id
              (AccountData.set_ledger_last_entry_id
                 (AccountData.ledger_last_entry_id data
                  + Z.of_nat (length entries)) data))
      with (AccountData.ledger_last_entry_id data
            + Z.of_nat (length entries)).
    rewrite add_ledger_entries_snoc.
    eapply Hlogged; [| | | |reflexivity|reflexivity].
    + split.
      * intros Hrange. destruct (Hexp Hrange) as [_ Hexp'].
        eapply explains_app; [exact Hexp'|]. cbn. split; [lia|done].
      * intros _. by exists entries.
    + intros Hnil. by destruct entries.
    + rewrite map_app. apply CreditorsTheory.consecutive_app; [done|].
      rewrite length_map. cbn. split; [lia|done].
    + rewrite length_app. cbn [length]. lia.
Qed.

Lemma update_ledger_returns
  data s transfer_number acquired_amount principal current_ts always :
  acquired_amount <> 0 \/ is_int64 principal ->
  exists log_entry st,
    _update_ledger (data, s) transfer_number acquired_amount principal
      current_ts always = Ok (log_entry, st).
Proof.
  intros Hok. unfold _update_ledger.
  destruct (make_correcting_effect data s acquired_amount principal
              current_ts) as (entries & made & -> & Hmade & _ & Hexp).
  destruct (Z.eqb_spec acquired_amount 0) as [Hzero|Hnz];
    cbn [negb]; cbv iota.
  - destruct Hok as [Hnz|Hrange]; [done|].
    rewrite Hzero, Z.sub_0_r in Hexp. destruct (Hexp Hrange) as [-> _].
    destruct (Z.eqb_spec principal (AccountData.ledger_principal data))
      as [Hsame|Hdiff]; cbn [negb orb].
    + pose proof (proj1 Hmade eq_refl). subst entries. cbn [length].
      rewrite Z.add_0_r, set_ledger_last_entry_id_id.
      rewrite (proj2 (Z.eqb_eq _ _) (eq_sym Hsame)).
      cbn [assert mbind result_bind]. destruct always; eauto.
    + cbn [assert mbind result_bind]. eauto.
  - cbn [orb assert mbind result_bind]. eauto.
Qed.

(** X2.  [_update_ledger], when the principal before the transfer is
    64-bit, returns: its assertion holds.  The entries it adds lead from
    the ledger's old principal to [principal] with consecutive entry ids,
    the ledger stands at [principal] and [transfer_number], and it returns
    no log entry exactly when it added no entry and was not asked to log
    always. *)
Theorem update_ledger_explains_the_principal
  data s transfer_number acquired_amount principal current_ts always :
  is_int64 (principal - acquired_amount) ->
  exists log_entry data' entries,
    _update_ledger (data, s) transfer_number acquired_amount principal
      current_ts always
    = Ok (log_entry, (data', add_ledger_entries entries s))
    /\ explains (AccountData.ledger_principal data) entries principal
    /\ Creditors.consecutive (AccountData.ledger_last_entry_id data + 1)
         (map LedgerEntry.entry_id entries)
    /\ AccountData.ledger_principal data' = principal
    /\ AccountData.ledger_last_transfer_number data' = transfer_number
    /\ AccountData.ledger_last_entry_id data'
       = AccountData.ledger_last_entry_id data + Z.of_nat (length entries)
    /\ (log_entry = None <-> entries = [] /\ always = false).
Proof.
  intros Hrange.
  destruct (update_ledger_returns data s transfer_number acquired_amount
              principal current_ts always)
    as (log_entry & [data' s'] & Hcall).
  { destruct (Z.eq_dec acquired_amount 0) as [Hzero|Hnz]; [right|by left].
    by rewrite Hzero, Z.sub_0_r in Hrange. }
  destruct (update_ledger_effect _ _ _ _ _ _ _ _ _ _ Hcall)
    as (entries & -> & _ & Hprincipal & Hnumber & Hid & _ & Hcons & Hlog
        & Hnz & Hexp & Hlast).
  exists log_entry, data', entries.
  do 6 (split; [done || by apply Hexp|]).
  destruct log_entry as [e|].
  - split; [done|]. intros [-> ->].
    destruct Hlog as (_ & _ & _ & _ & Halways). by specialize (Halways eq_refl).
  - destruct Hlog as (-> & _ & _ & _ & ->). done.
Qed.

Lemma same_info_ids data data' :
  same_info data data' ->
  AccountData.creditor_id data' = AccountData.creditor_id data
  /\ AccountData.debtor_id data' = AccountData.debtor_id data
  /\ AccountData.creation_date data' = AccountData.creation_date data
  /\ AccountData.account_id data' = AccountData.account_id data
  /\ AccountData.principal data' = AccountData.principal data
  /\ AccountData.last_transfer_number data'
     = AccountData.last_transfer_number data
  /\ AccountData.last_transfer_committed_at data'
     = AccountData.last_transfer_committed_at data
  /\ AccountData.has_server_account data'
     = AccountData.has_server_account data
  /\ AccountData.last_change_ts data' = AccountData.last_change_ts data
  /\ AccountData.last_change_seqnum data'
     = AccountData.last_change_seqnum data
  /\ AccountData.last_heartbeat_ts data'
     = AccountData.last_heartbeat_ts data.
Proof. intros <-. by destruct data. Qed.

Lemma add_ledger_entries_app entries entries' s :
  add_ledger_entries entries' (add_ledger_entries entries s)
  = add_ledger_entries (entries ++ entries') s.
Proof. unfold add_ledger_entries. simpl. by rewrite app_assoc. Qed.

Lemma set_ledger_pending_transfer_ts_row v data :
  let data' := AccountData.set_ledger_pending_transfer_ts v data in
  same_info data data'
  /\ AccountData.ledger_principal data' = AccountData.ledger_principal data
  /\ AccountData.ledger_last_transfer_number data'
     = AccountData.ledger_last_transfer_number data
  /\ AccountData.ledger_last_entry_id data'
     = AccountData.ledger_last_entry_id data
  /\ AccountData.ledger_pending_transfer_ts data' = v
  /\ AccountData.ledger_latest_update_id data'
     = AccountData.ledger_latest_update_id data
  /\ AccountData.ledger_latest_update_ts data'
     = AccountData.ledger_latest_update_ts data.
Proof. destruct data. repeat split; reflexivity. Qed.

Lemma announces_same e data data' :
  announces e data ->
  same_info data data' ->
  AccountData.ledger_principal data' = AccountData.ledger_principal data ->
  AccountData.ledger_latest_update_id data'
  = AccountData.ledger_latest_update_id data ->
  AccountData.ledger_last_entry_id data'
  = AccountData.ledger_last_entry_id data ->
  announces e data'.
Proof.
  unfold announces. intros (? & ? & ? & ? & ? & ?) Hsame -> -> ->.
  destruct (same_info_ids _ _ Hsame) as (-> & -> & _). done.
Qed.

(** One step of the pass followed by another. *)
Lemma ledger_change_is_logged_trans current_ts data data1 data2
  entries1 entries2 log_entry log_entry1 log_entry2 :
  ledger_change_is_logged current_ts data data1 entries1 log_entry
    log_entry1 ->
  ledger_change_is_logged current_ts data1 data2 entries2 log_entry1
    log_entry2 ->
  same_info data1 data2 ->
  AccountData.ledger_last_entry_id data2
  = AccountData.ledger_last_entry_id data1 + Z.of_nat (length entries2) ->
  ledger_change_is_logged current_ts data data2 (entries1 ++ entries2)
    log_entry log_entry2.
Proof.
  intros [(-> & -> & Hp1 & Hid1 & Hts1)|(e1 & -> & Hann1 & Hat1 & Hid1 & Hts1)]
    [(-> & -> & Hp2 & Hid2 & Hts2)|(e2 & -> & Hann2 & Hat2 & Hid2 & Hts2)]
    Hsame Hlast.
  - left. split; [done|]. split; [done|].
    split; [congruence|]. split; congruence.
  - right. exists e2. do 3 (split; [done|]). split; [lia|done].
  - right. exists e1. split; [done|]. split.
    + eapply announces_same; try done. simpl in Hlast. lia.
    + split; [done|]. split; [lia|congruence].
  - right. exists e2. do 3 (split; [done|]). split; [lia|done].
Qed.

(** What the loop of [process_pending_ledger_update] does when it ends
    without an error. *)
Lemma walk_effect committed_at_cutoff current_ts transfers :
  forall log_entry data s broke log_entry' data' s',
    walk_pending_transfers committed_at_cutoff current_ts transfers
      log_entry (data, s) = Ok (broke, log_entry', (data', s')) ->
    exists entries applied rest,
      transfers = applied ++ rest
      /\ s' = add_ledger_entries entries s
      /\ same_info data data'
      /\ AccountData.ledger_last_entry_id data'
         = AccountData.ledger_last_entry_id data
           + Z.of_nat (length entries)
      /\ Creditors.consecutive (AccountData.ledger_last_entry_id data + 1)
           (map LedgerEntry.entry_id entries)
      /\ ledger_change_is_logged current_ts data data' entries log_entry
           log_entry'
      /\ AccountData.ledger_last_transfer_number data'
         = List.last (map transfer_number_of applied)
             (AccountData.ledger_last_transfer_number data)
      /\ AccountData.ledger_principal data'
         = List.last (map principal_of applied)
             (AccountData.ledger_principal data)
      /\ (Forall (fun t => is_int64 (principal_of t - acquired_amount_of t))
            applied ->
          explains (AccountData.ledger_principal data) entries
            (AccountData.ledger_principal data'))
      /\ (if broke : bool
          then exists gap rest',
              rest = gap :: rest'
              /\ previous_transfer_number_of gap
                 <> AccountData.ledger_last_transfer_number data'
              /\ committed_at_cutoff <= committed_at_of gap
              /\ AccountData.ledger_pending_transfer_ts data'
                 = Some (committed_at_of gap)
          else rest = []
               /\ AccountData.ledger_pending_transfer_ts data'
                  = AccountData.ledger_pending_transfer_ts data).
Proof.
  induction transfers as [|[[[[previous_transfer_number transfer_number]
                               acquired_amount] principal] committed_at]
                            transfers IH];
    intros log_entry data s broke log_entry' data' s'.
  - cbn. intros [= <- <- <- <-]. exists [], [], [].
    rewrite add_ledger_entries_nil. cbn [length map List.last].
    rewrite Z.add_0_r.
    do 5 (split; [done || apply same_info_refl|]).
    split; [by left|]. done.
  - cbn [walk_pending_transfers fst snd].
    destruct (negb (previous_transfer_number
                    =? AccountData.ledger_last_transfer_number data)
              && (committed_at_cutoff <=? committed_at)) eqn:Hgap.
    + intros [= <- <- <- <-].
      apply andb_true_iff in Hgap as [Hprev Hcutoff].
      apply negb_true_iff, Z.eqb_neq in Hprev. apply Z.leb_le in Hcutoff.
      destruct (set_ledger_pending_transfer_ts_row (Some committed_at) data)
        as (H1 & H2 & H3 & H4 & H5 & H6 & H7).
      cbv zeta in H1, H2, H3, H4, H5, H6, H7.
      exists [], [], ((previous_transfer_number, transfer_number,
                      acquired_amount, principal, committed_at)
                     :: transfers).
      rewrite add_ledger_entries_nil. cbn [length map List.last].
      rewrite Z.add_0_r.
      do 2 (split; [done|]). split; [exact H1|]. split; [exact H4|].
      split; [done|]. split; [by left|]. split; [exact H3|].
      split; [exact H2|]. split; [intros _; cbn [explains]; by rewrite H2|].
      eexists _, _. split; [reflexivity|].
      cbn [previous_transfer_number_of committed_at_of].
      rewrite H3. split; [done|]. split; [done|exact H5].
    + destruct (_update_ledger (data, s) transfer_number acquired_amount
                  principal current_ts false)
        as [[new_entry [data1 s1]]|e] eqn:Hstep; [|done].
      cbn [mbind result_bind]. intros Hwalk.
      destruct (update_ledger_effect _ _ _ _ _ _ _ _ _ _ Hstep)
        as (entries1 & -> & Hsame1 & Hprincipal1 & Hnumber1 & Hid1 & Hts1
            & Hcons1 & Hlog1 & _ & Hexp1 & _).
      destruct (IH _ _ _ _ _ _ _ Hwalk)
        as (entries2 & applied & rest & -> & -> & Hsame2 & Hid2 & Hcons2
            & Hlog2 & Hnumber2 & Hprincipal2 & Hexp2 & Hbroke).
      exists (entries1 ++ entries2),
        ((previous_transfer_number, transfer_number, acquired_amount,
          principal, committed_at) :: applied), rest.
      split; [done|]. split; [by rewrite add_ledger_entries_app|].
      split; [by eapply same_info_trans|].
      split; [rewrite length_app; lia|].
      split.
      { rewrite map_app. apply CreditorsTheory.consecutive_app; [done|].
        rewrite length_map. rewrite Hid1 in Hcons2.
        by replace (AccountData.ledger_last_entry_id data + 1
                    + Z.of_nat (length entries1))
          with (AccountData.ledger_last_entry_id data
                + Z.of_nat (length entries1) + 1) by lia. }
      split.
      { eapply ledger_change_is_logged_trans; [|exact Hlog2|done|done].
        destruct new_entry as [e1|]; cbn [or_else].
        - destruct Hlog1 as (Hann & Hat & Hid & Hts & _).
          right. exists e1. do 3 (split; [done|]). split; [lia|done].
        - destruct Hlog1 as (-> & Hp & Hid & Hts & _).
          left. do 2 (split; [done|]). split; [congruence|].
          split; [exact Hid|exact Hts]. }
      split.
      { rewrite Hnumber2, Hnumber1. cbn [map].
        by rewrite last_cons_default. }
      split.
      { rewrite Hprincipal2, Hprincipal1. cbn [map].
        by rewrite last_cons_default. }
      split.
      { intros Hall. apply Forall_cons in Hall as [Hrange Hall'].
        eapply explains_app; [by apply Hexp1|].
        rewrite Hprincipal1 in Hexp2. by apply Hexp2. }
      destruct broke; [done|].
      destruct Hbroke as [-> Hts2]. split; [done|]. congruence.
Qed.

Lemma sorted_pending_transfers_spec s data max_count transfers :
  _get_sorted_pending_transfers s data max_count = Ok transfers ->
  0 <= max_count
  /\ Z.of_nat (length transfers) <= max_count
  /\ Forall (fun t => AccountData.ledger_last_transfer_number data
                      < transfer_number_of t) transfers
  /\ StronglySorted
       (fun t t' => transfer_number_of t <= transfer_number_of t')
       transfers.
Proof.
  unfold _get_sorted_pending_transfers, limit.
  destruct (Z.ltb_spec max_count 0) as [Hneg|Hpos]; [done|].
  cbn [mbind result_bind]. intros [= <-].
  set (P := fun ct =>
    CommittedTransfer.creditor_id ct = AccountData.creditor_id data
    /\ CommittedTransfer.debtor_id ct = AccountData.debtor_id data
    /\ CommittedTransfer.creation_date ct = AccountData.creation_date data
    /\ AccountData.ledger_last_transfer_number data
       < CommittedTransfer.transfer_number ct).
  set (rows := order_by CommittedTransfer.transfer_number
                 (filter P (committed_transfer s))).
  split; [done|]. split.
  { rewrite length_map, length_firstn. lia. }
  split.
  - apply Forall_map. apply Forall_take.
    assert (Hrows : Forall P rows).
    { subst rows. rewrite order_by_perm. apply Forall_forall.
      intros ct Hct. by apply list_elem_of_filter in Hct as [? _]. }
    eapply Forall_impl; [exact Hrows|]. by intros ct (_ & _ & _ & ?).
  - assert (Hsorted : StronglySorted
                        (fun a b => CommittedTransfer.transfer_number a
                                    <= CommittedTransfer.transfer_number b)
                        rows)
      by apply order_by_sorted.
    revert Hsorted. generalize (Z.to_nat max_count) as n.
    generalize rows as l. clear.
    induction l as [|ct l IH]; intros n Hsorted.
    + rewrite firstn_nil. constructor.
    + destruct n as [|n]; [constructor|].
      apply StronglySorted_inv in Hsorted as [Hsorted Hall].
      cbn [firstn map]. constructor; [by apply IH|].
      apply Forall_map. apply Forall_take.
      eapply Forall_impl; [exact Hall|]. done.
Qed.

Lemma last_strictly_above (l : list Z) (d bound : Z) :
  (l = [] -> bound < d) -> Forall (fun x => bound < x) l ->
  bound < List.last l d.
Proof.
  revert d. induction l as [|x l IH]; intros d Hd Hall; [by apply Hd|].
  apply Forall_cons in Hall as [Hx Hall].
  rewrite last_cons_default. by apply IH.
Qed.

Lemma fix_missing_last_transfer_effect data s max_delay current_ts
  log_entry data' s' :
  _fix_missing_last_transfer_if_necessary (data, s) max_delay current_ts
  = Ok (log_entry, (data', s')) ->
  exists entries,
    s' = add_ledger_entries entries s
    /\ same_info data data'
    /\ AccountData.ledger_last_entry_id data'
       = AccountData.ledger_last_entry_id data + Z.of_nat (length entries)
    /\ Creditors.consecutive (AccountData.ledger_last_entry_id data + 1)
         (map LedgerEntry.entry_id entries)
    /\ ledger_change_is_logged current_ts data data' entries None log_entry
    /\ AccountData.ledger_pending_transfer_ts data'
       = AccountData.ledger_pending_transfer_ts data
    /\ AccountData.ledger_last_transfer_number data
       <= AccountData.ledger_last_transfer_number data'
    /\ (is_int64 (AccountData.principal data) ->
        explains (AccountData.ledger_principal data) entries
          (AccountData.ledger_principal data')).
Proof.
  unfold _fix_missing_last_transfer_if_necessary. cbn [fst].
  destruct (match AccountData.ledger_pending_transfer_ts data with
            | Some _ => false
            | None => true
            end
            && (AccountData.ledger_last_transfer_number data
                <? AccountData.last_transfer_number data)
            && (AccountData.last_transfer_committed_at data
                <? current_ts - max_delay)) eqn:Hfix.
  - intros Hcall.
    apply andb_true_iff in Hfix as [Hfix _].
    apply andb_true_iff in Hfix as [_ Hmissing]. apply Z.ltb_lt in Hmissing.
    destruct (update_ledger_effect _ _ _ _ _ _ _ _ _ _ Hcall)
      as (entries & -> & Hsame & Hprincipal & Hnumber & Hid & Hts & Hcons
          & Hlog & _ & Hexp & _).
    exists entries. do 4 (split; [done|]). split.
    { destruct log_entry as [e|].
      - destruct Hlog as (Hann & Hat & Hid' & Hts' & _).
        right. exists e. do 3 (split; [done|]). split; [lia|done].
      - destruct Hlog as (-> & Hp & Hid' & Hts' & _).
        left. do 2 (split; [done|]). split; [congruence|].
        split; [exact Hid'|exact Hts']. }
    split; [done|]. split; [lia|].
    intros Hrange. rewrite Hprincipal. apply Hexp.
    by rewrite Z.sub_0_r.
  - intros [= <- <- <-]. exists [].
    rewrite add_ledger_entries_nil. cbn [length map]. rewrite Z.add_0_r.
    split; [done|]. split; [apply same_info_refl|].
    do 2 (split; [done|]). split; [by left|].
    split; [done|]. split; [lia|]. done.
Qed.

Lemma commit_fields key data s :
  account_data (commit key (data, s)) = <[key := data]> (account_data s)
  /\ committed_transfer (commit key (data, s)) = committed_transfer s
  /\ pending_ledger_update (commit key (data, s)) = pending_ledger_update s
  /\ ledger_entry (commit key (data, s)) = ledger_entry s
  /\ pending_log_entry (commit key (data, s)) = pending_log_entry s
  /\ updated_ledger_signal (commit key (data, s)) = updated_ledger_signal s
  /\ configure_account_signal (commit key (data, s))
     = configure_account_signal s
  /\ uid_seq (commit key (data, s)) = uid_seq s.
Proof. by destruct s. Qed.

(** What a pass of [process_pending_ledger_update] over a marked account
    does when it ends without an error. *)
Lemma pass_effect current_ts creditor_id debtor_id burst_count max_delay
  s data is_done s' :
  (creditor_id, debtor_id) ∈ pending_ledger_update s ->
  account_data s !! (creditor_id, debtor_id) = Some data ->
  process_pending_ledger_update current_ts creditor_id debtor_id
    burst_count max_delay s = Ok (is_done, s') ->
  exists transfers applied rest data' entries log_entry,
    _get_sorted_pending_transfers s data burst_count = Ok transfers
    /\ transfers = applied ++ rest
    /\ account_data s' = <[(creditor_id, debtor_id) := data']> (account_data s)
    /\ committed_transfer s' = committed_transfer s
    /\ configure_account_signal s' = configure_account_signal s
    /\ ledger_entry s' = ledger_entry s ++ entries
    /\ pending_ledger_update s'
       = (if is_done
          then pending_ledger_update s ∖ {[ (creditor_id, debtor_id) ]}
          else pending_ledger_update s)
    /\ pass_output current_ts creditor_id debtor_id data' log_entry s s'
    /\ ledger_change_is_logged current_ts data data' entries None log_entry
    /\ same_info data data'
    /\ AccountData.ledger_last_entry_id data'
       = AccountData.ledger_last_entry_id data + Z.of_nat (length entries)
    /\ Creditors.consecutive (AccountData.ledger_last_entry_id data + 1)
         (map LedgerEntry.entry_id entries)
    /\ AccountData.ledger_last_transfer_number data
       <= AccountData.ledger_last_transfer_number data'
    /\ (Forall (fun t => is_int64 (principal_of t - acquired_amount_of t))
          applied ->
        is_int64 (AccountData.principal data) ->
        explains (AccountData.ledger_principal data) entries
          (AccountData.ledger_principal data'))
    /\ (is_done = false ->
        rest = []
        /\ burst_count <= Z.of_nat (length transfers)
        /\ AccountData.ledger_pending_transfer_ts data' = None
        /\ AccountData.ledger_last_transfer_number data'
           = List.last (map transfer_number_of transfers)
               (AccountData.ledger_last_transfer_number data)
        /\ AccountData.ledger_principal data'
           = List.last (map principal_of transfers)
               (AccountData.ledger_principal data)).
Proof.
  intros Hmarked Hdata. unfold process_pending_ledger_update.
  rewrite decide_True by done. rewrite Hdata.
  destruct (_get_sorted_pending_transfers s data burst_count)
    as [transfers|e] eqn:Htransfers; [|done].
  cbn [mbind result_bind].
  destruct (walk_pending_transfers (current_ts - max_delay) current_ts
              transfers None (data, s))
    as [[[broke log_entry1] [data1 s1]]|e] eqn:Hwalk; [|done].
  cbn [mbind result_bind].
  destruct (walk_effect _ _ _ _ _ _ _ _ _ _ Hwalk)
    as (entries1 & applied & rest & Happ & -> & Hsame1 & Hid1 & Hcons1
        & Hlog1 & Hnumber1 & Hprincipal1 & Hexp1 & Hbroke).
  destruct (sorted_pending_transfers_spec _ _ _ _ Htransfers)
    as (Hburst & Hlen & Habove & Hsorted).
  assert (Hmono1 : AccountData.ledger_last_transfer_number data
                   <= AccountData.ledger_last_transfer_number data1).
  { rewrite Hnumber1.
    destruct applied as [|t applied]; [cbn [map List.last]; lia|].
    apply Z.lt_le_incl. apply last_strictly_above; [done|].
    apply Forall_map. rewrite Happ in Habove.
    by apply Forall_app in Habove as [? _]. }
  set (data2 := AccountData.set_ledger_pending_transfer_ts None data1).
  destruct (set_ledger_pending_transfer_ts_row None data1)
    as (G1 & G2 & G3 & G4 & G5 & G6 & G7).
  cbv zeta in G1, G2, G3, G4, G5, G6, G7. fold data2 in G1, G2, G3, G4, G5,
    G6, G7.
  assert (Hfinish : forall data3 log_entry3,
    same_info data data3 ->
    AccountData.ledger_last_entry_id data3
    = AccountData.ledger_last_entry_id data1 ->
    ledger_change_is_logged current_ts data data3 entries1 None
      log_entry3 ->
    AccountData.ledger_last_transfer_number data3
    = AccountData.ledger_last_transfer_number data1 ->
    AccountData.ledger_principal data3
    = AccountData.ledger_principal data1 ->
    ('(log_entry, (data, s)) ←
       ('(fix_entry, (data, s)) ←
          _fix_missing_last_transfer_if_necessary
            (data3, add_ledger_entries entries1 s) max_delay current_ts;
        Ok (or_else fix_entry log_entry3,
            (data,
             set_pending_ledger_update
               (pending_ledger_update s ∖ {[ (creditor_id, debtor_id) ]})
               s)));
     let s :=
       match log_entry with
       | Some log_entry =>
         let s :=
           add_updated_ledger_signal
             (UpdatedLedgerSignal.mk creditor_id debtor_id
                (AccountData.ledger_latest_update_id data)
                (AccountData.account_id data)
                (AccountData.creation_date data)
                (AccountData.ledger_principal data)
                (AccountData.ledger_last_transfer_number data)
                current_ts) s in
         let s := add_pending_log_entry log_entry s in
         advance_uid_seq (AccountData.ledger_latest_update_id data) s
       | None => s
       end in
     Ok (true, commit (creditor_id, debtor_id) (data, s)))
    = Ok (is_done, s') ->
    exists data' entries log_entry,
      account_data s'
      = <[(creditor_id, debtor_id) := data']> (account_data s)
      /\ committed_transfer s' = committed_transfer s
      /\ configure_account_signal s' = configure_account_signal s
      /\ ledger_entry s' = ledger_entry s ++ entries
      /\ pending_ledger_update s'
         = (if is_done
            then pending_ledger_update s ∖ {[ (creditor_id, debtor_id) ]}
            else pending_ledger_update s)
      /\ pass_output current_ts creditor_id debtor_id data' log_entry s s'
      /\ ledger_change_is_logged current_ts data data' entries None
           log_entry
      /\ same_info data data'
      /\ AccountData.ledger_last_entry_id data'
         = AccountData.ledger_last_entry_id data
           + Z.of_nat (length entries)
      /\ Creditors.consecutive (AccountData.ledger_last_entry_id data + 1)
           (map LedgerEntry.entry_id entries)
      /\ AccountData.ledger_last_transfer_number data
         <= AccountData.ledger_last_transfer_number data'
      /\ (Forall (fun t => is_int64 (principal_of t - acquired_amount_of t))
            applied ->
          is_int64 (AccountData.principal data) ->
          explains (AccountData.ledger_principal data) entries
            (AccountData.ledger_principal data'))
      /\ (is_done = false -> False)).
  { intros data3 log_entry3 Hsame3 Hid3 Hlog3 Hnumber3 Hprincipal3.
    destruct (_fix_missing_last_transfer_if_necessary
                (data3, add_ledger_entries entries1 s) max_delay current_ts)
      as [[fix_entry [data4 s4]]|e] eqn:Hfix; [|done].
    cbn [mbind result_bind].
    destruct (fix_missing_last_transfer_effect _ _ _ _ _ _ _ Hfix)
      as (entries2 & -> & Hsame4 & Hid4 & Hcons4 & Hlog4 & Hts4 & Hmono4
          & Hexp4).
    rewrite add_ledger_entries_app.
    assert (Hlog : ledger_change_is_logged current_ts data data4
                     (entries1 ++ entries2) None
                     (or_else fix_entry log_entry3)).
    { eapply ledger_change_is_logged_trans; [exact Hlog3| |done|done].
      destruct Hlog4 as [(-> & -> & ? & ? & ?)|(e & -> & ? & ? & ? & ?)].
      - left. by destruct log_entry3.
      - right. by exists e. }
    intros Hcall.
    exists data4, (entries1 ++ entries2), (or_else fix_entry log_entry3).
    assert (His_done : is_done = true).
    { destruct (or_else fix_entry log_entry3); by injection Hcall. }
    subst is_done.
    assert (Hfields :
      account_data s'
      = <[(creditor_id, debtor_id) := data4]> (account_data s)
      /\ committed_transfer s' = committed_transfer s
      /\ configure_account_signal s' = configure_account_signal s
      /\ ledger_entry s' = ledger_entry s ++ (entries1 ++ entries2)
      /\ pending_ledger_update s'
         = pending_ledger_update s ∖ {[ (creditor_id, debtor_id) ]}
      /\ pass_output current_ts creditor_id debtor_id data4
           (or_else fix_entry log_entry3) s s').
    { destruct (or_else fix_entry log_entry3) as [e|];
        injection Hcall as <-; destruct s; cbn; repeat split; done. }
    destruct Hfields as (F1 & F2 & F3 & F4 & F5 & F6).
    do 7 (split; [done|]).
    split; [by eapply same_info_trans|].
    split; [rewrite length_app; lia|].
    split.
    { rewrite map_app. apply CreditorsTheory.consecutive_app; [done|].
      rewrite length_map. rewrite Hid3, Hid1 in Hcons4.
      by replace (AccountData.ledger_last_entry_id data + 1
                  + Z.of_nat (length entries1))
        with (AccountData.ledger_last_entry_id data
              + Z.of_nat (length entries1) + 1) by lia. }
    split; [lia|]. split; [|done].
    intros Hall Hrange. eapply explains_app.
    - rewrite <- Hprincipal3 in Hexp1. by apply Hexp1.
    - apply Hexp4. by destruct (same_info_ids _ _ Hsame3) as (_ & _ & _ & _ & -> & _). }
  destruct broke.
  - destruct Hbroke as (gap & rest' & -> & Hprev & Hcutoff & Hts1).
    intros Hcall.
    destruct (Hfinish data1 log_entry1) as (data' & entries & log_entry & H);
      [done|done|done|done|done|exact Hcall|].
    exists transfers, applied, (gap :: rest'), data', entries, log_entry.
    do 2 (split; [done|]).
    destruct H as (H1 & H2 & H3 & H4 & H5 & H6 & H7 & H8 & H9 & H10 & H11
                   & H12 & H13).
    do 12 (split; [done|]). intros ->. done.
  - destruct Hbroke as [-> Hts1]. rewrite app_nil_r in Happ. subst applied.
    destruct (Z.ltb_spec (Z.of_nat (length transfers)) burst_count)
      as [Hshort|Hfull].
    + intros Hcall.
      destruct (Hfinish data2 log_entry1)
        as (data' & entries & log_entry & H);
        [by eapply same_info_trans|congruence| | congruence|congruence
        |exact Hcall|].
      { destruct Hlog1 as [(-> & -> & ? & ? & ?)|(e & -> & ? & ? & ? & ?)].
        - left. do 2 (split; [done|]). split; [congruence|].
          split; congruence.
        - right. exists e. split; [done|]. split.
          + eapply announces_same; done.
          + split; [done|]. split; [lia|congruence]. }
      exists transfers, transfers, [], data', entries, log_entry.
      split; [done|]. split; [by rewrite app_nil_r|].
      destruct H as (H1 & H2 & H3 & H4 & H5 & H6 & H7 & H8 & H9 & H10 & H11
                     & H12 & H13).
      do 12 (split; [done|]). intros ->. done.
    + cbn [mbind result_bind]. intros Hcall.
      exists transfers, transfers, [], data2, entries1, log_entry1.
      split; [done|]. split; [by rewrite app_nil_r|].
      assert (Hfields :
        is_done = false
        /\ account_data s'
           = <[(creditor_id, debtor_id) := data2]> (account_data s)
        /\ committed_transfer s' = committed_transfer s
        /\ configure_account_signal s' = configure_account_signal s
        /\ ledger_entry s' = ledger_entry s ++ entries1
        /\ pending_ledger_update s' = pending_ledger_update s
        /\ pass_output current_ts creditor_id debtor_id data2 log_entry1
             s s').
      { destruct log_entry1 as [e|];
          injection Hcall as <- <-; destruct s; cbn; repeat split; done. }
      destruct Hfields as (-> & F1 & F2 & F3 & F4 & F5 & F6).
      do 6 (split; [done|]).
      split.
      { destruct Hlog1 as [(-> & -> & ? & ? & ?)|(e & -> & ? & ? & ? & ?)].
        - left. do 2 (split; [done|]). split; [congruence|].
          split; congruence.
        - right. exists e. split; [done|]. split.
          + eapply announces_same; done.
          + split; [done|]. split; [lia|congruence]. }
      split; [by eapply same_info_trans|].
      split; [congruence|]. split; [done|]. split; [lia|].
      split; [intros Hall _; rewrite G2; by apply Hexp1|].
      intros _. split; [done|]. split; [lia|]. split; [done|].
      split; congruence.
Qed.

Lemma sorted_pending_transfers_from s data max_count transfers :
  _get_sorted_pending_transfers s data max_count = Ok transfers ->
  Forall (fun t => exists ct,
            ct ∈ committed_transfer s
            /\ CommittedTransfer.creditor_id ct = AccountData.creditor_id data
            /\ CommittedTransfer.debtor_id ct = AccountData.debtor_id data
            /\ CommittedTransfer.creation_date ct
               = AccountData.creation_date data
            /\ t = (CommittedTransfer.previous_transfer_number ct,
                    CommittedTransfer.transfer_number ct,
                    CommittedTransfer.acquired_amount ct,
                    CommittedTransfer.principal ct,
                    CommittedTransfer.committed_at ct)) transfers.
Proof.
  unfold _get_sorted_pending_transfers, limit.
  destruct (Z.ltb_spec max_count 0) as [Hneg|Hpos]; [done|].
  cbn [mbind result_bind]. intros [= <-].
  apply Forall_map. apply Forall_take. rewrite order_by_perm.
  apply Forall_forall. intros ct Hct.
  apply list_elem_of_filter in Hct as [(? & ? & ? & ?) ?].
  by exists ct.
Qed.

Lemma sorted_pending_transfers_returns s data max_count :
  0 <= max_count ->
  exists transfers,
    _get_sorted_pending_transfers s data max_count = Ok transfers.
Proof.
  intros Hcount. unfold _get_sorted_pending_transfers, limit.
  destruct (Z.ltb_spec max_count 0); [lia|]. cbn [mbind result_bind].
  by eexists.
Qed.

Lemma walk_returns committed_at_cutoff current_ts transfers :
  Forall (fun t => acquired_amount_of t <> 0) transfers ->
  forall log_entry st,
    exists r,
      walk_pending_transfers committed_at_cutoff current_ts transfers
        log_entry st = Ok r.
Proof.
  induction transfers as [|[[[[previous_transfer_number transfer_number]
                               acquired_amount] principal] committed_at]
                            transfers IH];
    intros Hall log_entry [data s].
  - by eexists.
  - apply Forall_cons in Hall as [Hnz Hall].
    cbn [walk_pending_transfers fst snd].
    destruct (negb (previous_transfer_number
                    =? AccountData.ledger_last_transfer_number data)
              && (committed_at_cutoff <=? committed_at)); [by eexists|].
    destruct (update_ledger_returns data s transfer_number acquired_amount
                principal current_ts false) as (new_entry & st & ->);
      [by left|].
    cbn [mbind result_bind]. by apply IH.
Qed.

Lemma fix_missing_last_transfer_returns data s max_delay current_ts :
  is_int64 (AccountData.principal data) ->
  exists r,
    _fix_missing_last_transfer_if_necessary (data, s) max_delay current_ts
    = Ok r.
Proof.
  intros Hrange. unfold _fix_missing_last_transfer_if_necessary. cbn [fst].
  destruct (_ && _ && _); [|by eexists].
  destruct (update_ledger_returns data s
              (AccountData.last_transfer_number data) 0
              (AccountData.principal data) current_ts false)
    as (log_entry & st & ->); [by right|]. by eexists.
Qed.

Lemma unmarked_pass current_ts creditor_id debtor_id burst_count max_delay
  s :
  (creditor_id, debtor_id) ∉ pending_ledger_update s ->
  process_pending_ledger_update current_ts creditor_id debtor_id
    burst_count max_delay s = Ok (true, s).
Proof.
  intros Hunmarked. unfold process_pending_ledger_update.
  by rewrite decide_False.
Qed.

Lemma update_id_does_not_decrease current_ts data data' entries log_entry
  log_entry' :
  ledger_change_is_logged current_ts data data' entries log_entry
    log_entry' ->
  AccountData.ledger_latest_update_id data
  <= AccountData.ledger_latest_update_id data'.
Proof. intros [(_ & _ & _ & ? & _)|(e & _ & _ & _ & ? & _)]; lia. Qed.

(** X3.  A pass of [process_pending_ledger_update] that returns leaves
    the committed transfers, the configure-account signals and every other
    account as they were, and only appends to the ledger entries; the row
    of the account keeps its columns other than the ledger's, its
    [ledger_last_entry_id] advances by the number of the new entries, whose
    ids are consecutive, and its [ledger_last_transfer_number] and
    [ledger_latest_update_id] do not decrease. *)
Theorem pass_only_appends_to_the_ledger
  current_ts creditor_id debtor_id burst_count max_delay s is_done s' :
  process_pending_ledger_update current_ts creditor_id debtor_id
    burst_count max_delay s = Ok (is_done, s') ->
  committed_transfer s' = committed_transfer s
  /\ configure_account_signal s' = configure_account_signal s
  /\ (forall key, key <> (creditor_id, debtor_id) ->
      account_data s' !! key = account_data s !! key)
  /\ exists entries,
       ledger_entry s' = ledger_entry s ++ entries
       /\ forall data,
            account_data s !! (creditor_id, debtor_id) = Some data ->
            exists data',
              account_data s' !! (creditor_id, debtor_id) = Some data'
              /\ same_info data data'
              /\ AccountData.ledger_last_entry_id data'
                 = AccountData.ledger_last_entry_id data
                   + Z.of_nat (length entries)
              /\ Creditors.consecutive
                   (AccountData.ledger_last_entry_id data + 1)
                   (map LedgerEntry.entry_id entries)
              /\ AccountData.ledger_last_transfer_number data
                 <= AccountData.ledger_last_transfer_number data'
              /\ AccountData.ledger_latest_update_id data
                 <= AccountData.ledger_latest_update_id data'.
Proof.
  intros Hcall.
  destruct (decide ((creditor_id, debtor_id) ∈ pending_ledger_update s))
    as [Hmarked|Hunmarked].
  - destruct (account_data s !! (creditor_id, debtor_id)) as [data|]
      eqn:Hdata.
    + destruct (pass_effect _ _ _ _ _ _ _ _ _ Hmarked Hdata Hcall)
        as (transfers & applied & rest & data' & entries & log_entry & _ & _
            & Hrows & Hfacts & Hsignals & Hledger & _ & _ & Hlog & Hsame
            & Hid & Hcons & Hnumber & _).
      do 2 (split; [done|]). split.
      { intros key Hkey. rewrite Hrows. by rewrite lookup_insert_ne. }
      exists entries. split; [done|]. intros ? [= <-]. exists data'.
      split; [by rewrite Hrows, lookup_insert_eq|].
      do 4 (split; [done|]). by eapply update_id_does_not_decrease.
    + exfalso. revert Hcall. unfold process_pending_ledger_update.
      by rewrite decide_True, Hdata.
  - rewrite unmarked_pass in Hcall by done. injection Hcall as <- <-.
    do 3 (split; [done|]). exists []. split; [by rewrite app_nil_r|].
    intros data Hdata. exists data. split; [done|].
    split; [apply same_info_refl|]. cbn [length map]. rewrite Z.add_0_r.
    split; [done|]. split; [done|]. lia.
Qed.

(** X4.  A pass of [process_pending_ledger_update] never changes the
    ledger silently.  Either it adds no log entry, no signal and no ledger
    entry, and the ledger's principal, update id and update timestamp are
    as before; or it adds exactly one log entry and one
    [UpdatedLedgerSignal], both telling the final state of the ledger, the
    update id has grown, and the sequence of update ids has reached it. *)
Theorem pass_logs_every_ledger_change
  current_ts creditor_id debtor_id burst_count max_delay s data is_done s' :
  account_data s !! (creditor_id, debtor_id) = Some data ->
  process_pending_ledger_update current_ts creditor_id debtor_id
    burst_count max_delay s = Ok (is_done, s') ->
  exists data',
    account_data s' !! (creditor_id, debtor_id) = Some data'
    /\ ((pending_log_entry s' = pending_log_entry s
         /\ updated_ledger_signal s' = updated_ledger_signal s
         /\ uid_seq s' = uid_seq s
         /\ ledger_entry s' = ledger_entry s
         /\ AccountData.ledger_principal data'
            = AccountData.ledger_principal data
         /\ AccountData.ledger_latest_update_id data'
            = AccountData.ledger_latest_update_id data
         /\ AccountData.ledger_latest_update_ts data'
            = AccountData.ledger_latest_update_ts data)
        \/ (exists e,
              pending_log_entry s' = pending_log_entry s ++ [e]
              /\ updated_ledger_signal s'
                 = updated_ledger_signal s
                   ++ [UpdatedLedgerSignal.mk creditor_id debtor_id
                         (AccountData.ledger_latest_update_id data')
                         (AccountData.account_id data')
                         (AccountData.creation_date data')
                         (AccountData.ledger_principal data')
                         (AccountData.ledger_last_transfer_number data')
                         current_ts]
              /\ announces e data'
              /\ PendingLogEntry.added_at e = current_ts
              /\ AccountData.ledger_latest_update_ts data' = current_ts
              /\ AccountData.ledger_latest_update_id data
                 < AccountData.ledger_latest_update_id data'
              /\ AccountData.ledger_latest_update_id data' <= uid_seq s')).
Proof.
  intros Hdata Hcall.
  destruct (decide ((creditor_id, debtor_id) ∈ pending_ledger_update s))
    as [Hmarked|Hunmarked].
  - destruct (pass_effect _ _ _ _ _ _ _ _ _ Hmarked Hdata Hcall)
      as (transfers & applied & rest & data' & entries & log_entry & _ & _
          & Hrows & _ & _ & Hledger & _ & Hout & Hlog & _).
    exists data'. split; [by rewrite Hrows, lookup_insert_eq|].
    destruct Hlog as [(-> & -> & Hp & Hid & Hts)
                     |(e & -> & Hann & Hat & Hid & Hts)].
    + left. destruct Hout as (? & ? & ?). rewrite app_nil_r in Hledger.
      done.
    + right. exists e. destruct Hout as (? & ? & Hseq).
      do 6 (split; [done|]). lia.
  - rewrite unmarked_pass in Hcall by done. injection Hcall as <- <-.
    exists data. split; [done|]. by left.
Qed.

(** X5.  [process_pending_ledger_update] returns [False] exactly when
    it leaves the account's marker in place; it touches no other marker;
    and once it has returned [True], every further call returns [True] and
    changes nothing. *)
Theorem pass_keeps_the_marker_until_done
  current_ts creditor_id debtor_id burst_count max_delay s is_done s' :
  process_pending_ledger_update current_ts creditor_id debtor_id
    burst_count max_delay s = Ok (is_done, s') ->
  ((creditor_id, debtor_id) ∈ pending_ledger_update s' <-> is_done = false)
  /\ (forall key, key <> (creditor_id, debtor_id) ->
      key ∈ pending_ledger_update s' <-> key ∈ pending_ledger_update s)
  /\ (is_done = true ->
      forall current_ts' burst_count' max_delay',
        process_pending_ledger_update current_ts' creditor_id debtor_id
          burst_count' max_delay' s' = Ok (true, s')).
Proof.
  intros Hcall.
  assert (Hmarks :
    pending_ledger_update s'
    = (if is_done
       then pending_ledger_update s ∖ {[ (creditor_id, debtor_id) ]}
       else pending_ledger_update s)
    /\ (is_done = false ->
        (creditor_id, debtor_id) ∈ pending_ledger_update s)).
  { destruct (decide ((creditor_id, debtor_id) ∈ pending_ledger_update s))
      as [Hmarked|Hunmarked].
    - destruct (account_data s !! (creditor_id, debtor_id)) as [data|]
        eqn:Hdata.
      + destruct (pass_effect _ _ _ _ _ _ _ _ _ Hmarked Hdata Hcall)
          as (? & ? & ? & ? & ? & ? & _ & _ & _ & _ & _ & _ & Hmarks & _).
        done.
      + exfalso. revert Hcall. unfold process_pending_ledger_update.
        by rewrite decide_True, Hdata.
    - rewrite unmarked_pass in Hcall by done. injection Hcall as <- <-.
      split; [|done]. apply set_eq. intros key.
      rewrite elem_of_difference, elem_of_singleton.
      split; [|tauto]. intros Hkey. split; [done|]. by intros ->. }
  destruct Hmarks as [-> Hkept].
  assert (Hgone : is_done = true ->
                  (creditor_id, debtor_id)
                  ∉ pending_ledger_update s ∖ {[ (creditor_id, debtor_id) ]}).
  { intros _. rewrite elem_of_difference, elem_of_singleton. tauto. }
  split; [|split].
  - destruct is_done.
    + split; [|done]. intros Hin. by apply Hgone in Hin.
    + split; [done|]. intros _. by apply Hkept.
  - intros key Hkey. destruct is_done; [|done].
    rewrite elem_of_difference, elem_of_singleton. tauto.
  - intros -> current_ts' burst_count' max_delay'.
    apply unmarked_pass.
    destruct (decide ((creditor_id, debtor_id) ∈ pending_ledger_update s))
      as [Hmarked|Hunmarked].
    + destruct (account_data s !! (creditor_id, debtor_id)) as [data|]
        eqn:Hdata.
      * destruct (pass_effect _ _ _ _ _ _ _ _ _ Hmarked Hdata Hcall)
          as (? & ? & ? & ? & ? & ? & _ & _ & _ & _ & _ & _ & -> & _).
        by apply Hgone.
      * exfalso. revert Hcall. unfold process_pending_ledger_update.
        by rewrite decide_True, Hdata.
    + rewrite unmarked_pass in Hcall by done. by injection Hcall as <-.
Qed.

(** X6.  A pass over an existing account with a positive [burst_count]
    that returns [False] has applied exactly [burst_count] facts: the ledger
    stands at the number and the principal of the last of them, its
    [ledger_last_transfer_number] has grown, and no transfer is pending. *)
Theorem unfinished_pass_makes_progress
  current_ts creditor_id debtor_id burst_count max_delay s data s' :
  account_data s !! (creditor_id, debtor_id) = Some data ->
  0 < burst_count ->
  process_pending_ledger_update current_ts creditor_id debtor_id
    burst_count max_delay s = Ok (false, s') ->
  exists transfers data',
    _get_sorted_pending_transfers s data burst_count = Ok transfers
    /\ Z.of_nat (length transfers) = burst_count
    /\ account_data s' !! (creditor_id, debtor_id) = Some data'
    /\ AccountData.ledger_last_transfer_number data'
       = List.last (map transfer_number_of transfers)
           (AccountData.ledger_last_transfer_number data)
    /\ AccountData.ledger_principal data'
       = List.last (map principal_of transfers)
           (AccountData.ledger_principal data)
    /\ AccountData.ledger_last_transfer_number data
       < AccountData.ledger_last_transfer_number data'
    /\ AccountData.ledger_pending_transfer_ts data' = None.
Proof.
  intros Hdata Hburst Hcall.
  destruct (decide ((creditor_id, debtor_id) ∈ pending_ledger_update s))
    as [Hmarked|Hunmarked];
    [|by rewrite unmarked_pass in Hcall by done].
  destruct (pass_effect _ _ _ _ _ _ _ _ _ Hmarked Hdata Hcall)
    as (transfers & applied & rest & data' & entries & log_entry
        & Htransfers & _ & Hrows & _ & _ & _ & _ & _ & _ & _ & _ & _ & _ & _
        & Hmore).
  destruct (Hmore eq_refl) as (_ & Hfull & Hts & Hnumber & Hprincipal).
  destruct (sorted_pending_transfers_spec _ _ _ _ Htransfers)
    as (_ & Hlen & Habove & _).
  exists transfers, data'. split; [done|]. split; [lia|].
  split; [by rewrite Hrows, lookup_insert_eq|].
  do 2 (split; [done|]). split; [|done].
  rewrite Hnumber. apply last_strictly_above.
  - intros Hnil. destruct transfers; [simpl in Hfull; lia|done].
  - by apply Forall_map.
Qed.

(** X7.  The assertion of [_update_ledger] never fails during a pass of
    [process_pending_ledger_update] when the principal that the peer
    reported is 64-bit and every committed transfer has a non-zero amount
    (a CHECK constraint of the table).  The statement is about the
    [assert] statements only: what the database or the arithmetic of
    [datetime] may refuse is not part of the embedding. *)
Theorem pass_assertion_never_fails
  current_ts creditor_id debtor_id burst_count max_delay s data :
  account_data s !! (creditor_id, debtor_id) = Some data ->
  is_int64 (AccountData.principal data) ->
  Forall (fun ct => CommittedTransfer.acquired_amount ct <> 0)
    (committed_transfer s) ->
  assertion_fails
    (process_pending_ledger_update current_ts creditor_id debtor_id
       burst_count max_delay s) = false.
Proof.
  intros Hdata Hrange Hfacts.
  destruct (decide ((creditor_id, debtor_id) ∈ pending_ledger_update s))
    as [Hmarked|Hunmarked];
    [|by rewrite unmarked_pass].
  destruct (decide (0 <= burst_count)) as [Hburst|Hnegative]; cycle 1.
  { unfold process_pending_ledger_update.
    rewrite decide_True by done. rewrite Hdata.
    unfold _get_sorted_pending_transfers, limit.
    replace (burst_count <? 0) with true by lia. reflexivity. }
  enough (exists is_done s',
            process_pending_ledger_update current_ts creditor_id debtor_id
              burst_count max_delay s = Ok (is_done, s'))
    as (is_done & s' & ->) by reflexivity.
  unfold process_pending_ledger_update.
  rewrite decide_True by done. rewrite Hdata.
  destruct (sorted_pending_transfers_returns s data burst_count Hburst)
    as (transfers & Htransfers).
  rewrite Htransfers. cbn [mbind result_bind].
  assert (Hnz : Forall (fun t => acquired_amount_of t <> 0) transfers).
  { eapply Forall_impl;
      [exact (sorted_pending_transfers_from _ _ _ _ Htransfers)|].
    intros t (ct & Hct & _ & _ & _ & ->). cbn.
    rewrite Forall_forall in Hfacts. by apply Hfacts. }
  destruct (walk_returns (current_ts - max_delay) current_ts transfers Hnz
              None (data, s))
    as ([[broke log_entry1] [data1 s1]] & Hwalk).
  rewrite Hwalk. cbn [mbind result_bind].
  destruct (walk_effect _ _ _ _ _ _ _ _ _ _ Hwalk)
    as (entries1 & applied & rest & _ & _ & Hsame1 & _).
  assert (Hfix : forall data2 s2,
    same_info data data2 ->
    exists r,
      _fix_missing_last_transfer_if_necessary (data2, s2) max_delay
        current_ts = Ok r).
  { intros data2 s2 Hsame2. apply fix_missing_last_transfer_returns.
    by destruct (same_info_ids _ _ Hsame2) as (_ & _ & _ & _ & -> & _). }
  destruct broke.
  - destruct (Hfix data1 s1 Hsame1) as ([fix_entry [data3 s3]] & ->).
    cbn [mbind result_bind]. by eexists _, _.
  - destruct (Z.of_nat (length transfers) <? burst_count).
    + destruct (Hfix (AccountData.set_ledger_pending_transfer_ts None data1)
                  s1) as ([fix_entry [data3 s3]] & ->).
      { eapply same_info_trans; [exact Hsame1|].
        apply set_ledger_pending_transfer_ts_row. }
      cbn [mbind result_bind]. by eexists _, _.
    + cbn [mbind result_bind]. by eexists _, _.
Qed.

(** X8.  When the principal that the peer reported and the principal
    before each committed transfer are 64-bit, the ledger entries that a
    pass adds lead from the ledger's old principal to its new one, each
    starting where the one before it ended: the new principal is the old
    one plus the sum of the acquired amounts of the new entries. *)
Theorem pass_entries_explain_the_principal
  current_ts creditor_id debtor_id burst_count max_delay s data is_done s' :
  account_data s !! (creditor_id, debtor_id) = Some data ->
  is_int64 (AccountData.principal data) ->
  Forall (fun ct => is_int64 (CommittedTransfer.principal ct
                              - CommittedTransfer.acquired_amount ct))
    (committed_transfer s) ->
  process_pending_ledger_update current_ts creditor_id debtor_id
    burst_count max_delay s = Ok (is_done, s') ->
  exists data' entries,
    account_data s' !! (creditor_id, debtor_id) = Some data'
    /\ ledger_entry s' = ledger_entry s ++ entries
    /\ explains (AccountData.ledger_principal data) entries
         (AccountData.ledger_principal data')
    /\ AccountData.ledger_principal data'
       = AccountData.ledger_principal data + sum_acquired_amounts entries.
Proof.
  intros Hdata Hrange Hfacts Hcall.
  destruct (decide ((creditor_id, debtor_id) ∈ pending_ledger_update s))
    as [Hmarked|Hunmarked].
  - destruct (pass_effect _ _ _ _ _ _ _ _ _ Hmarked Hdata Hcall)
      as (transfers & applied & rest & data' & entries & log_entry
          & Htransfers & Happ & Hrows & _ & _ & Hledger & _ & _ & _ & _ & _
          & _ & _ & Hexp & _).
    exists data', entries. split; [by rewrite Hrows, lookup_insert_eq|].
    split; [done|].
    assert (Hchain : explains (AccountData.ledger_principal data) entries
                       (AccountData.ledger_principal data')).
    { apply Hexp; [|done].
      pose proof (sorted_pending_transfers_from _ _ _ _ Htransfers) as Hfrom.
      rewrite Happ in Hfrom. apply Forall_app in Hfrom as [Hfrom _].
      eapply Forall_impl; [exact Hfrom|].
      intros t (ct & Hct & _ & _ & _ & ->). cbn.
      rewrite Forall_forall in Hfacts. by apply Hfacts. }
    split; [done|]. rewrite (explains_sum _ _ _ Hchain). lia.
  - rewrite unmarked_pass in Hcall by done. injection Hcall as <- <-.
    exists data, []. split; [done|]. split; [by rewrite app_nil_r|].
    split; [done|]. simpl. lia.
Qed.

(** *** The ledger properties on the values of the tests *)

Lemma correction_is_overflow_safe_witness :
  exists entries,
    _make_correcting_ledger_entry_if_necessary
      (Tests.account_at_max, Tests.db_with_gap) 0 MIN_INT64 Tests.current_ts
    = (true,
       (AccountData.set_ledger_last_entry_id (Z.of_nat (length entries))
          Tests.account_at_max,
        add_ledger_entries entries Tests.db_with_gap))
    /\ (length entries <= 3)%nat
    /\ explains MAX_INT64 entries MIN_INT64.
Proof.
  destruct (correction_is_overflow_safe Tests.account_at_max
              Tests.db_with_gap 0 MIN_INT64 Tests.current_ts)
    as (entries & Hcall & Hlen & Hexp & _).
  - unfold is_int64. vm_compute. split; discriminate.
  - unfold is_int64. vm_compute. split; discriminate.
  - exists entries. split; [exact Hcall|]. split; [exact Hlen|].
    exact Hexp.
Defined.

Lemma update_ledger_explains_the_principal_witness :
  exists log_entry data' entries,
    _update_ledger (Tests.account, Tests.db_with_gap) 1 1000 1100
      Tests.current_ts false
    = Ok (log_entry, (data', add_ledger_entries entries Tests.db_with_gap))
    /\ explains 0 entries 1100
    /\ AccountData.ledger_principal data' = 1100.
Proof.
  destruct (update_ledger_explains_the_principal Tests.account
              Tests.db_with_gap 1 1000 1100 Tests.current_ts false)
    as (log_entry & data' & entries & Hcall & Hexp & _ & Hprincipal & _).
  - unfold is_int64. vm_compute. split; discriminate.
  - exists log_entry, data', entries. split; [exact Hcall|].
    split; [exact Hexp|exact Hprincipal].
Defined.

Lemma pass_only_appends_to_the_ledger_witness :
  committed_transfer
    (state_after
       (process_pending_ledger_update Tests.current_ts Tests.C_ID Tests.D_ID
          10 (days 10000) Tests.db_with_gap) Tests.db_with_gap)
  = committed_transfer Tests.db_with_gap.
Proof.
  refine (proj1 (pass_only_appends_to_the_ledger Tests.current_ts Tests.C_ID
                   Tests.D_ID 10 (days 10000) Tests.db_with_gap true _ _)).
  vm_compute. reflexivity.
Defined.

Lemma pass_logs_every_ledger_change_witness :
  exists data',
    account_data
      (state_after
         (process_pending_ledger_update Tests.current_ts Tests.C_ID
            Tests.D_ID 10 (days 10000) Tests.db_with_gap) Tests.db_with_gap)
    !! (Tests.C_ID, Tests.D_ID) = Some data'.
Proof.
  destruct (pass_logs_every_ledger_change Tests.current_ts Tests.C_ID
              Tests.D_ID 10 (days 10000) Tests.db_with_gap Tests.account
              true
              (state_after
                 (process_pending_ledger_update Tests.current_ts Tests.C_ID
                    Tests.D_ID 10 (days 10000) Tests.db_with_gap)
                 Tests.db_with_gap))
    as (data' & Hdata' & _).
  - vm_compute. reflexivity.
  - vm_compute. reflexivity.
  - exists data'. exact Hdata'.
Defined.

Lemma pass_keeps_the_marker_until_done_witness :
  (Tests.C_ID, Tests.D_ID)
  ∈ pending_ledger_update
      (state_after
         (process_pending_ledger_update Tests.current_ts Tests.C_ID
            Tests.D_ID 1 (days 10000) Tests.db_with_gap) Tests.db_with_gap).
Proof.
  refine (proj2 (proj1 (pass_keeps_the_marker_until_done Tests.current_ts
                          Tests.C_ID Tests.D_ID 1 (days 10000)
                          Tests.db_with_gap false _ _)) eq_refl).
  vm_compute. reflexivity.
Defined.

Lemma unfinished_pass_makes_progress_witness :
  exists data',
    account_data
      (state_after
         (process_pending_ledger_update Tests.current_ts Tests.C_ID
            Tests.D_ID 1 (days 10000) Tests.db_with_gap) Tests.db_with_gap)
    !! (Tests.C_ID, Tests.D_ID) = Some data'
    /\ 0 < AccountData.ledger_last_transfer_number data'.
Proof.
  destruct (unfinished_pass_makes_progress Tests.current_ts Tests.C_ID
              Tests.D_ID 1 (days 10000) Tests.db_with_gap Tests.account
              (state_after
                 (process_pending_ledger_update Tests.current_ts Tests.C_ID
                    Tests.D_ID 1 (days 10000) Tests.db_with_gap)
                 Tests.db_with_gap))
    as (transfers & data' & _ & _ & Hdata' & _ & _ & Hnumber & _).
  - vm_compute. reflexivity.
  - lia.
  - vm_compute. reflexivity.
  - exists data'. split; [exact Hdata'|exact Hnumber].
Defined.

Lemma pass_assertion_never_fails_witness :
  assertion_fails
    (process_pending_ledger_update Tests.current_ts Tests.C_ID Tests.D_ID 10
       (days 10000) Tests.db_with_gap) = false.
Proof.
  apply (pass_assertion_never_fails Tests.current_ts Tests.C_ID
           Tests.D_ID 10 (days 10000) Tests.db_with_gap Tests.account).
  - vm_compute. reflexivity.
  - unfold is_int64. vm_compute. split; discriminate.
  - repeat constructor; vm_compute; discriminate.
Defined.

Lemma pass_entries_explain_the_principal_witness :
  exists data' entries,
    account_data
      (state_after
         (process_pending_ledger_update Tests.current_ts Tests.C_ID
            Tests.D_ID 10 (days 10000) Tests.db_with_gap) Tests.db_with_gap)
    !! (Tests.C_ID, Tests.D_ID) = Some data'
    /\ AccountData.ledger_principal data' = 0 + sum_acquired_amounts entries.
Proof.
  destruct (pass_entries_explain_the_principal Tests.current_ts Tests.C_ID
              Tests.D_ID 10 (days 10000) Tests.db_with_gap Tests.account
              true
              (state_after
                 (process_pending_ledger_update Tests.current_ts Tests.C_ID
                    Tests.D_ID 10 (days 10000) Tests.db_with_gap)
                 Tests.db_with_gap))
    as (data' & entries & Hdata' & _ & _ & Hsum).
  - vm_compute. reflexivity.
  - unfold is_int64. vm_compute. split; discriminate.
  - repeat constructor; vm_compute; discriminate.
  - vm_compute. reflexivity.
  - exists data', entries. split; [exact Hdata'|exact Hsum].
Defined.

End LedgerTheory.

(** ** The facts that a pass fetches *)

Module PendingTransfersTheory.
Import AccountUpdates CommonFacts PagingFacts LedgerVocabulary.

(** X29.  [_get_sorted_pending_transfers]: a negative [max_count] is
    refused by the database; otherwise the rows are those of at most
    [max_count] committed transfers of the account's epoch beyond the
    ledger, in ascending order of [transfer_number], and such a transfer
    that is left out finds [max_count] rows, none of them with a larger
    number. *)
Theorem pending_transfers_are_the_next_facts s data max_count :
  (max_count < 0 ->
   _get_sorted_pending_transfers s data max_count = Raise DataError)
  /\ (0 <= max_count ->
      exists facts,
        _get_sorted_pending_transfers s data max_count
        = Ok (map
                (fun ct =>
                   (CommittedTransfer.previous_transfer_number ct,
                    CommittedTransfer.transfer_number ct,
                    CommittedTransfer.acquired_amount ct,
                    CommittedTransfer.principal ct,
                    CommittedTransfer.committed_at ct)) facts)
        /\ Z.of_nat (length facts) <= max_count
        /\ StronglySorted
             (fun ct ct' =>
                CommittedTransfer.transfer_number ct
                <= CommittedTransfer.transfer_number ct') facts
        /\ Forall
             (fun ct =>
                ct ∈ committed_transfer s
                /\ CommittedTransfer.creditor_id ct
                   = AccountData.creditor_id data
                /\ CommittedTransfer.debtor_id ct
                   = AccountData.debtor_id data
                /\ CommittedTransfer.creation_date ct
                   = AccountData.creation_date data
                /\ AccountData.ledger_last_transfer_number data
                   < CommittedTransfer.transfer_number ct) facts
        /\ forall ct,
             ct ∈ committed_transfer s ->
             CommittedTransfer.creditor_id ct = AccountData.creditor_id data ->
             CommittedTransfer.debtor_id ct = AccountData.debtor_id data ->
             CommittedTransfer.creation_date ct
             = AccountData.creation_date data ->
             AccountData.ledger_last_transfer_number data
             < CommittedTransfer.transfer_number ct ->
             ct ∉ facts ->
             Z.of_nat (length facts) = max_count
             /\ Forall
                  (fun ct' =>
                     CommittedTransfer.transfer_number ct'
                     <= CommittedTransfer.transfer_number ct) facts).
Proof.
  unfold _get_sorted_pending_transfers, limit. split.
  - intros Hneg. by rewrite (proj2 (Z.ltb_lt _ _) Hneg).
  - intros Hcount. rewrite (proj2 (Z.ltb_ge _ _) Hcount).
    cbn [mbind result_bind].
    set (P := fun ct =>
      CommittedTransfer.creditor_id ct = AccountData.creditor_id data
      /\ CommittedTransfer.debtor_id ct = AccountData.debtor_id data
      /\ CommittedTransfer.creation_date ct = AccountData.creation_date data
      /\ AccountData.ledger_last_transfer_number data
         < CommittedTransfer.transfer_number ct).
    eexists. split; [reflexivity|].
    split; [rewrite length_take; lia|].
    split.
    { pose proof (order_by_sorted CommittedTransfer.transfer_number
                    (filter P (committed_transfer s))) as Hsorted.
      revert Hsorted.
      generalize (order_by CommittedTransfer.transfer_number
                    (filter P (committed_transfer s))) as rows.
      intros rows. generalize (Z.to_nat max_count) as n.
      induction rows as [|ct rows IH]; intros n Hs.
      - rewrite take_nil. constructor.
      - destruct n as [|n]; [constructor|].
        apply StronglySorted_inv in Hs as [Hs Hall].
        cbn [take firstn]. constructor; [by apply IH|].
        by apply Forall_take. }
    split.
    { apply Forall_take. rewrite order_by_perm. apply Forall_forall.
      intros ct Hct. apply list_elem_of_filter in Hct as [(? & ? & ? & ?) ?].
      done. }
    intros ct Hin Hcreditor Hdebtor Hdate Hnext Hout.
    assert (Hct : ct ∈ filter P (committed_transfer s))
      by (by apply list_elem_of_filter).
    split.
    + destruct (decide (length (take (Z.to_nat max_count)
                                  (order_by CommittedTransfer.transfer_number
                                     (filter P (committed_transfer s))))
                        < Z.to_nat max_count)%nat) as [Hshort|Hfull].
      * exfalso. apply Hout.
        rewrite short_page by done.
        by rewrite order_by_perm.
      * rewrite length_take in Hfull |- *. lia.
    + by apply page_holds_the_first_rows.
Qed.

Lemma pending_transfers_are_the_next_facts_witness :
  _get_sorted_pending_transfers Tests.db_with_gap Tests.account (-1)
  = Raise DataError.
Proof.
  apply (proj1 (pending_transfers_are_the_next_facts Tests.db_with_gap
                  Tests.account (-1))).
  lia.
Defined.

End PendingTransfersTheory.

(** ** The signals of the peer *)

Module SignalsTheory.
Import AccountUpdates CommonFacts AccountUpdatesTheory LedgerVocabulary
  LedgerTheory.

Lemma newer_event_is_not_older_epoch d1 t1 n1 d2 t2 n2 :
  event_le (d1, t1, n1) (d2, t2, n2) = false -> (d2 <=? d1) = true.
Proof.
  unfold event_le. destruct (Z.eqb_spec d1 d2) as [->|Hne]; cbn [negb].
  - intros _. lia.
  - intros Hle. apply Z.leb_gt in Hle. lia.
Qed.

Lemma later_epoch_is_newer d1 t1 n1 d2 t2 n2 :
  d2 < d1 -> event_le (d1, t1, n1) (d2, t2, n2) = false.
Proof.
  intros Hlt. unfold event_le.
  destruct (Z.eqb_spec d1 d2) as [->|Hne]; [lia|]. cbn [negb].
  apply Z.leb_gt. lia.
Qed.

Lemma heartbeat_row v data :
  let data' := AccountData.set_last_heartbeat_ts v data in
  same_info data' (AccountData.set_last_heartbeat_ts v data)
  /\ AccountData.creation_date data' = AccountData.creation_date data
  /\ AccountData.last_change_ts data' = AccountData.last_change_ts data
  /\ AccountData.last_change_seqnum data'
     = AccountData.last_change_seqnum data
  /\ AccountData.ledger_principal data' = AccountData.ledger_principal data
  /\ AccountData.ledger_latest_update_id data'
     = AccountData.ledger_latest_update_id data
  /\ AccountData.creditor_id data' = AccountData.creditor_id data
  /\ AccountData.debtor_id data' = AccountData.debtor_id data.
Proof. destruct data. repeat split; reflexivity. Qed.

Lemma land_lor_same a b : Z.land (Z.lor a b) b = b.
Proof.
  apply Z.bits_inj'. intros n Hn.
  rewrite Z.land_spec, Z.lor_spec.
  destruct (Z.testbit a n), (Z.testbit b n); reflexivity.
Qed.


Section Signals.
Context (HUGE_NEGLIGIBLE_AMOUNT : float).
Context (DEFAULT_CONFIG_FLAGS CONFIG_SCHEDULED_FOR_DELETION_FLAG : Z).
Context (is_deletion_safe : AccountData.t -> bool).
Context (_insert_info_update_pending_log_entry : txn -> datetime -> txn).

(** X9.  Neither the assertion on [creation_date] of
    [process_account_update_signal] nor the assertion of [_update_ledger]
    can fail, for any signal and any state, whichever way the [ttl] check
    falls: a signal that passes the ordering check is not of an older
    epoch, and [_update_ledger] is called with the amount 0 and either the
    principal 0 or the principal that the ledger has.  (The third
    assertion, [assert is_account_id_changed], repeats the condition of
    its branch.)  The statement is about the [assert] statements only:
    what the database may refuse is not part of the embedding. *)
Theorem account_update_assertions_never_fail current_ts now m s :
  assertion_fails
    (process_account_update_signal HUGE_NEGLIGIBLE_AMOUNT DEFAULT_CONFIG_FLAGS
       CONFIG_SCHEDULED_FOR_DELETION_FLAG is_deletion_safe
       _insert_info_update_pending_log_entry current_ts now m s) = false.
Proof.
  enough (exists s',
            process_account_update_signal HUGE_NEGLIGIBLE_AMOUNT
              DEFAULT_CONFIG_FLAGS CONFIG_SCHEDULED_FOR_DELETION_FLAG
              is_deletion_safe _insert_info_update_pending_log_entry
              current_ts now m s = Ok s')
    as (s' & ->) by reflexivity.
  unfold process_account_update_signal.
  destruct (ttl_expired _ _ _); [by eexists|].
  destruct (account_data s !! _) as [data|]; [|by eexists].
  set (data0 := if AccountData.last_heartbeat_ts data
                   <? AccountUpdateSignal.ts m
                then AccountData.set_last_heartbeat_ts _ data else data).
  destruct (event_le _ _) eqn:Hevent; [by eexists|].
  apply newer_event_is_not_older_epoch in Hevent. rewrite Hevent.
  cbn [assert mbind result_bind].
  match goal with
  | |- context [if ?b then _insert_info_update_pending_log_entry ?st ?ts
                else _] =>
    generalize (if b then _insert_info_update_pending_log_entry st ts
                else st)
  end.
  intros [data1 s1].
  destruct (_ || _); [|by eexists].
  cbn [fst snd].
  destruct (AccountData.creation_date data0
            <? AccountUpdateSignal.creation_date m).
  - destruct (update_ledger_returns
                (AccountData.set_ledger_pending_transfer_ts None data1) s1
                0 0 0 current_ts true) as (log_entry & [data2 s2] & ->).
    { right. unfold is_int64. rewrite MIN_INT64_val, MAX_INT64_val. lia. }
    cbn [mbind result_bind]. by eexists.
  - unfold _update_ledger.
    destruct (make_correcting_effect data1 s1 0
                (AccountData.ledger_principal data1) current_ts)
      as (entries & made & -> & Hmade & _ & _).
    cbn [negb Z.eqb]. cbv iota.
    destruct made; cbn [orb].
    + cbn [assert mbind result_bind]. by eexists.
    + pose proof (proj1 Hmade eq_refl). subst entries. cbn [length].
      rewrite Z.add_0_r, set_ledger_last_entry_id_id, Z.eqb_refl.
      cbn [assert mbind result_bind]. by eexists.
Qed.


(** What [_insert_info_update_pending_log_entry] is taken to do: it adds
    to the session, and leaves the object and the ledger entries alone. *)
Hypothesis insert_keeps_the_row :
  forall st current_ts,
    fst (_insert_info_update_pending_log_entry st current_ts) = fst st.
Hypothesis insert_keeps_the_ledger :
  forall st current_ts,
    ledger_entry (snd (_insert_info_update_pending_log_entry st current_ts))
    = ledger_entry (snd st).

(** X10.  An account update of a later epoch ([creation_date]), within
    its [ttl], for an existing account: the row takes the epoch and the
    peer's data, the ledger is reset to principal 0 and transfer number 0
    with no transfer pending, its update id grows by one, the ledger
    entries added lead from the old principal to 0, and the account is
    marked for a ledger update. *)
Theorem new_epoch_resets_the_ledger current_ts now m s data :
  ttl_expired current_ts (AccountUpdateSignal.ts m)
    (AccountUpdateSignal.ttl m) = false ->
  account_data s
    !! (AccountUpdateSignal.creditor_id m, AccountUpdateSignal.debtor_id m)
  = Some data ->
  AccountData.creation_date data < AccountUpdateSignal.creation_date m ->
  exists s' data' entries,
    process_account_update_signal HUGE_NEGLIGIBLE_AMOUNT DEFAULT_CONFIG_FLAGS
      CONFIG_SCHEDULED_FOR_DELETION_FLAG is_deletion_safe
      _insert_info_update_pending_log_entry current_ts now m s = Ok s'
    /\ account_data s'
         !! (AccountUpdateSignal.creditor_id m,
             AccountUpdateSignal.debtor_id m) = Some data'
    /\ AccountData.creation_date data' = AccountUpdateSignal.creation_date m
    /\ AccountData.has_server_account data' = true
    /\ AccountData.principal data' = AccountUpdateSignal.principal m
    /\ AccountData.last_transfer_number data'
       = AccountUpdateSignal.last_transfer_number m
    /\ AccountData.ledger_principal data' = 0
    /\ AccountData.ledger_last_transfer_number data' = 0
    /\ AccountData.ledger_pending_transfer_ts data' = None
    /\ AccountData.ledger_latest_update_id data'
       = AccountData.ledger_latest_update_id data + 1
    /\ AccountData.ledger_latest_update_ts data' = current_ts
    /\ ledger_entry s' = ledger_entry s ++ entries
    /\ explains (AccountData.ledger_principal data) entries 0
    /\ (AccountData.creditor_id data, AccountData.debtor_id data)
       ∈ pending_ledger_update s'.
Proof.
  intros Hfresh Hdata Hepoch. unfold process_account_update_signal.
  rewrite Hfresh, Hdata.
  set (data0 := if AccountData.last_heartbeat_ts data
                   <? AccountUpdateSignal.ts m
                then AccountData.set_last_heartbeat_ts
                       (Z.min (AccountUpdateSignal.ts m) current_ts) data
                else data).
  assert (Hdata0 :
    AccountData.creation_date data0 = AccountData.creation_date data
    /\ AccountData.ledger_principal data0 = AccountData.ledger_principal data
    /\ AccountData.ledger_latest_update_id data0
       = AccountData.ledger_latest_update_id data
    /\ AccountData.creditor_id data0 = AccountData.creditor_id data
    /\ AccountData.debtor_id data0 = AccountData.debtor_id data).
  { subst data0. destruct (_ <? _); [|done]. by destruct data. }
  destruct Hdata0 as (Hdate0 & Hprincipal0 & Hid0 & Hcreditor0 & Hdebtor0).
  rewrite later_epoch_is_newer by (rewrite Hdate0; lia).
  rewrite Hdate0.
  rewrite (proj2 (Z.leb_le _ _)) by lia.
  rewrite (proj2 (Z.ltb_lt _ _) Hepoch).
  cbn [assert mbind result_bind orb].
  match goal with
  | |- context [if ?b then _insert_info_update_pending_log_entry (?d, s) ?ts
                else _] =>
    set (data1 := d);
    assert (Hst : exists s1,
      (if b then _insert_info_update_pending_log_entry (data1, s) ts
       else (data1, s)) = (data1, s1)
      /\ ledger_entry s1 = ledger_entry s)
  end.
  { match goal with |- context [if ?b then _ else _] => destruct b end.
    - destruct (_insert_info_update_pending_log_entry (data1, s) current_ts)
        as [data1' s1] eqn:Hinsert.
      pose proof (insert_keeps_the_row (data1, s) current_ts) as Hrow.
      pose proof (insert_keeps_the_ledger (data1, s) current_ts) as Hkept.
      rewrite Hinsert in Hrow, Hkept. cbn [fst snd] in Hrow, Hkept.
      exists s1. by rewrite Hrow.
    - by exists s. }
  destruct Hst as (s1 & -> & Hledger1). cbn [fst snd].
  set (data2 := AccountData.set_ledger_pending_transfer_ts None data1).
  destruct (set_ledger_pending_transfer_ts_row None data1)
    as (G1 & G2 & G3 & G4 & G5 & G6 & G7).
  cbv zeta in G1, G2, G3, G4, G5, G6, G7.
  fold data2 in G1, G2, G3, G4, G5, G6, G7.
  destruct (update_ledger_returns data2 s1 0 0 0 current_ts true)
    as (log_entry & [data3 s3] & Hupdate).
  { right. unfold is_int64. rewrite MIN_INT64_val, MAX_INT64_val. lia. }
  rewrite Hupdate. cbn [mbind result_bind].
  destruct (update_ledger_effect _ _ _ _ _ _ _ _ _ _ Hupdate)
    as (entries & -> & Hsame3 & Hprincipal3 & Hnumber3 & _ & Hts3 & _
        & Hlog & _ & Hexp & _).
  destruct log_entry as [e|];
    [|by destruct Hlog as (_ & _ & _ & _ & ?)].
  destruct Hlog as (_ & _ & Hid3 & Hupdated3 & _).
  destruct (same_info_ids _ _ Hsame3)
    as (Hcreditor3 & Hdebtor3 & Hdate3 & _ & Hpeer3 & Hlast3 & _ & Hhas3
        & _).
  destruct (same_info_ids _ _ G1)
    as (Hcreditor2 & Hdebtor2 & Hdate2 & _ & Hpeer2 & Hlast2 & _ & Hhas2
        & _).
  eexists _, data3, entries. split; [reflexivity|].
  split.
  { unfold commit. cbn [fst snd]. by destruct s1; cbn; rewrite lookup_insert_eq. }
  split; [by rewrite Hdate3, Hdate2|].
  split; [by rewrite Hhas3, Hhas2|].
  split; [by rewrite Hpeer3, Hpeer2|].
  split; [by rewrite Hlast3, Hlast2|].
  do 2 (split; [done|]). split; [by rewrite Hts3|].
  split; [rewrite Hid3, G6; subst data1; cbn; lia|].
  split; [done|].
  split.
  { destruct s1; cbn in *. by rewrite Hledger1. }
  split.
  { rewrite G2 in Hexp. subst data1. cbn in Hexp. rewrite <- Hprincipal0.
    apply Hexp. unfold is_int64. rewrite MIN_INT64_val, MAX_INT64_val. lia. }
  rewrite Hcreditor3, Hdebtor3, Hcreditor2, Hdebtor2. subst data1.
  cbn [AccountData.creditor_id AccountData.debtor_id].
  rewrite Hcreditor0, Hdebtor0.
  unfold commit, ensure_pending_ledger_update. destruct s1; cbn.
  apply elem_of_union_l. by apply elem_of_singleton.
Qed.

Lemma stale_update current_ts now m s data :
  account_data s
    !! (AccountUpdateSignal.creditor_id m, AccountUpdateSignal.debtor_id m)
  = Some data ->
  event_le
    (AccountUpdateSignal.creation_date m,
     AccountUpdateSignal.last_change_ts m,
     AccountUpdateSignal.last_change_seqnum m)
    (AccountData.creation_date data,
     AccountData.last_change_ts data,
     AccountData.last_change_seqnum data) = true ->
  process_account_update_signal HUGE_NEGLIGIBLE_AMOUNT DEFAULT_CONFIG_FLAGS
    CONFIG_SCHEDULED_FOR_DELETION_FLAG is_deletion_safe
    _insert_info_update_pending_log_entry current_ts now m s
  = Ok (set_account_data
          (<[(AccountUpdateSignal.creditor_id m,
              AccountUpdateSignal.debtor_id m) :=
               if negb (ttl_expired current_ts (AccountUpdateSignal.ts m)
                          (AccountUpdateSignal.ttl m))
                  && (AccountData.last_heartbeat_ts data
                      <? AccountUpdateSignal.ts m)
               then
                 AccountData.set_last_heartbeat_ts
                   (Z.min (AccountUpdateSignal.ts m) current_ts) data
               else data]> (account_data s)) s).
Proof.
  intros Hdata Hle. unfold process_account_update_signal.
  destruct (ttl_expired current_ts (AccountUpdateSignal.ts m)
              (AccountUpdateSignal.ttl m)); cbn [negb andb].
  - by rewrite insert_id, set_account_data_id.
  - rewrite Hdata.
    destruct (AccountData.last_heartbeat_ts data <? AccountUpdateSignal.ts m).
    + destruct (heartbeat_row (Z.min (AccountUpdateSignal.ts m) current_ts)
                  data) as (_ & -> & -> & -> & _).
      by rewrite Hle.
    + by rewrite Hle.
Qed.

(** X11.  After an account update has been processed within its [ttl]
    for an existing account, the stored ordering key is not older than the
    signal's: the same signal delivered again, at any time, changes
    [last_heartbeat_ts] of the row at most. *)
Theorem delivered_account_update_is_stale current_ts now m s data s1 :
  ttl_expired current_ts (AccountUpdateSignal.ts m)
    (AccountUpdateSignal.ttl m) = false ->
  account_data s
    !! (AccountUpdateSignal.creditor_id m, AccountUpdateSignal.debtor_id m)
  = Some data ->
  process_account_update_signal HUGE_NEGLIGIBLE_AMOUNT DEFAULT_CONFIG_FLAGS
    CONFIG_SCHEDULED_FOR_DELETION_FLAG is_deletion_safe
    _insert_info_update_pending_log_entry current_ts now m s = Ok s1 ->
  exists data1,
    account_data s1
      !! (AccountUpdateSignal.creditor_id m, AccountUpdateSignal.debtor_id m)
    = Some data1
    /\ event_le
         (AccountUpdateSignal.creation_date m,
          AccountUpdateSignal.last_change_ts m,
          AccountUpdateSignal.last_change_seqnum m)
         (AccountData.creation_date data1,
          AccountData.last_change_ts data1,
          AccountData.last_change_seqnum data1) = true
    /\ forall current_ts' now',
         process_account_update_signal HUGE_NEGLIGIBLE_AMOUNT
           DEFAULT_CONFIG_FLAGS CONFIG_SCHEDULED_FOR_DELETION_FLAG
           is_deletion_safe _insert_info_update_pending_log_entry
           current_ts' now' m s1
         = Ok (set_account_data
                 (<[(AccountUpdateSignal.creditor_id m,
                     AccountUpdateSignal.debtor_id m) :=
                      if negb (ttl_expired current_ts'
                                 (AccountUpdateSignal.ts m)
                                 (AccountUpdateSignal.ttl m))
                         && (AccountData.last_heartbeat_ts data1
                             <? AccountUpdateSignal.ts m)
                      then
                        AccountData.set_last_heartbeat_ts
                          (Z.min (AccountUpdateSignal.ts m) current_ts')
                          data1
                      else data1]> (account_data s1)) s1).
Proof.
  intros Hfresh Hdata Hcall.
  assert (Hrow : exists data1,
    account_data s1
      !! (AccountUpdateSignal.creditor_id m, AccountUpdateSignal.debtor_id m)
    = Some data1
    /\ event_le
         (AccountUpdateSignal.creation_date m,
          AccountUpdateSignal.last_change_ts m,
          AccountUpdateSignal.last_change_seqnum m)
         (AccountData.creation_date data1,
          AccountData.last_change_ts data1,
          AccountData.last_change_seqnum data1) = true).
  { revert Hcall. unfold process_account_update_signal.
    rewrite Hfresh, Hdata.
    set (data0 := if AccountData.last_heartbeat_ts data
                     <? AccountUpdateSignal.ts m
                  then AccountData.set_last_heartbeat_ts
                         (Z.min (AccountUpdateSignal.ts m) current_ts) data
                  else data).
    destruct (event_le _ _) eqn:Hevent.
    - intros [= <-]. exists data0. split; [|done].
      unfold commit. cbn [fst snd]. destruct s; cbn.
      by rewrite lookup_insert_eq.
    - apply newer_event_is_not_older_epoch in Hevent. rewrite Hevent.
      cbn [assert mbind result_bind].
      match goal with
      | |- context [if ?b
                    then _insert_info_update_pending_log_entry (?d, s) ?ts
                    else _] =>
        set (data1 := d);
        assert (Hst : exists s',
          (if b then _insert_info_update_pending_log_entry (data1, s) ts
           else (data1, s)) = (data1, s'))
      end.
      { match goal with |- context [if ?b then _ else _] => destruct b end.
        - destruct (_insert_info_update_pending_log_entry (data1, s)
                      current_ts) as [data1' s'] eqn:Hinsert.
          pose proof (insert_keeps_the_row (data1, s) current_ts) as Hrow.
          rewrite Hinsert in Hrow. cbn [fst] in Hrow.
          exists s'. by rewrite Hrow.
        - by exists s. }
      destruct Hst as (s' & ->). cbn [fst snd].
      assert (Hkey1 :
        event_le
          (AccountUpdateSignal.creation_date m,
           AccountUpdateSignal.last_change_ts m,
           AccountUpdateSignal.last_change_seqnum m)
          (AccountData.creation_date data1,
           AccountData.last_change_ts data1,
           AccountData.last_change_seqnum data1) = true)
        by apply event_le_refl.
      assert (Hupdated : forall data2 number principal_,
        same_info data1 data2 ->
        ('(log_entry, (data, s)) ←
           _update_ledger (data2, s') number 0 principal_ current_ts true;
         let s :=
           match log_entry with
           | Some log_entry =>
             let s :=
               add_updated_ledger_signal
                 (UpdatedLedgerSignal.mk
                    (AccountUpdateSignal.creditor_id m)
                    (AccountUpdateSignal.debtor_id m)
                    (AccountData.ledger_latest_update_id data)
                    (AccountData.account_id data)
                    (AccountData.creation_date data)
                    principal_ number current_ts) s in
             let s := add_pending_log_entry log_entry s in
             set_uid_seq (uid_seq s + 1) s
           | None => s
           end in
         Ok (commit (AccountUpdateSignal.creditor_id m,
                     AccountUpdateSignal.debtor_id m)
               (data,
                ensure_pending_ledger_update (AccountData.creditor_id data)
                  (AccountData.debtor_id data) s))) = Ok s1 ->
        exists data3,
          account_data s1
            !! (AccountUpdateSignal.creditor_id m,
                AccountUpdateSignal.debtor_id m) = Some data3
          /\ event_le
               (AccountUpdateSignal.creation_date m,
                AccountUpdateSignal.last_change_ts m,
                AccountUpdateSignal.last_change_seqnum m)
               (AccountData.creation_date data3,
                AccountData.last_change_ts data3,
                AccountData.last_change_seqnum data3) = true).
      { intros data2 number principal_ Hsame2.
        destruct (_update_ledger (data2, s') number 0 principal_ current_ts
                    true) as [[log_entry [data3 s3]]|e] eqn:Hupdate;
          [|done].
        cbn [mbind result_bind]. intros [= <-].
        destruct (update_ledger_effect _ _ _ _ _ _ _ _ _ _ Hupdate)
          as (entries & _ & Hsame3 & _).
        destruct (same_info_ids _ _ (same_info_trans _ _ _ Hsame2 Hsame3))
          as (_ & _ & Hdate & _ & _ & _ & _ & _ & Hts & Hseqnum & _).
        exists data3. split; [|by rewrite Hdate, Hts, Hseqnum].
        unfold commit, ensure_pending_ledger_update. cbn [fst snd].
        destruct log_entry; destruct s3; cbn; by rewrite lookup_insert_eq. }
      destruct (AccountData.creation_date data0
                <? AccountUpdateSignal.creation_date m); cbn [orb].
      + cbv beta iota. apply Hupdated.
        apply set_ledger_pending_transfer_ts_row.
      + destruct (bool_decide
                    (AccountUpdateSignal.account_id m
                     ≠ AccountData.account_id data0)); cbv beta iota.
        * apply Hupdated. apply same_info_refl.
        * intros [= <-]. exists data1. split; [|done].
          unfold commit. cbn [fst snd]. destruct s'; cbn.
          by rewrite lookup_insert_eq. }
  destruct Hrow as (data1 & Hdata1 & Hstale). exists data1.
  split; [done|]. split; [done|]. intros current_ts' now'.
  by apply stale_update.
Qed.

(** X12.  An account update for an account that the creditor does not
    have, within its [ttl], changes nothing but the configure-account
    signals: it adds none, or the one that schedules the account for
    deletion with a huge negligible amount.  Once the peer reports the
    flags and the amount of that signal, further updates add nothing. *)
Theorem orphaned_account_is_told_once current_ts now m s :
  CONFIG_SCHEDULED_FOR_DELETION_FLAG <> 0 ->
  ((1 - EPS) * HUGE_NEGLIGIBLE_AMOUNT <=? HUGE_NEGLIGIBLE_AMOUNT)%float
  = true ->
  ttl_expired current_ts (AccountUpdateSignal.ts m)
    (AccountUpdateSignal.ttl m) = false ->
  account_data s
    !! (AccountUpdateSignal.creditor_id m, AccountUpdateSignal.debtor_id m)
  = None ->
  exists s' signals,
    process_account_update_signal HUGE_NEGLIGIBLE_AMOUNT DEFAULT_CONFIG_FLAGS
      CONFIG_SCHEDULED_FOR_DELETION_FLAG is_deletion_safe
      _insert_info_update_pending_log_entry current_ts now m s = Ok s'
    /\ s' = mkdb (account_data s) (committed_transfer s)
              (pending_ledger_update s) (ledger_entry s)
              (pending_log_entry s) (updated_ledger_signal s)
              (configure_account_signal s ++ signals) (uid_seq s)
    /\ (signals = []
        \/ signals
           = [ConfigureAccountSignal.mk (AccountUpdateSignal.creditor_id m)
                (AccountUpdateSignal.debtor_id m) now 0
                HUGE_NEGLIGIBLE_AMOUNT
                (Z.lor DEFAULT_CONFIG_FLAGS
                   CONFIG_SCHEDULED_FOR_DELETION_FLAG)])
    /\ forall current_ts' now' m',
         AccountUpdateSignal.creditor_id m'
         = AccountUpdateSignal.creditor_id m ->
         AccountUpdateSignal.debtor_id m' = AccountUpdateSignal.debtor_id m ->
         AccountUpdateSignal.config_flags m'
         = Z.lor DEFAULT_CONFIG_FLAGS CONFIG_SCHEDULED_FOR_DELETION_FLAG ->
         AccountUpdateSignal.negligible_amount m' = HUGE_NEGLIGIBLE_AMOUNT ->
         process_account_update_signal HUGE_NEGLIGIBLE_AMOUNT
           DEFAULT_CONFIG_FLAGS CONFIG_SCHEDULED_FOR_DELETION_FLAG
           is_deletion_safe _insert_info_update_pending_log_entry
           current_ts' now' m' s' = Ok s'.
Proof.
  intros Hflag Hhuge Hfresh Hdata.
  assert (Hecho : forall s' current_ts' now' m',
    account_data s' = account_data s ->
    AccountUpdateSignal.creditor_id m' = AccountUpdateSignal.creditor_id m ->
    AccountUpdateSignal.debtor_id m' = AccountUpdateSignal.debtor_id m ->
    AccountUpdateSignal.config_flags m'
    = Z.lor DEFAULT_CONFIG_FLAGS CONFIG_SCHEDULED_FOR_DELETION_FLAG ->
    AccountUpdateSignal.negligible_amount m' = HUGE_NEGLIGIBLE_AMOUNT ->
    process_account_update_signal HUGE_NEGLIGIBLE_AMOUNT
      DEFAULT_CONFIG_FLAGS CONFIG_SCHEDULED_FOR_DELETION_FLAG
      is_deletion_safe _insert_info_update_pending_log_entry
      current_ts' now' m' s' = Ok s').
  { intros s' current_ts' now' m' Hrows Hcreditor Hdebtor Hflags Hamount.
    unfold process_account_update_signal.
    destruct (ttl_expired current_ts' (AccountUpdateSignal.ts m')
                (AccountUpdateSignal.ttl m')); [done|].
    rewrite Hrows, Hcreditor, Hdebtor, Hdata.
    unfold _discard_orphaned_account.
    rewrite Hflags, Hamount, land_lor_same, Hhuge.
    rewrite (proj2 (Z.eqb_neq _ _) Hflag). by cbn [negb andb]. }
  unfold process_account_update_signal. rewrite Hfresh, Hdata.
  unfold _discard_orphaned_account.
  destruct (negb (negb _ && _)).
  - eexists _, [_]. split; [reflexivity|]. split; [done|].
    split; [by right|]. intros current_ts' now' m'. by apply Hecho.
  - exists s, []. split; [done|].
    split; [destruct s; cbn; by rewrite app_nil_r|].
    split; [by left|]. intros current_ts' now' m'. by apply Hecho.
Qed.

(** X13.  [process_account_purge_signal] applies once.  After a purge
    that applied, or for a purge of the same or an older epoch, another
    purge changes nothing; a purge that applied found the account on the
    server in an epoch not later than the signal's, and left it off the
    server with principal 0 and interest 0. *)
Theorem purge_signal_applies_once current_ts debtor_id creditor_id
  creation_date s :
  let s' :=
    process_account_purge_signal _insert_info_update_pending_log_entry
      current_ts debtor_id creditor_id creation_date s in
  (forall current_ts' creation_date',
     (s' <> s \/ creation_date' <= creation_date) ->
     process_account_purge_signal _insert_info_update_pending_log_entry
       current_ts' debtor_id creditor_id creation_date' s' = s')
  /\ (s' <> s ->
      exists data,
        account_data s !! (creditor_id, debtor_id) = Some data
        /\ AccountData.has_server_account data = true
        /\ AccountData.creation_date data <= creation_date
        /\ account_data s' !! (creditor_id, debtor_id)
           = Some (AccountData.set_interest 0
                     (AccountData.set_principal 0
                        (AccountData.set_has_server_account false data)))).
Proof.
  cbv zeta. unfold process_account_purge_signal.
  destruct (account_data s !! (creditor_id, debtor_id)) as [data|] eqn:Hdata.
  - destruct (AccountData.has_server_account data) eqn:Hhas; cbn [andb].
    + destruct (Z.leb_spec (AccountData.creation_date data) creation_date)
        as [Hdate|Hdate].
      * set (data' := AccountData.set_interest 0
                        (AccountData.set_principal 0
                           (AccountData.set_has_server_account false data))).
        destruct (_insert_info_update_pending_log_entry (data', s)
                    current_ts) as [data1 s1] eqn:Hinsert.
        pose proof (insert_keeps_the_row (data', s) current_ts) as Hrow.
        rewrite Hinsert in Hrow. cbn [fst] in Hrow. subst data1.
        assert (Hlookup : account_data (commit (creditor_id, debtor_id)
                                          (data', s1))
                          !! (creditor_id, debtor_id) = Some data').
        { unfold commit. cbn [fst snd]. destruct s1; cbn.
          by rewrite lookup_insert_eq. }
        split.
        -- intros current_ts' creation_date' _. rewrite Hlookup.
           by destruct data.
        -- intros _. exists data. by rewrite Hlookup.
      * split; [|done]. intros current_ts' creation_date' [?|Hle]; [done|].
        rewrite Hdata, Hhas. cbn [andb].
        by rewrite (proj2 (Z.leb_gt _ _)) by lia.
    + split; [|done]. intros current_ts' creation_date' _.
      by rewrite Hdata, Hhas.
  - split; [|done]. intros current_ts' creation_date' _. by rewrite Hdata.
Qed.

(** X14.  [process_rejected_config_signal] applies once.  After a
    rejection that applied, any further rejection changes nothing, and so
    does the same rejection delivered again; a rejection that applied
    found the signal's configuration stored with no error, and stored the
    rejection code. *)
Theorem config_rejection_applies_once current_ts debtor_id creditor_id
  config_ts config_seqnum negligible_amount config_data config_flags
  rejection_code s :
  let s' :=
    process_rejected_config_signal _insert_info_update_pending_log_entry
      current_ts debtor_id creditor_id config_ts config_seqnum
      negligible_amount config_data config_flags rejection_code s in
  (forall current_ts' config_ts' config_seqnum' negligible_amount'
          config_data' config_flags' rejection_code',
     s' <> s
     \/ (config_ts', config_seqnum', config_data', config_flags',
         negligible_amount')
        = (config_ts, config_seqnum, config_data, config_flags,
           negligible_amount) ->
     process_rejected_config_signal _insert_info_update_pending_log_entry
       current_ts' debtor_id creditor_id config_ts' config_seqnum'
       negligible_amount' config_data' config_flags' rejection_code' s'
     = s')
  /\ (s' <> s ->
      exists data,
        account_data s !! (creditor_id, debtor_id) = Some data
        /\ AccountData.config_error data = None
        /\ AccountData.last_config_ts data = config_ts
        /\ AccountData.last_config_seqnum data = config_seqnum
        /\ AccountData.config_flags data = config_flags
        /\ AccountData.config_data data = config_data
        /\ account_data s' !! (creditor_id, debtor_id)
           = Some (AccountData.set_config_error (Some rejection_code) data)).
Proof.
  cbv zeta. unfold process_rejected_config_signal.
  destruct (account_data s !! (creditor_id, debtor_id)) as [data|] eqn:Hdata.
  - destruct (_ && _ && _ && _ && _ && _) eqn:Hmatch.
    + repeat (apply andb_true_iff in Hmatch as [Hmatch ?]).
      set (data' := AccountData.set_config_error (Some rejection_code) data).
      destruct (_insert_info_update_pending_log_entry (data', s)
                  current_ts) as [data1 s1] eqn:Hinsert.
      pose proof (insert_keeps_the_row (data', s) current_ts) as Hrow.
      rewrite Hinsert in Hrow. cbn [fst] in Hrow. subst data1.
      assert (Hlookup : account_data (commit (creditor_id, debtor_id)
                                        (data', s1))
                        !! (creditor_id, debtor_id) = Some data').
      { unfold commit. cbn [fst snd]. destruct s1; cbn.
        by rewrite lookup_insert_eq. }
      split.
      * intros. rewrite Hlookup.
        replace (bool_decide (AccountData.config_error data' = None))
          with false by (by destruct data).
        by rewrite andb_false_r.
      * intros _. exists data. rewrite Hlookup.
        repeat match goal with
               | H : bool_decide _ = true |- _ =>
                 apply bool_decide_eq_true in H
               | H : (_ =? _) = true |- _ => apply Z.eqb_eq in H
               end.
        done.
    + split; [|done].
      intros current_ts' config_ts' config_seqnum' negligible_amount'
        config_data' config_flags' rejection_code' [?|[= -> -> -> -> ->]];
        [done|].
      by rewrite Hdata, Hmatch.
  - split; [|done]. intros. by rewrite Hdata.
Qed.

End Signals.
(** *** The signal properties on the values of the tests *)

Lemma new_epoch_resets_the_ledger_witness :
  exists s' data',
    process_account_update_signal Tests.HUGE_NEGLIGIBLE_AMOUNT
      Tests.DEFAULT_CONFIG_FLAGS Tests.CONFIG_SCHEDULED_FOR_DELETION_FLAG
      Tests.is_deletion_safe Tests._insert_info_update_pending_log_entry
      Tests.current_ts Tests.current_ts Examples.new_epoch_update
      Tests.db_behind = Ok s'
    /\ account_data s' !! (Tests.C_ID, Tests.D_ID) = Some data'
    /\ AccountData.ledger_principal data' = 0
    /\ AccountData.ledger_last_transfer_number data' = 0.
Proof.
  destruct (new_epoch_resets_the_ledger Tests.HUGE_NEGLIGIBLE_AMOUNT
              Tests.DEFAULT_CONFIG_FLAGS
              Tests.CONFIG_SCHEDULED_FOR_DELETION_FLAG Tests.is_deletion_safe
              Tests._insert_info_update_pending_log_entry
              ltac:(reflexivity) ltac:(reflexivity)
              Tests.current_ts Tests.current_ts Examples.new_epoch_update
              Tests.db_behind Tests.account_behind)
    as (s' & data' & entries & Hcall & Hdata' & _ & _ & _ & _ & Hprincipal
        & Hnumber & _).
  - vm_compute. reflexivity.
  - vm_compute. reflexivity.
  - vm_compute. reflexivity.
  - exists s', data'. split; [exact Hcall|]. split; [exact Hdata'|].
    split; [exact Hprincipal|exact Hnumber].
Defined.

Lemma delivered_account_update_is_stale_witness :
  exists s1 data1,
    process_account_update_signal Tests.HUGE_NEGLIGIBLE_AMOUNT
      Tests.DEFAULT_CONFIG_FLAGS Tests.CONFIG_SCHEDULED_FOR_DELETION_FLAG
      Tests.is_deletion_safe Tests._insert_info_update_pending_log_entry
      Tests.current_ts Tests.current_ts Examples.new_epoch_update
      Tests.db_behind = Ok s1
    /\ account_data s1 !! (Tests.C_ID, Tests.D_ID) = Some data1
    /\ process_account_update_signal Tests.HUGE_NEGLIGIBLE_AMOUNT
         Tests.DEFAULT_CONFIG_FLAGS Tests.CONFIG_SCHEDULED_FOR_DELETION_FLAG
         Tests.is_deletion_safe Tests._insert_info_update_pending_log_entry
         (Tests.current_ts + days 30) (Tests.current_ts + days 30)
         Examples.new_epoch_update s1
       = Ok (set_account_data
               (<[(Tests.C_ID, Tests.D_ID) := data1]> (account_data s1)) s1).
Proof.
  destruct (process_account_update_signal Tests.HUGE_NEGLIGIBLE_AMOUNT
              Tests.DEFAULT_CONFIG_FLAGS
              Tests.CONFIG_SCHEDULED_FOR_DELETION_FLAG Tests.is_deletion_safe
              Tests._insert_info_update_pending_log_entry
              Tests.current_ts Tests.current_ts Examples.new_epoch_update
              Tests.db_behind) as [s1|e] eqn:Hcall;
    [|vm_compute in Hcall; discriminate].
  destruct (delivered_account_update_is_stale Tests.HUGE_NEGLIGIBLE_AMOUNT
              Tests.DEFAULT_CONFIG_FLAGS
              Tests.CONFIG_SCHEDULED_FOR_DELETION_FLAG Tests.is_deletion_safe
              Tests._insert_info_update_pending_log_entry
              ltac:(reflexivity)
              Tests.current_ts Tests.current_ts Examples.new_epoch_update
              Tests.db_behind Tests.account_behind s1)
    as (data1 & Hdata1 & _ & Hagain).
  - vm_compute. reflexivity.
  - vm_compute. reflexivity.
  - exact Hcall.
  - exists s1, data1. split; [reflexivity|]. split; [exact Hdata1|].
    exact (Hagain (Tests.current_ts + days 30) (Tests.current_ts + days 30)).
Defined.

Lemma orphaned_account_is_told_once_witness :
  exists s' signals,
    process_account_update_signal Tests.HUGE_NEGLIGIBLE_AMOUNT
      Tests.DEFAULT_CONFIG_FLAGS Tests.CONFIG_SCHEDULED_FOR_DELETION_FLAG
      Tests.is_deletion_safe Tests._insert_info_update_pending_log_entry
      Tests.current_ts Tests.current_ts Examples.new_epoch_update
      Examples.no_accounts = Ok s'
    /\ configure_account_signal s' = signals.
Proof.
  destruct (orphaned_account_is_told_once Tests.HUGE_NEGLIGIBLE_AMOUNT
              Tests.DEFAULT_CONFIG_FLAGS
              Tests.CONFIG_SCHEDULED_FOR_DELETION_FLAG Tests.is_deletion_safe
              Tests._insert_info_update_pending_log_entry
              Tests.current_ts Tests.current_ts Examples.new_epoch_update
              Examples.no_accounts)
    as (s' & signals & Hcall & Hstate & _).
  - vm_compute. discriminate.
  - vm_compute. reflexivity.
  - vm_compute. reflexivity.
  - vm_compute. reflexivity.
  - exists s', signals. split; [exact Hcall|]. rewrite Hstate. reflexivity.
Defined.

Lemma purge_signal_applies_once_witness :
  process_account_purge_signal Tests._insert_info_update_pending_log_entry
    (Tests.current_ts + days 1) Tests.D_ID Tests.C_ID Tests.creation_date
    (process_account_purge_signal Tests._insert_info_update_pending_log_entry
       Tests.current_ts Tests.D_ID Tests.C_ID Tests.creation_date
       Tests.db_behind)
  = process_account_purge_signal Tests._insert_info_update_pending_log_entry
      Tests.current_ts Tests.D_ID Tests.C_ID Tests.creation_date
      Tests.db_behind.
Proof.
  refine (proj1 (purge_signal_applies_once
                   Tests._insert_info_update_pending_log_entry
                   ltac:(reflexivity) Tests.current_ts Tests.D_ID Tests.C_ID
                   Tests.creation_date Tests.db_behind)
            (Tests.current_ts + days 1) Tests.creation_date _).
  right. lia.
Defined.

Lemma config_rejection_applies_once_witness :
  process_rejected_config_signal Tests._insert_info_update_pending_log_entry
    (Tests.current_ts + days 1) Tests.D_ID Tests.C_ID Tests.current_ts 0
    10%float EmptyString 0 "CONFIGURATION_IS_NOT_ALLOWED"
    (process_rejected_config_signal
       Tests._insert_info_update_pending_log_entry
       Tests.current_ts Tests.D_ID Tests.C_ID Tests.current_ts 0 10%float
       EmptyString 0 "CONFIGURATION_IS_NOT_ALLOWED" Tests.db_behind)
  = process_rejected_config_signal
      Tests._insert_info_update_pending_log_entry
      Tests.current_ts Tests.D_ID Tests.C_ID Tests.current_ts 0 10%float
      EmptyString 0 "CONFIGURATION_IS_NOT_ALLOWED" Tests.db_behind.
Proof.
  refine (proj1 (config_rejection_applies_once
                   Tests._insert_info_update_pending_log_entry
                   ltac:(reflexivity) Tests.current_ts Tests.D_ID Tests.C_ID
                   Tests.current_ts 0 10%float EmptyString 0
                   "CONFIGURATION_IS_NOT_ALLOWED" Tests.db_behind)
            (Tests.current_ts + days 1) Tests.current_ts 0 10%float
            EmptyString 0 "CONFIGURATION_IS_NOT_ALLOWED" _).
  right. reflexivity.
Defined.

End SignalsTheory.

(** ** The log of a creditor *)

Module CreditorsLogTheory.
Import Creditors CommonFacts PagingFacts CreditorsTheory LogVocabulary.

(** X15.  A page of [get_creditor_log_entries]: [count] is positive
    and [prev] within range, the creditor exists and its
    [last_log_entry_id] is returned; the page has at most [count] entries,
    in ascending order of [entry_id], all of them log entries of the
    creditor after [prev]; and an entry of the creditor after [prev] that
    is left out finds the page full, with no entry of the page after it. *)
Theorem log_page_holds_the_next_entries creditor_id count prev s page
  last_log_entry_id :
  get_creditor_log_entries creditor_id count prev s
  = Ok (page, last_log_entry_id) ->
  1 <= count
  /\ 0 <= prev <= MAX_INT64
  /\ (Creditor.last_log_entry_id <$> creditor s !! creditor_id)
     = Some last_log_entry_id
  /\ Z.of_nat (length page) <= count
  /\ StronglySorted
       (fun e e' => LogEntry.entry_id e <= LogEntry.entry_id e') page
  /\ Forall (fun e => e ∈ log_entry s
                      /\ LogEntry.creditor_id e = creditor_id
                      /\ prev < LogEntry.entry_id e) page
  /\ forall e,
       e ∈ log_entry s ->
       LogEntry.creditor_id e = creditor_id ->
       prev < LogEntry.entry_id e ->
       e ∉ page ->
       Z.of_nat (length page) = count
       /\ Forall (fun e' => LogEntry.entry_id e' <= LogEntry.entry_id e)
            page.
Proof.
  unfold get_creditor_log_entries.
  destruct (Z.leb_spec 1 count) as [Hcount|]; [|done].
  cbn [assert mbind result_bind].
  destruct (Z.leb_spec 0 prev) as [Hprev0|]; [|done].
  destruct (Z.leb_spec prev MAX_INT64) as [Hprev1|]; [|done].
  cbn [andb assert mbind result_bind].
  destruct (creditor s !! creditor_id) as [row|]; [|done].
  unfold limit. destruct (Z.ltb_spec count 0); [lia|].
  cbn [mbind result_bind]. intros [= <- <-].
  set (P := fun e => LogEntry.creditor_id e = creditor_id
                     /\ prev < LogEntry.entry_id e).
  do 3 (split; [done|]).
  split; [rewrite length_take; lia|].
  split.
  { pose proof (order_by_sorted LogEntry.entry_id (filter P (log_entry s)))
      as Hsorted.
    revert Hsorted. generalize (order_by LogEntry.entry_id
                                  (filter P (log_entry s))) as rows.
    intros rows. generalize (Z.to_nat count) as n.
    induction rows as [|e rows IH]; intros n Hs.
    - rewrite take_nil. constructor.
    - destruct n as [|n]; [constructor|].
      apply StronglySorted_inv in Hs as [Hs Hall].
      cbn [take firstn]. constructor; [by apply IH|].
      by apply Forall_take. }
  split.
  { apply Forall_take. rewrite order_by_perm. apply Forall_forall.
    intros e He. apply list_elem_of_filter in He as [[? ?] ?]. done. }
  intros e Hin Hcreditor Hnext Hout.
  assert (He : e ∈ filter P (log_entry s))
    by (by apply list_elem_of_filter).
  split.
  - destruct (decide (length (take (Z.to_nat count)
                                (order_by LogEntry.entry_id
                                   (filter P (log_entry s))))
                      < Z.to_nat count)%nat) as [Hshort|Hfull].
    + exfalso. apply Hout. rewrite short_page by done.
      by rewrite order_by_perm.
    + rewrite length_take in Hfull |- *. lia.
  - by apply page_holds_the_first_rows.
Qed.

(** X16.  Pages of [get_creditor_log_entries] join: when the entry ids
    of the creditor are distinct, a page after [prev] followed by the page
    after its last entry is the page of [count + count'] entries after
    [prev]. *)
Theorem log_pages_join creditor_id count count' prev s page page' e
  last_log_entry_id last_log_entry_id' :
  NoDup (map LogEntry.entry_id
           (filter (fun e => LogEntry.creditor_id e = creditor_id)
              (log_entry s))) ->
  get_creditor_log_entries creditor_id count prev s
  = Ok (page, last_log_entry_id) ->
  last page = Some e ->
  get_creditor_log_entries creditor_id count' (LogEntry.entry_id e) s
  = Ok (page', last_log_entry_id') ->
  get_creditor_log_entries creditor_id (count + count') prev s
  = Ok (page ++ page', last_log_entry_id).
Proof.
  intros Hnodup. unfold get_creditor_log_entries.
  destruct (Z.leb_spec 1 count) as [Hcount|]; [|done].
  destruct (Z.leb_spec 1 count') as [Hcount'|];
    [|by destruct (_ && _), (creditor s !! creditor_id)].
  destruct (Z.leb_spec 1 (count + count')); [|lia].
  cbn [assert mbind result_bind].
  destruct ((0 <=? prev) && (prev <=? MAX_INT64)); [|done].
  destruct ((0 <=? LogEntry.entry_id e)
            && (LogEntry.entry_id e <=? MAX_INT64));
    [|by destruct (creditor s !! creditor_id)].
  cbn [assert mbind result_bind].
  destruct (creditor s !! creditor_id) as [row|]; [|done].
  unfold limit.
  destruct (Z.ltb_spec count 0); [lia|].
  destruct (Z.ltb_spec count' 0); [lia|].
  destruct (Z.ltb_spec (count + count') 0); [lia|].
  cbn [mbind result_bind]. intros [= <- <-] Hlast [= <- <-].
  set (P := fun e => LogEntry.creditor_id e = creditor_id
                     /\ prev < LogEntry.entry_id e) in *.
  assert (Hsub : sublist (filter P (log_entry s))
                   (filter (fun e => LogEntry.creditor_id e = creditor_id)
                      (log_entry s))).
  { clear. induction (log_entry s) as [|y l IH]; [done|].
    rewrite !filter_cons.
    destruct (decide (P y)) as [[? ?]|HP],
      (decide (LogEntry.creditor_id y = creditor_id)) as [HQ|HQ].
    - by constructor.
    - done.
    - by constructor.
    - done. }
  assert (Hprev : prev < LogEntry.entry_id e).
  { apply last_Some_elem_of, in_take in Hlast.
    rewrite order_by_perm in Hlast.
    by apply list_elem_of_filter in Hlast as [[? ?] ?]. }
  rewrite (next_page LogEntry.entry_id P
             (fun e' => LogEntry.creditor_id e' = creditor_id
                        /\ LogEntry.entry_id e < LogEntry.entry_id e')
             (Z.to_nat count) (log_entry s) e).
  - rewrite take_then_take_of_drop. do 3 f_equal. lia.
  - eapply sublist_NoDup; [exact Hnodup|]. by apply fmap_sublist.
  - done.
  - intros y. unfold P. split; [intros [? ?]|intros [[? ?] ?]].
    + split; [split; [done|lia]|done].
    + done.
Qed.

Lemma filter_ext_in {A} (P Q : A -> Prop) `{forall x, Decision (P x)}
  `{forall x, Decision (Q x)} (l : list A) :
  (forall x, x ∈ l -> P x <-> Q x) -> filter P l = filter Q l.
Proof.
  induction l as [|x l IH]; intros Hext; [done|].
  rewrite !filter_cons.
  assert (Hx : P x <-> Q x) by (apply Hext; by left).
  rewrite IH by (intros y Hy; apply Hext; by right).
  destruct (decide (P x)), (decide (Q x)); tauto || done.
Qed.

Lemma consecutive_range first ids :
  consecutive first ids ->
  Forall (fun id => first <= id < first + Z.of_nat (length ids)) ids
  /\ NoDup ids.
Proof.
  revert first. induction ids as [|id ids IH]; intros first.
  - intros _. split; constructor.
  - intros [-> Hrest]. destruct (IH _ Hrest) as [Hrange Hnodup].
    cbn [length]. split.
    + constructor; [lia|].
      eapply Forall_impl; [exact Hrange|]. cbn. intros; lia.
    + constructor; [|done]. intros Hin.
      rewrite Forall_forall in Hrange. apply Hrange in Hin. lia.
Qed.

Section FlushMore.
Context (paths : paths.t) (types : types.t).
Context (is_created : PendingLogEntry.t -> bool).

Lemma flushed_rows_belong creditor_id last_id list_id entries rows :
  flushed paths types is_created creditor_id last_id list_id entries rows ->
  Forall (fun e => LogEntry.creditor_id e = creditor_id) rows.
Proof. induction 1; repeat constructor; done. Qed.

Lemma flush_row creditor_id entries :
  forall row s,
    fst (flush_pending_log_entries paths types is_created creditor_id
           entries (row, s))
    = flushed_row types is_created entries row.
Proof.
  induction entries as [|entry entries IH]; intros row s.
  - unfold flushed_row, transfer_list_changes. cbn.
    rewrite !Z.add_0_r. by destruct row.
  - cbn [flush_pending_log_entries].
    fold (records_transfer_list_change types is_created entry).
    unfold flushed_row, transfer_list_changes. rewrite filter_cons.
    destruct (records_transfer_list_change types is_created entry) eqn:Hrec.
    + rewrite decide_True by done. cbn [fst snd _add_log_entry].
      rewrite IH. unfold flushed_row, transfer_list_changes.
      cbn [length map]. rewrite last_cons_default.
      destruct row; cbn. f_equal; lia.
    + rewrite decide_False by done. cbn [fst snd _add_log_entry].
      rewrite IH. unfold flushed_row, transfer_list_changes.
      cbn [length map]. destruct row; cbn. f_equal; lia.
Qed.

(** What a flush does to the tables, for a creditor whose row is stored
    under its id. *)
Lemma flush_effect creditor_id s row :
  Creditors.creditor s !! creditor_id = Some row ->
  Creditor.creditor_id row = creditor_id ->
  let entries := get_pending_log_entries creditor_id s in
  exists rows,
    process_pending_log_entries paths types is_created creditor_id s
    = mkdb
        (<[creditor_id := flushed_row types is_created entries row]>
           (Creditors.creditor s))
        (filter
           (fun e =>
              PendingLogEntry.pending_entry_id e
              ∉ map PendingLogEntry.pending_entry_id entries)
           (pending_log_entry s))
        (log_entry s ++ rows)
    /\ Forall (fun e => LogEntry.creditor_id e = creditor_id) rows
    /\ consecutive (Creditor.last_log_entry_id row + 1)
         (map LogEntry.entry_id rows)
    /\ Creditor.last_log_entry_id (flushed_row types is_created entries row)
       = Creditor.last_log_entry_id row + Z.of_nat (length rows).
Proof.
  intros Hrow Hid. cbv zeta.
  destruct (flush_pending_log_entries_spec paths types is_created
              creditor_id (get_pending_log_entries creditor_id s) row s Hid)
    as (rows & Hlog & Hfl & Hcons & Hlen & Hlast & Hcid & Hcred & Hpend).
  cbv zeta in Hlog, Hlast, Hcid, Hcred, Hpend.
  exists rows. rewrite flush_row in Hlast.
  split; [|split; [by eapply flushed_rows_belong|done]].
  unfold process_pending_log_entries. rewrite Hrow.
  destruct (get_pending_log_entries creditor_id s) as [|entry entries]
    eqn:Hentries.
  - destruct rows; [|done]. rewrite app_nil_r.
    replace (flushed_row types is_created [] row) with row.
    + rewrite insert_id by done.
      rewrite filter_all by (intros e; apply not_elem_of_nil).
      by destruct s.
    + unfold flushed_row, transfer_list_changes. cbn.
      rewrite !Z.add_0_r. by destruct row.
  - unfold commit. rewrite Hlog, Hcred, Hpend. by rewrite flush_row.
Qed.

(** X17.  With distinct [pending_entry_id]s,
    [process_pending_log_entries] for an existing creditor removes the
    creditor's pending entries and no others, leaves the rows and the log
    entries of the other creditors as they were, takes the creditor off
    [get_creditors_with_pending_log_entries] and no one else, and does
    nothing when it is called again. *)
Theorem flush_concerns_one_creditor creditor_id s row :
  Creditors.creditor s !! creditor_id = Some row ->
  Creditor.creditor_id row = creditor_id ->
  NoDup (map PendingLogEntry.pending_entry_id (pending_log_entry s)) ->
  let s' :=
    process_pending_log_entries paths types is_created creditor_id s in
  pending_log_entry s'
  = filter (fun e => PendingLogEntry.creditor_id e <> creditor_id)
      (pending_log_entry s)
  /\ (forall creditor_id',
        creditor_id' <> creditor_id ->
        Creditors.creditor s' !! creditor_id'
        = Creditors.creditor s !! creditor_id')
  /\ filter (fun e => LogEntry.creditor_id e <> creditor_id) (log_entry s')
     = filter (fun e => LogEntry.creditor_id e <> creditor_id) (log_entry s)
  /\ get_creditors_with_pending_log_entries s'
     = get_creditors_with_pending_log_entries s ∖ {[ creditor_id ]}
  /\ process_pending_log_entries paths types is_created creditor_id s' = s'.
Proof.
  intros Hrow Hid Hnodup. cbv zeta.
  destruct (flush_effect creditor_id s row Hrow Hid)
    as (rows & -> & Hbelong & _ & _).
  cbn [pending_log_entry log_entry Creditors.creditor].
  assert (Hpending :
    filter
      (fun e =>
         PendingLogEntry.pending_entry_id e
         ∉ map PendingLogEntry.pending_entry_id
             (get_pending_log_entries creditor_id s))
      (pending_log_entry s)
    = filter (fun e => PendingLogEntry.creditor_id e <> creditor_id)
        (pending_log_entry s)).
  { apply filter_ext_in. intros e He. split.
    - intros Hout Hcreditor. apply Hout.
      apply list_elem_of_fmap. exists e. split; [done|].
      rewrite get_pending_log_entries_perm.
      by apply list_elem_of_filter.
    - intros Hother Hin.
      apply list_elem_of_fmap in Hin as (e' & Hsame & He').
      rewrite get_pending_log_entries_perm in He'.
      apply list_elem_of_filter in He' as [Hcreditor He'].
      assert (e = e'); [|by subst].
      clear -Hnodup He He' Hsame. revert Hnodup He He'.
      induction (pending_log_entry s) as [|x l IH]; [by intros _ ?%elem_of_nil|].
      intros Hnodup He He'. cbn in Hnodup.
      apply NoDup_cons in Hnodup as [Hx Hnodup].
      apply elem_of_cons in He as [->|He];
        apply elem_of_cons in He' as [->|He']; [done| | |by apply IH].
      + exfalso. apply Hx. rewrite Hsame.
        apply list_elem_of_fmap. by exists e'.
      + exfalso. apply Hx. rewrite <- Hsame.
        apply list_elem_of_fmap. by exists e. }
  rewrite Hpending. split; [done|].
  split; [intros creditor_id' Hother; by rewrite lookup_insert_ne|].
  split.
  { rewrite filter_app.
    replace (filter (fun e => LogEntry.creditor_id e <> creditor_id) rows)
      with (@nil LogEntry.t); [by rewrite app_nil_r|].
    clear -Hbelong. induction Hbelong as [|e rows He _ IH]; [done|].
    by rewrite filter_cons_False by (intros Hne; by apply Hne). }
  split.
  { unfold get_creditors_with_pending_log_entries.
    cbn [pending_log_entry]. apply set_eq. intros c.
    rewrite elem_of_difference, elem_of_singleton, !elem_of_list_to_set,
      !list_elem_of_fmap.
    split.
    - intros (e & -> & He). apply list_elem_of_filter in He as [? ?].
      split; [by exists e|done].
    - intros [(e & -> & He) Hother]. exists e. split; [done|].
      by apply list_elem_of_filter. }
  unfold process_pending_log_entries.
  cbn [Creditors.creditor]. rewrite lookup_insert_eq.
  replace (get_pending_log_entries creditor_id _)
    with (@nil PendingLogEntry.t); [done|].
  symmetry. unfold get_pending_log_entries. cbn [pending_log_entry].
  rewrite list_filter_filter.
  replace (filter _ (pending_log_entry s)) with (@nil PendingLogEntry.t);
    [done|].
  symmetry. clear. induction (pending_log_entry s) as [|e l IH]; [done|].
  rewrite filter_cons_False by tauto. done.
Qed.

(** X18.  The creditor's row after [process_pending_log_entries]: the
    version of the list of transfers has grown by the number of pending
    entries that record the creation or the deletion of a transfer, its
    timestamp is that of the last of them, [last_log_entry_id] has grown by
    the number of the pending entries plus that number, and the other
    columns are as before. *)
Theorem flush_counts_the_transfer_list_changes creditor_id s row :
  Creditors.creditor s !! creditor_id = Some row ->
  Creditors.creditor
    (process_pending_log_entries paths types is_created creditor_id s)
    !! creditor_id
  = Some (flushed_row types is_created
            (get_pending_log_entries creditor_id s) row).
Proof.
  intros Hrow. unfold process_pending_log_entries. rewrite Hrow.
  destruct (get_pending_log_entries creditor_id s) as [|entry entries].
  - rewrite Hrow. f_equal. unfold flushed_row, transfer_list_changes. cbn.
    rewrite !Z.add_0_r. by destruct row.
  - unfold commit. cbn [Creditors.creditor]. rewrite lookup_insert_eq.
    by rewrite flush_row.
Qed.

Lemma sound_log_grows creditor_id s row row' rows creditors' :
  log_is_sound creditor_id s ->
  Creditors.creditor s !! creditor_id = Some row ->
  creditors' !! creditor_id = Some row' ->
  Creditor.creditor_id row' = creditor_id ->
  Forall (fun e => LogEntry.creditor_id e = creditor_id) rows ->
  consecutive (Creditor.last_log_entry_id row + 1)
    (map LogEntry.entry_id rows) ->
  Creditor.last_log_entry_id row'
  = Creditor.last_log_entry_id row + Z.of_nat (length rows) ->
  forall pending,
    log_is_sound creditor_id (mkdb creditors' pending (log_entry s ++ rows)).
Proof.
  intros Hsound Hrow Hrow' Hid' Hbelong Hcons Hlast pending row'' Hrow''.
  cbn [Creditors.creditor log_entry] in *.
  rewrite Hrow' in Hrow''. injection Hrow'' as <-.
  destruct (Hsound row Hrow) as (Hid & Hbelow & Hnodup).
  destruct (consecutive_range _ _ Hcons) as [Hrange Hfresh].
  rewrite length_map in Hrange. apply Forall_map in Hrange.
  rewrite Forall_forall in Hrange. rewrite Forall_forall in Hbelow.
  split; [done|]. split.
  - apply Forall_app. split; apply Forall_forall.
    + intros e He Hc. specialize (Hbelow e He Hc). lia.
    + intros e He _. specialize (Hrange e He). cbn in Hrange. lia.
  - rewrite filter_app, map_app.
    replace (filter (fun e => LogEntry.creditor_id e = creditor_id) rows)
      with rows.
    + apply NoDup_app. split; [done|]. split; [|done].
      intros id Hold Hnew.
      apply list_elem_of_fmap in Hold as (e & -> & He).
      apply list_elem_of_filter in He as [Hc He].
      specialize (Hbelow e He Hc).
      apply list_elem_of_fmap in Hnew as (e' & Hsame & He').
      specialize (Hrange e' He'). cbn in Hrange. lia.
    + clear -Hbelong. induction Hbelong as [|e rows He _ IH]; [done|].
      by rewrite filter_cons_True, <- IH by done.
Qed.

Lemma sound_log_of_others creditor_id creditor_id' s rows creditors'
  pending :
  creditor_id' <> creditor_id ->
  log_is_sound creditor_id' s ->
  creditors' !! creditor_id' = Creditors.creditor s !! creditor_id' ->
  Forall (fun e => LogEntry.creditor_id e = creditor_id) rows ->
  log_is_sound creditor_id' (mkdb creditors' pending (log_entry s ++ rows)).
Proof.
  intros Hother Hsound Hsame Hbelong row Hrow.
  cbn [Creditors.creditor log_entry] in *. rewrite Hsame in Hrow.
  destruct (Hsound row Hrow) as (Hid & Hbelow & Hnodup).
  rewrite Forall_forall in Hbelong.
  split; [done|]. split.
  - apply Forall_app. split; [done|]. apply Forall_forall.
    intros e He Hc. apply Hbelong in He. congruence.
  - rewrite filter_app.
    replace (filter (fun e => LogEntry.creditor_id e = creditor_id') rows)
      with (@nil LogEntry.t); [by rewrite app_nil_r|].
    symmetry. revert Hbelong. clear -Hother.
    induction rows as [|e rows IH]; intros Hbelong; [done|].
    rewrite filter_cons_False.
    + apply IH. intros e' He'. apply Hbelong. by right.
    + intros Hc. specialize (Hbelong e ltac:(by left)). congruence.
Qed.

(** X19.  When every creditor's row is stored under its id, no log
    entry of a creditor is above its [last_log_entry_id], and its entry ids
    are distinct, the same holds after [process_pending_log_entries] and
    after an [update_creditor] that returns. *)
Theorem log_entry_ids_stay_sound creditor_id s :
  (forall creditor_id', log_is_sound creditor_id' s) ->
  (forall creditor_id',
     log_is_sound creditor_id'
       (process_pending_log_entries paths types is_created creditor_id s))
  /\ (forall current_ts latest_update_id row' s',
        update_creditor paths types current_ts creditor_id latest_update_id s
        = Ok (row', s') ->
        forall creditor_id', log_is_sound creditor_id' s').
Proof.
  intros Hsound. split.
  - intros creditor_id'.
    destruct (Creditors.creditor s !! creditor_id) as [row|] eqn:Hrow.
    + destruct (Hsound creditor_id row Hrow) as (Hid & _).
      destruct (flush_effect creditor_id s row Hrow Hid)
        as (rows & -> & Hbelong & Hcons & Hlast).
      destruct (decide (creditor_id' = creditor_id)) as [->|Hother].
      * apply (sound_log_grows creditor_id s row
                 (flushed_row types is_created
                    (get_pending_log_entries creditor_id s) row) rows);
          [done|done|by rewrite lookup_insert_eq|exact Hid|done|done|done].
      * apply sound_log_of_others with creditor_id; try done.
        by rewrite lookup_insert_ne.
    + unfold process_pending_log_entries. by rewrite Hrow.
  - intros current_ts latest_update_id row' s'. unfold update_creditor.
    destruct ((1 <=? latest_update_id) && (latest_update_id <=? MAX_INT64));
      [|done].
    cbn [assert mbind result_bind].
    destruct (get_creditor creditor_id s) as [row|] eqn:Hget; [|done].
    assert (Hrow : Creditors.creditor s !! creditor_id = Some row).
    { revert Hget. unfold get_creditor.
      destruct (Creditors.creditor s !! creditor_id) as [row0|]; [|done].
      destruct (_ && _); [|done]. by intros [= ->]. }
    destruct (Hsound creditor_id row Hrow) as (Hid & _).
    unfold allow_update. cbn [existsb negb]. rewrite andb_true_r.
    destruct (latest_update_id =? Creditor.creditor_latest_update_id row).
    + by intros [= <- <-].
    + destruct (latest_update_id
                =? Creditor.creditor_latest_update_id row + 1); [|done].
      cbn [negb fold_left]. unfold commit, _add_log_entry.
      cbn [fst snd Creditor.generate_log_entry_id].
      intros [= <- <-] creditor_id'.
      cbn [Creditors.creditor log_entry pending_log_entry fst snd].
      destruct (decide (creditor_id' = creditor_id)) as [->|Hother].
      * eapply (sound_log_grows creditor_id s row _ [_]);
          [done|done|by rewrite lookup_insert_eq|by destruct row
          |constructor; [by destruct row|constructor]
          |cbn; split; [by destruct row|done]
          |by destruct row].
      * apply sound_log_of_others with creditor_id; try done.
        -- by rewrite lookup_insert_ne.
        -- constructor; [by destruct row|constructor].
Qed.

(** X20.  An [update_creditor] that returns has stored
    [latest_update_id]; the same call made again returns the same creditor
    and changes nothing; and a call with an id that is neither the stored
    one nor its successor raises [UpdateConflict]. *)
Theorem update_creditor_can_be_retried current_ts creditor_id
  latest_update_id s row' s' :
  update_creditor paths types current_ts creditor_id latest_update_id s
  = Ok (row', s') ->
  Creditor.creditor_latest_update_id row' = latest_update_id
  /\ (forall current_ts',
        update_creditor paths types current_ts' creditor_id latest_update_id
          s' = Ok (row', s'))
  /\ (forall current_ts' update_id,
        1 <= update_id <= MAX_INT64 ->
        update_id <> latest_update_id ->
        update_id <> latest_update_id + 1 ->
        update_creditor paths types current_ts' creditor_id update_id s'
        = Raise UpdateConflict).
Proof.
  intros Hcall.
  assert (Hafter : get_creditor creditor_id s' = Some row'
                   /\ Creditor.creditor_latest_update_id row'
                      = latest_update_id
                   /\ 1 <= latest_update_id <= MAX_INT64).
  { revert Hcall. unfold update_creditor.
    destruct ((1 <=? latest_update_id) && (latest_update_id <=? MAX_INT64))
      eqn:Hrange; [|done].
    cbn [assert mbind result_bind].
    destruct (get_creditor creditor_id s) as [row|] eqn:Hget; [|done].
    unfold allow_update. cbn [existsb negb]. rewrite andb_true_r.
    destruct (Z.eqb_spec latest_update_id
                (Creditor.creditor_latest_update_id row)) as [Hsame|Hdiff].
    - intros [= <- <-]. split; [done|]. split; [done|lia].
    - destruct (Z.eqb_spec latest_update_id
                  (Creditor.creditor_latest_update_id row + 1))
        as [Hnext|]; [|done].
      cbn [negb fold_left]. unfold commit, _add_log_entry.
      cbn [fst snd Creditor.generate_log_entry_id].
      intros [= <- <-]. split; [|split; [by destruct row|lia]].
      revert Hget. unfold get_creditor. cbn [Creditors.creditor].
      rewrite lookup_insert_eq.
      destruct (Creditors.creditor s !! creditor_id) as [row0|]; [|done].
      destruct (Creditor.is_active row0
                && bool_decide (Creditor.deactivated_at_date row0 = None))
        eqn:Hactive; [|done].
      intros [= ->]. destruct row; cbn in *. by rewrite Hactive. }
  destruct Hafter as (Hget' & Hid' & Hrange). split; [done|]. split.
  - intros current_ts'. unfold update_creditor.
    replace ((1 <=? latest_update_id) && (latest_update_id <=? MAX_INT64))
      with true by lia.
    cbn [assert mbind result_bind]. rewrite Hget'. unfold allow_update.
    cbn [existsb negb]. by rewrite andb_true_r, Hid', Z.eqb_refl.
  - intros current_ts' update_id Hrange' Hne Hne'. unfold update_creditor.
    replace ((1 <=? update_id) && (update_id <=? MAX_INT64)) with true
      by lia.
    cbn [assert mbind result_bind]. rewrite Hget'. unfold allow_update.
    cbn [existsb negb]. rewrite andb_true_r, Hid'.
    replace (update_id =? latest_update_id) with false by lia.
    by replace (update_id =? latest_update_id + 1) with false by lia.
Qed.



End FlushMore.





(** *** The log properties on the values of the tests *)

Lemma log_page_holds_the_next_entries_witness :
  exists page last_log_entry_id,
    get_creditor_log_entries Tests.C_ID 2 7 Examples.db_with_log
    = Ok (page, last_log_entry_id)
    /\ Z.of_nat (length page) <= 2.
Proof.
  destruct (get_creditor_log_entries Tests.C_ID 2 7 Examples.db_with_log)
    as [[page last_log_entry_id]|e] eqn:Hcall;
    [|vm_compute in Hcall; discriminate].
  exists page, last_log_entry_id. split; [reflexivity|].
  exact (proj1 (proj2 (proj2 (proj2
           (log_page_holds_the_next_entries Tests.C_ID 2 7
              Examples.db_with_log page last_log_entry_id Hcall))))).
Defined.

Lemma log_pages_join_witness :
  exists page page' last_log_entry_id,
    get_creditor_log_entries Tests.C_ID (1 + 1) 7 Examples.db_with_log
    = Ok (page ++ page', last_log_entry_id)
    /\ length page = 1%nat /\ length page' = 1%nat.
Proof.
  destruct (get_creditor_log_entries Tests.C_ID 1 7 Examples.db_with_log)
    as [[page last_log_entry_id]|e] eqn:Hcall;
    [|vm_compute in Hcall; discriminate].
  pose proof Hcall as Hpage. vm_compute in Hpage.
  injection Hpage as Hpage Hlast.
  destruct (last page) as [e|] eqn:He;
    [|rewrite <- Hpage in He; vm_compute in He; discriminate].
  pose proof He as Hentry. rewrite <- Hpage in Hentry. vm_compute in Hentry.
  injection Hentry as Hentry.
  destruct (get_creditor_log_entries Tests.C_ID 1 (LogEntry.entry_id e)
              Examples.db_with_log)
    as [[page' last_log_entry_id']|e'] eqn:Hcall';
    [|rewrite <- Hentry in Hcall'; vm_compute in Hcall'; discriminate].
  pose proof Hcall' as Hpage'. rewrite <- Hentry in Hpage'.
  vm_compute in Hpage'. injection Hpage' as Hpage' _.
  exists page, page', last_log_entry_id. split.
  - apply (log_pages_join Tests.C_ID 1 1 7 Examples.db_with_log page
             page' e last_log_entry_id last_log_entry_id').
    + refine (bool_decide_unpack _ _). vm_compute. exact I.
    + exact Hcall.
    + exact He.
    + exact Hcall'.
  - rewrite <- Hpage, <- Hpage'. split; reflexivity.
Defined.

Lemma flush_concerns_one_creditor_witness :
  pending_log_entry
    (process_pending_log_entries Tests.paths Tests.types Tests.is_created
       Tests.C_ID Tests.db_with_pending_log)
  = filter (fun e => PendingLogEntry.creditor_id e <> Tests.C_ID)
      (pending_log_entry Tests.db_with_pending_log).
Proof.
  refine (proj1 (flush_concerns_one_creditor Tests.paths Tests.types
                   Tests.is_created Tests.C_ID Tests.db_with_pending_log
                   Tests.creditor _ _ _)).
  - vm_compute. reflexivity.
  - reflexivity.
  - refine (bool_decide_unpack _ _). vm_compute. exact I.
Defined.

Lemma flush_counts_the_transfer_list_changes_witness :
  Creditor.transfer_list_latest_update_id
  <$> Creditors.creditor Examples.db_with_log !! Tests.C_ID
  = Some 4.
Proof.
  unfold Examples.db_with_log.
  rewrite (flush_counts_the_transfer_list_changes Tests.paths Tests.types
             Tests.is_created Tests.C_ID Tests.db_with_pending_log
             Tests.creditor).
  - vm_compute. reflexivity.
  - vm_compute. reflexivity.
Defined.

Lemma log_entry_ids_stay_sound_witness :
  log_is_sound Tests.C_ID Examples.db_with_log.
Proof.
  refine (proj1 (log_entry_ids_stay_sound Tests.paths Tests.types
                   Tests.is_created Tests.C_ID Tests.db_with_pending_log _)
            Tests.C_ID).
  intros creditor_id' row Hrow.
  change (Creditors.creditor Tests.db_with_pending_log)
    with ({[ Tests.C_ID := Tests.creditor ]} : gmap Z Creditor.t) in Hrow.
  apply lookup_singleton_Some in Hrow as [<- <-].
  split; [reflexivity|]. split; constructor.
Defined.

Lemma update_creditor_can_be_retried_witness :
  exists row' s',
    update_creditor Tests.paths Tests.types Tests.current_ts Tests.C_ID 2
      Tests.db_with_pending_log = Ok (row', s')
    /\ update_creditor Tests.paths Tests.types (Tests.current_ts + days 1)
         Tests.C_ID 2 s' = Ok (row', s').
Proof.
  destruct (update_creditor Tests.paths Tests.types Tests.current_ts
              Tests.C_ID 2 Tests.db_with_pending_log)
    as [[row' s']|e] eqn:Hcall; [|vm_compute in Hcall; discriminate].
  exists row', s'. split; [reflexivity|].
  exact (proj1 (proj2
           (update_creditor_can_be_retried Tests.paths Tests.types
              Tests.current_ts Tests.C_ID 2 Tests.db_with_pending_log row'
              s' Hcall)) (Tests.current_ts + days 1)).
Defined.

End CreditorsLogTheory.

(** ** The activation of a creditor *)

Module ActivationTheory.
Import Creditors.

(** X30.  [activate_creditor]: [get_creditor] then gives the creditor,
    active, unless it has been deactivated; a missing creditor and a
    creditor that [get_creditor] gave before leave the state as it was;
    the other creditors, the log and the pending entries are untouched,
    and a second activation changes nothing. *)
Theorem activated_creditor_is_visible creditor_id s :
  let s' := activate_creditor creditor_id s in
  (forall row,
     creditor s !! creditor_id = Some row ->
     get_creditor creditor_id s'
     = (if bool_decide (Creditor.deactivated_at_date row = None)
        then Some (Creditor.mk (Creditor.creditor_id row) true None
                     (Creditor.last_log_entry_id row)
                     (Creditor.creditor_latest_update_id row)
                     (Creditor.creditor_latest_update_ts row)
                     (Creditor.transfer_list_latest_update_id row)
                     (Creditor.transfer_list_latest_update_ts row))
        else None))
  /\ (creditor s !! creditor_id = None -> s' = s)
  /\ (forall row, get_creditor creditor_id s = Some row -> s' = s)
  /\ (forall creditor_id',
        creditor_id' <> creditor_id ->
        get_creditor creditor_id' s' = get_creditor creditor_id' s)
  /\ log_entry s' = log_entry s
  /\ pending_log_entry s' = pending_log_entry s
  /\ activate_creditor creditor_id s' = s'.
Proof.
  cbv zeta. unfold activate_creditor, get_creditor.
  destruct (creditor s !! creditor_id) as [row|] eqn:Hrow.
  - unfold commit. cbn [fst snd creditor log_entry pending_log_entry].
    rewrite !lookup_insert_eq. cbn [Creditor.is_active andb
      Creditor.deactivated_at_date].
    split.
    { intros ? [= <-].
      destruct (bool_decide_reflect
                  (Creditor.deactivated_at_date row = None)) as [->|]; done. }
    split; [done|]. split.
    { intros ?. destruct (Creditor.is_active row) eqn:Hactive; [|done].
      intros _. destruct s, row; cbn in *. subst.
      f_equal. by apply insert_id. }
    split; [intros c Hc; by rewrite lookup_insert_ne|].
    split; [done|]. split; [done|].
    f_equal. by rewrite insert_insert_eq.
  - rewrite Hrow. done.
Qed.

End ActivationTheory.

(** ** The accounts of a creditor *)

Module AccountsTheory.
Import Accounts CommonFacts PagingFacts AccountsVocabulary.

Section AccountFacts.
Context (paths : paths.t) (types : types.t).
Context (DEFAULT_NEGLIGIBLE_AMOUNT : float) (DEFAULT_CONFIG_FLAGS : Z).
Context (default_is_deletion_safe default_allow_unsafe_deletion : bool).
Context (default_peg_debtor_id : option Z).

Lemma get_creditor_row creditor_id s row list_version :
  get_creditor creditor_id s = Some (row, list_version) ->
  Creditors.creditor (base s) !! creditor_id = Some row
  /\ account_list s !! creditor_id = Some list_version
  /\ Creditors.Creditor.is_active row = true
  /\ Creditors.Creditor.deactivated_at_date row = None.
Proof.
  unfold get_creditor, Creditors.get_creditor.
  destruct (Creditors.creditor (base s) !! creditor_id) as [row0|]; [|done].
  destruct (Creditors.Creditor.is_active row0) eqn:Hactive; [|done].
  destruct (bool_decide (Creditors.Creditor.deactivated_at_date row0 = None))
    eqn:Hdate; [|done].
  cbn [andb]. destruct (account_list s !! creditor_id); [|done].
  intros [= <- <-]. by apply bool_decide_eq_true in Hdate.
Qed.

Lemma create_new_account_commits row list_version s debtor_id current_ts :
  let created :=
    _create_new_account paths types DEFAULT_NEGLIGIBLE_AMOUNT
      DEFAULT_CONFIG_FLAGS default_is_deletion_safe
      default_allow_unsafe_deletion default_peg_debtor_id
      ((row, list_version), s) debtor_id current_ts in
  let creditor_id := Creditors.Creditor.creditor_id row in
  Account.created_at_ts (fst created) = current_ts
  /\ fst (fst (snd created))
     = Creditors.Creditor.set_last_log_entry_id
         (Creditors.Creditor.last_log_entry_id row + 2) row
  /\ snd (fst (snd created))
     = AccountList.mk
         (AccountList.account_list_latest_update_id list_version + 1)
         current_ts
  /\ Creditors.creditor (base (snd (snd created)))
     = Creditors.creditor (base s)
  /\ Creditors.pending_log_entry (base (snd (snd created)))
     = Creditors.pending_log_entry (base s)
  /\ Creditors.log_entry (base (snd (snd created)))
     = Creditors.log_entry (base s)
       ++ [LogEntry.mk creditor_id
             (Creditors.Creditor.last_log_entry_id row + 1)
             (types.account types)
             (paths.account paths creditor_id debtor_id)
             (Some 1) current_ts false None;
           LogEntry.mk creditor_id
             (Creditors.Creditor.last_log_entry_id row + 2)
             (types.account_list types)
             (paths.account_list paths creditor_id)
             (Some (AccountList.account_list_latest_update_id list_version
                    + 1))
             current_ts false None]
  /\ account_list (snd (snd created)) = account_list s
  /\ account (snd (snd created))
     = <[(creditor_id, debtor_id) := fst created]> (account s)
  /\ configure_account_signal (snd (snd created))
     = configure_account_signal s
       ++ [ConfigureAccountSignal.mk debtor_id creditor_id current_ts 0
             DEFAULT_NEGLIGIBLE_AMOUNT DEFAULT_CONFIG_FLAGS EmptyString].
Proof.
  cbv zeta. destruct row, s as [[? ? ?] ? ? ?]. cbn.
  rewrite <- app_assoc. cbn.
  replace (last_log_entry_id + 1 + 1) with (last_log_entry_id + 2) by lia.
  repeat split; reflexivity.
Qed.

(** X21.  [create_new_account] that returns, for a creditor stored
    under its id: the creditor is active, [debtor_id] is 64-bit, and the
    account did not exist; the account is stored, the version of the list
    of accounts has grown by one, two log entries with the next two entry
    ids tell of the account and of the list of accounts, one
    [ConfigureAccountSignal] with [seqnum] 0 is sent, and another call
    for the same account raises [AccountExists]. *)
Theorem new_account_is_recorded current_ts creditor_id debtor_id s
  new_account s' :
  (forall row,
     Creditors.creditor (base s) !! creditor_id = Some row ->
     Creditors.Creditor.creditor_id row = creditor_id) ->
  create_new_account paths types DEFAULT_NEGLIGIBLE_AMOUNT
    DEFAULT_CONFIG_FLAGS default_is_deletion_safe
    default_allow_unsafe_deletion default_peg_debtor_id current_ts
    creditor_id debtor_id s = Returns (new_account, s') ->
  exists row list_version,
    get_creditor creditor_id s = Some (row, list_version)
    /\ is_int64 debtor_id
    /\ account s !! (creditor_id, debtor_id) = None
    /\ account s' = <[(creditor_id, debtor_id) := new_account]> (account s)
    /\ Account.created_at_ts new_account = current_ts
    /\ account_list s'
       = <[creditor_id :=
             AccountList.mk
               (AccountList.account_list_latest_update_id list_version + 1)
               current_ts]> (account_list s)
    /\ Creditors.log_entry (base s')
       = Creditors.log_entry (base s)
         ++ [LogEntry.mk creditor_id
               (Creditors.Creditor.last_log_entry_id row + 1)
               (types.account types)
               (paths.account paths creditor_id debtor_id)
               (Some 1) current_ts false None;
             LogEntry.mk creditor_id
               (Creditors.Creditor.last_log_entry_id row + 2)
               (types.account_list types)
               (paths.account_list paths creditor_id)
               (Some (AccountList.account_list_latest_update_id list_version
                      + 1))
               current_ts false None]
    /\ (Creditors.Creditor.last_log_entry_id
        <$> Creditors.creditor (base s') !! creditor_id)
       = Some (Creditors.Creditor.last_log_entry_id row + 2)
    /\ configure_account_signal s'
       = configure_account_signal s
         ++ [ConfigureAccountSignal.mk debtor_id creditor_id current_ts 0
               DEFAULT_NEGLIGIBLE_AMOUNT DEFAULT_CONFIG_FLAGS EmptyString]
    /\ forall current_ts',
         create_new_account paths types DEFAULT_NEGLIGIBLE_AMOUNT
           DEFAULT_CONFIG_FLAGS default_is_deletion_safe
           default_allow_unsafe_deletion default_peg_debtor_id current_ts'
           creditor_id debtor_id s' = Raises AccountExists.
Proof.
  intros Hkeys. unfold create_new_account.
  destruct ((MIN_INT64 <=? debtor_id) && (debtor_id <=? MAX_INT64))
    eqn:Hrange; [|done].
  cbn [negb].
  destruct (get_creditor creditor_id s) as [[row list_version]|] eqn:Hget;
    [|done].
  destruct (has_account creditor_id debtor_id s) eqn:Hhas; [done|].
  destruct (get_creditor_row _ _ _ _ Hget)
    as (Hrow & Hlist & Hactive & Hdate).
  pose proof (Hkeys row Hrow) as Hid.
  pose proof (create_new_account_commits row list_version s debtor_id
                current_ts) as Hcreated.
  cbv zeta in Hcreated. rewrite Hid in Hcreated.
  destruct (_create_new_account _ _ _ _ _ _ _ _ _ _)
    as [new_account0 [[row1 list_version1] s1]].
  cbn [fst snd] in Hcreated.
  destruct Hcreated as (Hat & -> & -> & Hrows & Hpending & Hlog & Hlists
                        & Haccounts & Hsignals).
  intros [= <- <-]. unfold commit, Creditors.commit.
  cbn [fst snd base account_list account configure_account_signal
       Creditors.creditor Creditors.pending_log_entry Creditors.log_entry].
  exists row, list_version. split; [done|].
  split; [unfold is_int64; lia|].
  split.
  { unfold has_account in Hhas. apply bool_decide_eq_false in Hhas.
    destruct (account s !! (creditor_id, debtor_id)) eqn:Hacc; [|done].
    exfalso. apply Hhas. by eexists. }
  split; [done|]. split; [done|]. split; [by rewrite Hlists|].
  split; [done|]. split; [by rewrite lookup_insert_eq|]. split; [done|].
  intros current_ts'.
  unfold get_creditor, Creditors.get_creditor, has_account.
  cbn [base account_list account Creditors.creditor].
  rewrite !lookup_insert_eq.
  replace (Creditors.Creditor.is_active _) with true
    by (by destruct row).
  replace (Creditors.Creditor.deactivated_at_date _) with (@None date)
    by (by destruct row).
  rewrite bool_decide_eq_true_2 by done. cbn [andb negb].
  rewrite Haccounts, lookup_insert_eq.
  by rewrite bool_decide_eq_true_2.
Qed.

Lemma has_pegged_accounts_spec creditor_id debtor_id s :
  has_pegged_accounts creditor_id debtor_id s = true
  <-> exists debtor_id' data,
        account s !! (creditor_id, debtor_id') = Some data
        /\ Account.peg_debtor_id data = Some debtor_id.
Proof.
  unfold has_pegged_accounts. rewrite existsb_exists. split.
  - intros ([[c d'] data] & Hin & Hrow). cbn [fst snd] in Hrow.
    apply andb_true_iff in Hrow as [Hc Hpeg].
    apply Z.eqb_eq in Hc. subst c. apply bool_decide_eq_true in Hpeg.
    apply list_elem_of_In, elem_of_map_to_list in Hin.
    by exists d', data.
  - intros (d' & data & Hrow & Hpeg).
    exists ((creditor_id, d'), data). split.
    + by apply list_elem_of_In, elem_of_map_to_list.
    + cbn [fst snd]. rewrite Z.eqb_refl. by rewrite bool_decide_eq_true_2.
Qed.

Lemma add_log_entry_fields st added_at_ts object_type object_uri
  object_update_id is_deleted :
  let st' :=
    _add_log_entry st added_at_ts object_type object_uri object_update_id
      is_deleted in
  fst (fst st')
  = Creditors.Creditor.set_last_log_entry_id
      (Creditors.Creditor.last_log_entry_id (fst (fst st)) + 1)
      (fst (fst st))
  /\ snd (fst st') = snd (fst st)
  /\ Creditors.creditor (base (snd st')) = Creditors.creditor (base (snd st))
  /\ Creditors.pending_log_entry (base (snd st'))
     = Creditors.pending_log_entry (base (snd st))
  /\ Creditors.log_entry (base (snd st'))
     = Creditors.log_entry (base (snd st))
       ++ [LogEntry.mk (Creditors.Creditor.creditor_id (fst (fst st)))
             (Creditors.Creditor.last_log_entry_id (fst (fst st)) + 1)
             object_type object_uri object_update_id added_at_ts is_deleted
             None]
  /\ account_list (snd st') = account_list (snd st)
  /\ account (snd st') = account (snd st)
  /\ configure_account_signal (snd st') = configure_account_signal (snd st).
Proof. destruct st as [[[] ?] [[] ? ? ?]]. repeat split; reflexivity. Qed.

Lemma add_deletion_events current_ts events :
  forall st,
    let st' :=
      fold_left
        (fun st event =>
           _add_log_entry st current_ts (fst event) (snd event) None true)
        events st in
    fst (fst st')
    = Creditors.Creditor.set_last_log_entry_id
        (Creditors.Creditor.last_log_entry_id (fst (fst st))
         + Z.of_nat (length events))
        (fst (fst st))
    /\ snd (fst st') = snd (fst st)
    /\ Creditors.creditor (base (snd st'))
       = Creditors.creditor (base (snd st))
    /\ Creditors.pending_log_entry (base (snd st'))
       = Creditors.pending_log_entry (base (snd st))
    /\ Creditors.log_entry (base (snd st'))
       = Creditors.log_entry (base (snd st))
         ++ imap
              (fun i event =>
                 LogEntry.mk (Creditors.Creditor.creditor_id (fst (fst st)))
                   (Creditors.Creditor.last_log_entry_id (fst (fst st)) + 1
                    + Z.of_nat i)
                   (fst event) (snd event) None current_ts true None)
              events
    /\ account_list (snd st') = account_list (snd st)
    /\ account (snd st') = account (snd st)
    /\ configure_account_signal (snd st') = configure_account_signal (snd st).
Proof.
  induction events as [|event events IH]; intros st; cbv zeta.
  - cbn [fold_left length imap]. rewrite Z.add_0_r, app_nil_r.
    split; [by destruct st as [[[] ?] ?]|]. done.
  - cbn [fold_left].
    destruct (add_log_entry_fields st current_ts (fst event) (snd event)
                None true) as (H1 & H2 & H3 & H4 & H5 & H6 & H7 & H8).
    cbv zeta in H1, H2, H3, H4, H5, H6, H7, H8.
    destruct (IH (_add_log_entry st current_ts (fst event) (snd event) None
                    true)) as (G1 & G2 & G3 & G4 & G5 & G6 & G7 & G8).
    cbv zeta in G1, G2, G3, G4, G5, G6, G7, G8.
    rewrite G1, G2, G3, G4, G5, G6, G7, G8, H1, H2, H3, H4, H5, H6, H7, H8.
    clear. destruct st as [[row list_version] s]. cbn [fst snd].
    split.
    { cbn [length]. rewrite Nat2Z.inj_succ.
      destruct row. unfold Creditors.Creditor.set_last_log_entry_id.
      cbn [Creditors.Creditor.last_log_entry_id
           Creditors.Creditor.creditor_id Creditors.Creditor.is_active
           Creditors.Creditor.deactivated_at_date
           Creditors.Creditor.creditor_latest_update_id
           Creditors.Creditor.creditor_latest_update_ts
           Creditors.Creditor.transfer_list_latest_update_id
           Creditors.Creditor.transfer_list_latest_update_ts].
      f_equal. lia. }
    do 3 (split; [done|]). split; [|done].
    rewrite <- app_assoc. f_equal. cbn [imap app].
    destruct row. unfold Creditors.Creditor.set_last_log_entry_id.
    cbn [Creditors.Creditor.last_log_entry_id
         Creditors.Creditor.creditor_id]. f_equal.
    + f_equal. cbn [Z.of_nat]. lia.
    + apply imap_ext. intros i event' _. cbn [compose]. f_equal.
      rewrite Nat2Z.inj_succ. lia.
Qed.

Lemma delete_account_commits row list_version s creditor_id debtor_id
  current_ts :
  let st0 :=
    bump_account_list current_ts
      ((row, list_version),
       mkdb (base s) (account_list s)
         (delete (creditor_id, debtor_id) (account s))
         (configure_account_signal s)) in
  let st1 :=
    _add_log_entry st0 current_ts (types.account_list types)
      (paths.account_list paths creditor_id)
      (Some (AccountList.account_list_latest_update_id (snd (fst st0))))
      false in
  let st :=
    fold_left
      (fun st event =>
         _add_log_entry st current_ts (fst event) (snd event) None true)
      (deletion_events paths types creditor_id debtor_id) st1 in
  fst (fst st)
  = Creditors.Creditor.set_last_log_entry_id
      (Creditors.Creditor.last_log_entry_id row + 8) row
  /\ snd (fst st)
     = AccountList.mk
         (AccountList.account_list_latest_update_id list_version + 1)
         current_ts
  /\ Creditors.creditor (base (snd st)) = Creditors.creditor (base s)
  /\ Creditors.pending_log_entry (base (snd st))
     = Creditors.pending_log_entry (base s)
  /\ Creditors.log_entry (base (snd st))
     = Creditors.log_entry (base s)
       ++ LogEntry.mk (Creditors.Creditor.creditor_id row)
            (Creditors.Creditor.last_log_entry_id row + 1)
            (types.account_list types)
            (paths.account_list paths creditor_id)
            (Some (AccountList.account_list_latest_update_id list_version
                   + 1))
            current_ts false None
          :: imap
               (fun i event =>
                  LogEntry.mk (Creditors.Creditor.creditor_id row)
                    (Creditors.Creditor.last_log_entry_id row + 2
                     + Z.of_nat i)
                    (fst event) (snd event) None current_ts true None)
               (deletion_events paths types creditor_id debtor_id)
  /\ account_list (snd st) = account_list s
  /\ account (snd st) = delete (creditor_id, debtor_id) (account s)
  /\ configure_account_signal (snd st) = configure_account_signal s.
Proof.
  cbv zeta.
  match goal with
  | |- context [fold_left ?f ?events ?st] =>
    destruct (add_deletion_events current_ts events st)
      as (G1 & G2 & G3 & G4 & G5 & G6 & G7 & G8)
  end.
  cbv zeta in G1, G2, G3, G4, G5, G6, G7, G8.
  rewrite G1, G2, G3, G4, G5, G6, G7, G8. clear.
  match goal with
  | |- context [_add_log_entry ?st ?ts ?type ?uri ?id ?deleted] =>
    destruct (add_log_entry_fields st ts type uri id deleted)
      as (H1 & H2 & H3 & H4 & H5 & H6 & H7 & H8)
  end.
  cbv zeta in H1, H2, H3, H4, H5, H6, H7, H8.
  rewrite H1, H2, H3, H4, H5, H6, H7, H8. clear.
  unfold bump_account_list. cbn [fst snd base account_list account
    configure_account_signal AccountList.account_list_latest_update_id
    deletion_events length].
  destruct row. unfold Creditors.Creditor.set_last_log_entry_id.
  cbn [Creditors.Creditor.last_log_entry_id
       Creditors.Creditor.creditor_id Creditors.Creditor.is_active
       Creditors.Creditor.deactivated_at_date
       Creditors.Creditor.creditor_latest_update_id
       Creditors.Creditor.creditor_latest_update_ts
       Creditors.Creditor.transfer_list_latest_update_id
       Creditors.Creditor.transfer_list_latest_update_ts].
  split; [f_equal; cbn [Z.of_nat]; lia|].
  do 3 (split; [done|]). split; [|done].
  rewrite <- app_assoc. f_equal. cbn [app]. f_equal.
  apply imap_ext. intros i event _. f_equal. lia.
Qed.

Lemma delete_missing_account current_ts creditor_id debtor_id s :
  account s !! (creditor_id, debtor_id) = None ->
  delete_account paths types current_ts creditor_id debtor_id s
  = Raises AccountDoesNotExist.
Proof. intros Hnone. unfold delete_account. by rewrite Hnone. Qed.

(** X22.  [delete_account] that returns: the account existed, its
    deletion was safe or allowed, and no account of the creditor was pegged
    to it; the account is gone, the version of the list of accounts has
    grown by one, eight log entries with the next eight entry ids tell of
    the list of accounts and of the deletion of the account and its six
    facets, no signal is sent, and another call raises
    [AccountDoesNotExist]. *)
Theorem deleted_account_is_gone current_ts creditor_id debtor_id s s' :
  delete_account paths types current_ts creditor_id debtor_id s
  = Returns s' ->
  exists data row list_version,
    account s !! (creditor_id, debtor_id) = Some data
    /\ Creditors.creditor (base s) !! creditor_id = Some row
    /\ account_list s !! creditor_id = Some list_version
    /\ (Account.is_deletion_safe data = true
        \/ Account.allow_unsafe_deletion data = true)
    /\ (forall debtor_id' data',
          account s !! (creditor_id, debtor_id') = Some data' ->
          Account.peg_debtor_id data' <> Some debtor_id)
    /\ account s' = delete (creditor_id, debtor_id) (account s)
    /\ configure_account_signal s' = configure_account_signal s
    /\ account_list s'
       = <[creditor_id :=
             AccountList.mk
               (AccountList.account_list_latest_update_id list_version + 1)
               current_ts]> (account_list s)
    /\ Creditors.log_entry (base s')
       = Creditors.log_entry (base s)
         ++ LogEntry.mk (Creditors.Creditor.creditor_id row)
              (Creditors.Creditor.last_log_entry_id row + 1)
              (types.account_list types)
              (paths.account_list paths creditor_id)
              (Some (AccountList.account_list_latest_update_id list_version
                     + 1))
              current_ts false None
            :: imap
                 (fun i event =>
                    LogEntry.mk (Creditors.Creditor.creditor_id row)
                      (Creditors.Creditor.last_log_entry_id row + 2
                       + Z.of_nat i)
                      (fst event) (snd event) None current_ts true None)
                 (deletion_events paths types creditor_id debtor_id)
    /\ (Creditors.Creditor.last_log_entry_id
        <$> Creditors.creditor (base s') !! creditor_id)
       = Some (Creditors.Creditor.last_log_entry_id row + 8)
    /\ forall current_ts',
         delete_account paths types current_ts' creditor_id debtor_id s'
         = Raises AccountDoesNotExist.
Proof.
  intros Hcall. unfold delete_account in Hcall.
  destruct (account s !! (creditor_id, debtor_id)) as [data|] eqn:Hdata;
    [|done].
  destruct (Creditors.creditor (base s) !! creditor_id) as [row|] eqn:Hrow;
    [|done].
  destruct (account_list s !! creditor_id) as [list_version|] eqn:Hlist;
    [|done].
  destruct (Account.is_deletion_safe data || Account.allow_unsafe_deletion data)
    eqn:Hsafe; [|done].
  cbn [negb] in Hcall.
  destruct (has_pegged_accounts creditor_id debtor_id s) eqn:Hpegged; [done|].
  pose proof (delete_account_commits row list_version s creditor_id
                debtor_id current_ts) as Hdeleted.
  cbv zeta in Hdeleted, Hcall.
  destruct (fold_left _ _ _) as [[row1 list_version1] s1].
  cbn [fst snd] in Hdeleted.
  destruct Hdeleted as (-> & -> & Hrows & Hpending & Hlog & Hlists
                        & Haccounts & Hsignals).
  injection Hcall as <-. unfold commit, Creditors.commit.
  cbn [fst snd base account_list account configure_account_signal
       Creditors.creditor Creditors.pending_log_entry Creditors.log_entry].
  exists data, row, list_version. do 3 (split; [done|]).
  split; [by apply orb_true_iff|].
  split.
  { intros debtor_id' data' Hdata' Hpeg.
    assert (has_pegged_accounts creditor_id debtor_id s = true); [|congruence].
    apply has_pegged_accounts_spec. by exists debtor_id', data'. }
  split; [done|]. split; [done|]. split; [by rewrite Hlists|].
  split; [done|]. split; [by rewrite lookup_insert_eq|].
  intros current_ts'. apply delete_missing_account.
  cbn [account]. by rewrite Haccounts, lookup_delete_eq.
Qed.

(** X23.  [delete_account] never deletes an account to which another
    account of the creditor is pegged: it raises, and the error is
    [ForbiddenPegDeletion] exactly when the account and its creditor exist
    and the deletion is safe or allowed. *)
Theorem pegged_account_is_never_deleted current_ts creditor_id debtor_id
  debtor_id' data' s :
  account s !! (creditor_id, debtor_id') = Some data' ->
  Account.peg_debtor_id data' = Some debtor_id ->
  exists e,
    delete_account paths types current_ts creditor_id debtor_id s = Raises e
    /\ (e = ForbiddenPegDeletion
        <-> exists data,
              account s !! (creditor_id, debtor_id) = Some data
              /\ is_Some (Creditors.creditor (base s) !! creditor_id)
              /\ is_Some (account_list s !! creditor_id)
              /\ (Account.is_deletion_safe data = true
                  \/ Account.allow_unsafe_deletion data = true)).
Proof.
  intros Hdata' Hpeg.
  assert (Hpegged : has_pegged_accounts creditor_id debtor_id s = true).
  { apply has_pegged_accounts_spec. by exists debtor_id', data'. }
  unfold delete_account.
  destruct (account s !! (creditor_id, debtor_id)) as [data|].
  - destruct (Creditors.creditor (base s) !! creditor_id) as [row|].
    + destruct (account_list s !! creditor_id) as [list_version|].
      * destruct (Account.is_deletion_safe data
                  || Account.allow_unsafe_deletion data) eqn:Hsafe;
          cbn [negb].
        -- rewrite Hpegged. exists ForbiddenPegDeletion. split; [done|].
           split; [|done]. intros _. exists data.
           split; [done|]. split; [done|]. split; [done|].
           by apply orb_true_iff.
        -- exists UnsafeAccountDeletion. split; [done|]. split; [done|].
           intros (? & [= <-] & _ & _ & Hor).
           apply orb_true_iff in Hor. congruence.
      * exists AccountDoesNotExist. split; [done|]. split; [done|].
        by intros (? & _ & _ & [? ?] & _).
    + exists AccountDoesNotExist. split; [done|]. split; [done|].
      by intros (? & _ & [? ?] & _).
  - exists AccountDoesNotExist. split; [done|]. split; [done|].
    by intros (? & ? & _).
Qed.

End AccountFacts.
(** *** The debtor ids of a creditor *)

Lemma debtor_ids_spec creditor_id s debtor_id :
  debtor_id
  ∈ map (fun row : Z * Z * Account.t => snd (fst row))
      (filter (fun row : Z * Z * Account.t => fst (fst row) = creditor_id)
         (map_to_list (account s)))
  <-> is_Some (account s !! (creditor_id, debtor_id)).
Proof.
  rewrite list_elem_of_fmap. split.
  - intros ([[c d] data] & -> & Hrow).
    apply list_elem_of_filter in Hrow as [Hc Hrow]. cbn [fst snd] in *.
    subst c. apply elem_of_map_to_list in Hrow. by eexists.
  - intros [data Hrow]. exists ((creditor_id, debtor_id), data).
    split; [done|]. apply list_elem_of_filter. split; [done|].
    by apply elem_of_map_to_list.
Qed.

Lemma debtor_ids_nodup creditor_id s :
  NoDup (map (fun row : Z * Z * Account.t => snd (fst row))
           (filter (fun row : Z * Z * Account.t => fst (fst row) = creditor_id)
              (map_to_list (account s)))).
Proof.
  pose proof (NoDup_fst_map_to_list (account s)) as Hkeys.
  revert Hkeys. generalize (map_to_list (account s)) as rows.
  induction rows as [|[[c d] data] rows IH]; intros Hkeys; [constructor|].
  cbn in Hkeys. apply NoDup_cons in Hkeys as [Hnew Hkeys].
  rewrite filter_cons. destruct (decide _) as [Hc|Hc]; [|by apply IH].
  cbn [fst snd] in Hc. subst c. cbn [map fst snd]. constructor; [|by apply IH].
  intros Hin. apply Hnew.
  apply list_elem_of_fmap in Hin as ([[c' d'] data'] & Hd & Hrow).
  apply list_elem_of_filter in Hrow as [Hc' Hrow]. cbn [fst snd] in *.
  subst. apply list_elem_of_fmap. by exists ((creditor_id, d'), data').
Qed.

Lemma debtor_ids_query creditor_id count prev s :
  1 <= count ->
  match prev with
  | None => True
  | Some prev => is_int64 prev
  end ->
  get_creditor_debtor_ids creditor_id count prev s
  = Returns
      (take (Z.to_nat count)
         (order_by id
            (filter (is_after prev)
               (map (fun row : Z * Z * Account.t => snd (fst row))
                  (filter
                     (fun row : Z * Z * Account.t =>
                        fst (fst row) = creditor_id)
                     (map_to_list (account s))))))).
Proof.
  intros Hcount Hprev. unfold get_creditor_debtor_ids.
  rewrite (proj2 (Z.leb_le 1 count) Hcount). cbn [negb].
  destruct prev as [prev|].
  - unfold is_int64 in Hprev.
    replace ((MIN_INT64 <=? prev) && (prev <=? MAX_INT64)) with true by lia.
    cbn [negb]. reflexivity.
  - cbn [negb]. do 3 f_equal. symmetry. by apply filter_all.
Qed.

Lemma debtor_ids_call creditor_id count prev s page :
  get_creditor_debtor_ids creditor_id count prev s = Returns page ->
  1 <= count
  /\ match prev with
     | None => True
     | Some prev => is_int64 prev
     end.
Proof.
  unfold get_creditor_debtor_ids.
  destruct (Z.leb_spec 1 count); [|done]. cbn [negb].
  destruct prev as [prev|]; [|done].
  destruct ((MIN_INT64 <=? prev) && (prev <=? MAX_INT64)) eqn:Hprev; [|done].
  intros _. split; [done|]. unfold is_int64. lia.
Qed.

(** X24.  A page of [get_creditor_debtor_ids]: [count] is positive,
    the page has at most [count] ids in strictly ascending order, all of
    them debtors of accounts of the creditor after [prev]; and such a
    debtor that is left out finds the page full, with every id of the page
    below it. *)
Theorem debtor_ids_page_holds_the_next_ids creditor_id count prev s page :
  get_creditor_debtor_ids creditor_id count prev s = Returns page ->
  1 <= count
  /\ Z.of_nat (length page) <= count
  /\ StronglySorted Z.lt page
  /\ (forall debtor_id,
        debtor_id ∈ page ->
        is_Some (account s !! (creditor_id, debtor_id))
        /\ forall prev', prev = Some prev' -> prev' < debtor_id)
  /\ forall debtor_id,
       is_Some (account s !! (creditor_id, debtor_id)) ->
       (forall prev', prev = Some prev' -> prev' < debtor_id) ->
       debtor_id ∉ page ->
       Z.of_nat (length page) = count
       /\ Forall (fun debtor_id' => debtor_id' < debtor_id) page.
Proof.
  intros Hcall. destruct (debtor_ids_call _ _ _ _ _ Hcall) as [Hcount Hprev].
  rewrite (debtor_ids_query creditor_id count prev s) in Hcall by done.
  injection Hcall as <-.
  set (after := is_after prev).
  set (ids := map (fun row : Z * Z * Account.t => snd (fst row))
                (filter (fun row : Z * Z * Account.t =>
                           fst (fst row) = creditor_id)
                   (map_to_list (account s)))).
  assert (Hnodup : NoDup (map id (filter after ids))).
  { rewrite map_id. apply NoDup_filter. apply debtor_ids_nodup. }
  pose proof (order_by_strictly_sorted id _ Hnodup) as Hsorted.
  assert (Hin : forall debtor_id,
    debtor_id ∈ filter after ids
    <-> is_Some (account s !! (creditor_id, debtor_id))
        /\ forall prev', prev = Some prev' -> prev' < debtor_id).
  { intros debtor_id. rewrite list_elem_of_filter.
    unfold ids. rewrite debtor_ids_spec. unfold after, is_after.
    destruct prev as [prev|]; split.
    - intros [? ?]. split; [done|]. by intros ? [= <-].
    - intros [? Hafter]. split; [by apply Hafter|done].
    - intros [_ ?]. split; [done|]. by intros ? [=].
    - by intros [? _]. }
  split; [done|]. split; [rewrite length_take; lia|].
  split.
  { revert Hsorted. generalize (order_by id (filter after ids)) as rows.
    intros rows. generalize (Z.to_nat count) as n.
    induction rows as [|d rows IH]; intros n Hs.
    - rewrite take_nil. constructor.
    - destruct n as [|n]; [constructor|].
      apply StronglySorted_inv in Hs as [Hs Hall].
      cbn [take firstn]. constructor; [by apply IH|].
      by apply Forall_take. }
  split.
  { intros debtor_id Hpage. apply in_take in Hpage.
    rewrite order_by_perm in Hpage. by apply Hin. }
  intros debtor_id Haccount Hafter Hout.
  assert (Hid : debtor_id ∈ filter after ids) by (by apply Hin).
  split.
  - destruct (decide (length (take (Z.to_nat count)
                                (order_by id (filter after ids)))
                      < Z.to_nat count)%nat) as [Hshort|Hfull].
    + exfalso. apply Hout.
      rewrite short_page by done.
      by rewrite order_by_perm.
    + rewrite length_take in Hfull |- *. lia.
  - pose proof (page_holds_the_first_rows id (Z.to_nat count) _ _ Hid Hout)
      as Hfirst.
    apply Forall_forall. intros d Hd.
    rewrite Forall_forall in Hfirst. pose proof (Hfirst d Hd) as Hle.
    unfold id in Hle.
    destruct (decide (d = debtor_id)) as [->|Hne]; [done|lia].
Qed.

(** X25.  Pages of [get_creditor_debtor_ids] join: a page after [prev]
    followed by the page after its last id is the page of [count + count']
    ids after [prev]. *)
Theorem debtor_ids_pages_join creditor_id count count' prev s page page'
  debtor_id :
  get_creditor_debtor_ids creditor_id count prev s = Returns page ->
  last page = Some debtor_id ->
  get_creditor_debtor_ids creditor_id count' (Some debtor_id) s
  = Returns page' ->
  get_creditor_debtor_ids creditor_id (count + count') prev s
  = Returns (page ++ page').
Proof.
  intros Hcall Hlast Hcall'.
  destruct (debtor_ids_call _ _ _ _ _ Hcall) as [Hcount Hprev].
  destruct (debtor_ids_call _ _ _ _ _ Hcall') as [Hcount' Hprev'].
  rewrite (debtor_ids_query creditor_id count prev s) in Hcall by done.
  rewrite (debtor_ids_query creditor_id count' (Some debtor_id) s) in Hcall'
    by done.
  rewrite (debtor_ids_query creditor_id (count + count') prev s)
    by (done || lia).
  injection Hcall as <-. injection Hcall' as <-. f_equal.
  set (ids := map (fun row : Z * Z * Account.t => snd (fst row))
                (filter (fun row : Z * Z * Account.t =>
                           fst (fst row) = creditor_id)
                   (map_to_list (account s)))) in *.
  rewrite (next_page id (is_after prev) (is_after (Some debtor_id))
             (Z.to_nat count) ids debtor_id).
  - rewrite take_then_take_of_drop. f_equal. lia.
  - rewrite map_id. apply NoDup_filter. apply debtor_ids_nodup.
  - done.
  - intros d. unfold id, is_after. split; [|by intros [_ ?]].
    intros Hd. split; [|done].
    apply last_Some_elem_of, in_take in Hlast.
    rewrite order_by_perm in Hlast.
    apply list_elem_of_filter in Hlast as [Hafter _].
    unfold is_after in Hafter. destruct prev as [prev|]; [lia|done].
Qed.

(** *** The account properties on values *)

Lemma new_account_is_recorded_witness :
  exists new_account s',
    create_new_account Examples.account_paths Examples.account_types
      10%float 0 false false None Tests.current_ts Tests.C_ID 7
      Examples.db_with_accounts = Returns (new_account, s')
    /\ account s' !! (Tests.C_ID, 7) = Some new_account.
Proof.
  destruct (create_new_account Examples.account_paths Examples.account_types
              10%float 0 false false None Tests.current_ts Tests.C_ID 7
              Examples.db_with_accounts)
    as [[new_account s']|e] eqn:Hcall; [|vm_compute in Hcall; discriminate].
  destruct (new_account_is_recorded Examples.account_paths
              Examples.account_types 10%float 0 false false None
              Tests.current_ts Tests.C_ID 7
              Examples.db_with_accounts new_account s')
    as (row & list_version & _ & _ & _ & Haccounts & _).
  - intros row Hrow.
    change (Creditors.creditor (base Examples.db_with_accounts))
      with ({[ Tests.C_ID := Tests.creditor ]}
            : gmap Z Creditors.Creditor.t) in Hrow.
    apply lookup_singleton_Some in Hrow as [_ <-]. reflexivity.
  - exact Hcall.
  - exists new_account, s'. split; [reflexivity|].
    rewrite Haccounts. apply lookup_insert_eq.
Defined.

Lemma deleted_account_is_gone_witness :
  exists s',
    delete_account Examples.account_paths Examples.account_types
      Tests.current_ts Tests.C_ID 3 Examples.db_with_accounts
    = Returns s'
    /\ account s' !! (Tests.C_ID, 3) = None.
Proof.
  destruct (delete_account Examples.account_paths Examples.account_types
              Tests.current_ts Tests.C_ID 3
              Examples.db_with_accounts)
    as [s'|e] eqn:Hcall; [|vm_compute in Hcall; discriminate].
  destruct (deleted_account_is_gone Examples.account_paths
              Examples.account_types Tests.current_ts Tests.C_ID 3
              Examples.db_with_accounts s' Hcall)
    as (data & row & list_version & _ & _ & _ & _ & _ & Haccounts & _).
  exists s'. split; [reflexivity|].
  rewrite Haccounts. apply lookup_delete_eq.
Defined.

Lemma pegged_account_is_never_deleted_witness :
  exists e,
    delete_account Examples.account_paths Examples.account_types
      Tests.current_ts Tests.C_ID 1 Examples.db_with_accounts
    = Raises e.
Proof.
  destruct (pegged_account_is_never_deleted Examples.account_paths
              Examples.account_types Tests.current_ts Tests.C_ID 1 2
              (Examples.an_account (Some 1))
              Examples.db_with_accounts)
    as (e & Hcall & _).
  - vm_compute. reflexivity.
  - reflexivity.
  - exists e. exact Hcall.
Defined.

Lemma debtor_ids_page_holds_the_next_ids_witness :
  exists page,
    get_creditor_debtor_ids Tests.C_ID 2 None
      Examples.db_with_accounts = Returns page
    /\ StronglySorted Z.lt page.
Proof.
  destruct (get_creditor_debtor_ids Tests.C_ID 2 None
              Examples.db_with_accounts)
    as [page|e] eqn:Hcall; [|vm_compute in Hcall; discriminate].
  exists page. split; [reflexivity|].
  exact (proj1 (proj2 (proj2
           (debtor_ids_page_holds_the_next_ids Tests.C_ID 2 None
              Examples.db_with_accounts page Hcall)))).
Defined.

Lemma debtor_ids_pages_join_witness :
  get_creditor_debtor_ids Tests.C_ID (2 + 2) None
    Examples.db_with_accounts = Returns ([1; 2] ++ [3]).
Proof.
  apply (debtor_ids_pages_join Tests.C_ID 2 2 None
           Examples.db_with_accounts [1; 2] [3] 2).
  - vm_compute. reflexivity.
  - reflexivity.
  - vm_compute. reflexivity.
Defined.

End AccountsTheory.

(** ** The schemas of a transfer *)

Module SchemasTheory.
Import Schemas SchemasVocabulary.

Lemma utf8_size_spec code_point :
  match utf8_size code_point with
  | Some n =>
    ~ is_surrogate code_point /\ 1 <= n <= 4
    /\ (code_point < 0x80 -> n = 1)
  | None => is_surrogate code_point
  end.
Proof.
  unfold utf8_size, is_surrogate.
  destruct (Z.ltb_spec code_point 0x80); [split; [lia|split; lia]|].
  destruct (Z.ltb_spec code_point 0x800); [split; [lia|split; lia]|].
  destruct (Z.leb_spec 0xD800 code_point);
    destruct (Z.leb_spec code_point 0xDFFF); cbn [andb]; try lia;
    destruct (Z.ltb_spec code_point 0x10000); split; try lia; split; lia.
Qed.

Lemma utf8_length_spec value :
  match utf8_length value with
  | Some n =>
    Forall (fun code_point => ~ is_surrogate code_point) value
    /\ Z.of_nat (length value) <= n <= 4 * Z.of_nat (length value)
    /\ (Forall (fun code_point => code_point < 0x80) value ->
        n = Z.of_nat (length value))
  | None => Exists is_surrogate value
  end.
Proof.
  induction value as [|code_point value IH].
  - cbn. split; [constructor|]. split; [lia|done].
  - cbn [utf8_length]. pose proof (utf8_size_spec code_point) as Hsize.
    destruct (utf8_size code_point) as [n|].
    + destruct (utf8_length value) as [m|].
      * destruct Hsize as (Hnot & Hn & Hascii).
        destruct IH as (Hall & Hm & Hasciis).
        split; [by constructor|]. cbn [length].
        split; [lia|]. intros Hall'.
        apply Forall_cons in Hall' as [Hsmall Hall'].
        rewrite (Hascii Hsmall), (Hasciis Hall'). lia.
      * by apply Exists_cons_tl.
    + by apply Exists_cons_hd.
Qed.

(** X26.  [validate_transfer_note]: [encode] raises exactly when the
    note has a surrogate code point; a valid note has at most 500 code
    points; a note without surrogates of at most 125 code points is valid;
    and a note of ASCII characters is valid exactly when it has at most
    500 of them. *)
Theorem transfer_note_validation_bounds value :
  (validate_transfer_note value = UnicodeEncodeError
   <-> Exists is_surrogate value)
  /\ (validate_transfer_note value = Valid ->
      Z.of_nat (length value) <= TRANSFER_NOTE_MAX_BYTES)
  /\ (Forall (fun code_point => ~ is_surrogate code_point) value ->
      4 * Z.of_nat (length value) <= TRANSFER_NOTE_MAX_BYTES ->
      validate_transfer_note value = Valid)
  /\ (Forall (fun code_point => code_point < 0x80) value ->
      (validate_transfer_note value = Valid
       <-> Z.of_nat (length value) <= TRANSFER_NOTE_MAX_BYTES)).
Proof.
  unfold validate_transfer_note.
  pose proof (utf8_length_spec value) as Hlength.
  destruct (utf8_length value) as [n|].
  - destruct Hlength as (Hall & Hn & Hascii).
    destruct (Z.ltb_spec TRANSFER_NOTE_MAX_BYTES n) as [Hlong|Hshort].
    + split; [split; [done|]|].
      { intros Hex. apply Exists_exists in Hex as (c & Hc & Hsur).
        rewrite Forall_forall in Hall. by apply Hall in Hc. }
      split; [done|]. split; [lia|].
      intros Hall'. rewrite (Hascii Hall') in Hlong. split; [done|lia].
    + split; [split; [done|]|].
      { intros Hex. apply Exists_exists in Hex as (c & Hc & Hsur).
        rewrite Forall_forall in Hall. by apply Hall in Hc. }
      split; [lia|]. split; [done|].
      intros Hall'. rewrite (Hascii Hall') in Hshort. done.
  - split; [done|]. split; [done|]. split.
    + intros Hall _. exfalso.
      apply Exists_exists in Hlength as (c & Hc & Hsur).
      rewrite Forall_forall in Hall. by apply Hall in Hc.
    + intros Hall. exfalso.
      apply Exists_exists in Hlength as (c & Hc & Hsur).
      rewrite Forall_forall in Hall. apply Hall in Hc.
      unfold is_surrogate in Hsur. lia.
Qed.

Lemma utf8_length_app value value' :
  utf8_length (value ++ value')
  = match utf8_length value, utf8_length value' with
    | Some n, Some m => Some (n + m)
    | _, _ => None
    end.
Proof.
  induction value as [|code_point value IH].
  - cbn. by destruct (utf8_length value').
  - cbn [app utf8_length]. rewrite IH.
    destruct (utf8_size code_point), (utf8_length value),
      (utf8_length value'); try done.
    f_equal. lia.
Qed.

(** X27.  A part of a valid transfer note is valid: when
    [validate_transfer_note] accepts [value ++ value'], it accepts [value]
    and [value']. *)
Theorem part_of_a_valid_note_is_valid value value' :
  validate_transfer_note (value ++ value') = Valid ->
  validate_transfer_note value = Valid
  /\ validate_transfer_note value' = Valid.
Proof.
  unfold validate_transfer_note. rewrite utf8_length_app.
  pose proof (utf8_length_spec value) as Hvalue.
  pose proof (utf8_length_spec value') as Hvalue'.
  destruct (utf8_length value) as [n|]; [|done].
  destruct (utf8_length value') as [m|]; [|done].
  destruct Hvalue as (_ & Hn & _). destruct Hvalue' as (_ & Hm & _).
  destruct (Z.ltb_spec TRANSFER_NOTE_MAX_BYTES (n + m)); [done|].
  intros _.
  destruct (Z.ltb_spec TRANSFER_NOTE_MAX_BYTES n); [lia|].
  destruct (Z.ltb_spec TRANSFER_NOTE_MAX_BYTES m); [lia|]. done.
Qed.

Section TransferSchemaFacts.
Context (paths_transfer : Z -> Z -> string).
Context (paths_transfers_list : Z -> string).

(** X28.  What [process_running_transfer_instance] shows of a transfer
    that satisfies the CHECK constraints of its table: a result exactly
    when the transfer is finalized and a locked amount that is not
    negative; without an error code the result has no error and commits
    the transfer's amount; with an error code the result commits 0 and
    carries the code, and [get_total_locked_amount] gives an amount, not
    negative, exactly for [SC_INSUFFICIENT_AVAILABLE_AMOUNT]. *)
Theorem dumped_transfer_shows_its_result obj :
  satisfies_check_constraints obj ->
  let dumped :=
    process_running_transfer_instance paths_transfer paths_transfers_list
      obj in
  (TransferObject.result dumped = None
   <-> RunningTransfer.is_finalized obj = false)
  /\ 0 <= TransferOptions.locked_amount (TransferObject.options dumped)
  /\ (RunningTransfer.error_code obj = None ->
      forall result,
        TransferObject.result dumped = Some result ->
        TransferResult.error result = None
        /\ TransferResult.committed_amount result
           = RunningTransfer.amount obj
        /\ 0 <= TransferResult.committed_amount result)
  /\ (forall error_code,
        RunningTransfer.error_code obj = Some error_code ->
        exists result error,
          TransferObject.result dumped = Some result
          /\ TransferResult.committed_amount result = 0
          /\ TransferResult.error result = Some error
          /\ TransferError.error_code error = error_code
          /\ (error_code <> SC_INSUFFICIENT_AVAILABLE_AMOUNT ->
              get_total_locked_amount error = None)
          /\ (error_code = SC_INSUFFICIENT_AVAILABLE_AMOUNT ->
              exists amount,
                get_total_locked_amount error = Some amount
                /\ 0 <= amount)).
Proof.
  intros (Hamount & Hlocked & Hlock & _ & Hfinal). cbv zeta.
  unfold process_running_transfer_instance, RunningTransfer.is_finalized.
  cbn [TransferObject.result TransferObject.options
       TransferOptions.locked_amount].
  split.
  { destruct (RunningTransfer.finalized_at obj); split; done. }
  split; [done|]. split.
  - intros Hok result. rewrite Hok.
    destruct (RunningTransfer.finalized_at obj); [|done].
    intros [= <-]. cbn. done.
  - intros error_code Hcode. rewrite Hcode.
    destruct Hfinal as [Hnone|Hfinal]; [congruence|].
    destruct (RunningTransfer.finalized_at obj) as [finalized_at|]; [|done].
    eexists _, _. split; [reflexivity|]. cbn.
    do 3 (split; [done|]). unfold get_total_locked_amount. cbn.
    split.
    + intros Hother. by rewrite bool_decide_eq_true_2.
    + intros ->. rewrite bool_decide_eq_false_2 by (by intros ?).
      eexists. split; [reflexivity|].
      destruct (RunningTransfer.total_locked_amount obj) as [amount|];
        [|done].
      specialize (Hlocked amount eq_refl).
      destruct (amount =? 0); lia.
Qed.

End TransferSchemaFacts.

(** *** The schema properties on the values of the tests *)

Lemma part_of_a_valid_note_is_valid_witness :
  validate_transfer_note [0x7B] = Valid
  /\ validate_transfer_note [0x7D] = Valid.
Proof.
  apply (part_of_a_valid_note_is_valid [0x7B] [0x7D]). reflexivity.
Defined.

Lemma dumped_transfer_shows_its_result_witness :
  TransferObject.result
    (process_running_transfer_instance (fun _ _ => "transfer"%string)
       (fun _ => "transfers"%string) Tests.running_transfer) = None
  <-> RunningTransfer.is_finalized Tests.running_transfer = false.
Proof.
  refine (proj1 (dumped_transfer_shows_its_result _ _ Tests.running_transfer
                   _)).
  split; [vm_compute; discriminate|]. split; [intros amount [=]|].
  split; [vm_compute; discriminate|]. split; [reflexivity|].
  left. reflexivity.
Defined.

End SchemasTheory.
